(** * VIP reconciliation engine of scalpx-bot (src/index.js)

    A shallow embedding of the entitlement store, the roster ingestor, the
    trial lifecycle, the three-phase sync with its single-flight flag, the
    status query and the hourly cleanup, followed by the properties of the
    specification that were checked against it.

    Modelling conventions.
    - Timestamps are JavaScript numbers holding integers far below 2^53;
      they are modelled as [Z].  A nullable SQLite INTEGER column is an
      [option Z] ([None] is NULL).
    - Text is [string] (the ASCII fragment of JavaScript strings):
      [toLowerCase], [toUpperCase] and [trim] act on ASCII letters and ASCII
      white space.
    - [Date.now()] is an oracle [clock : nat -> N]: the n-th reading made by
      the process returns [clock n]; the world counts the readings.
    - The platform side that the code never changes (which members exist,
      their join time, whether the platform rejects a role grant or removal
      for them, whether the guild and the VIP role can be resolved) is a
      [Guild] value; the role each member holds is part of the mutable
      world, and [member.roles.cache.has] reads it.  Module [ClientCache]
      repeats the pass with a cached member that can lag behind the platform.
    - A callback is handled to its end before the next one starts.  Module
      [Async] repeats the pass as a call that is suspended at its awaits while
      other callbacks are handled.
    - The database is reliable: statements do not fail.  The roster rows are an
      argument of the pass; a roster fetch that fails is not modelled. *)

From Stdlib Require Import ZArith NArith List String Ascii Bool Lia.
Import ListNotations.

Local Open Scope string_scope.
Local Open Scope Z_scope.

(** ** Configuration constants (index.js lines 8-9) *)

Definition ONE_MONTH : Z := 30 * 24 * 60 * 60 * 1000.
Definition LIFETIME_UNTIL : Z := 32503680000000.

(** ** JavaScript strings, ASCII fragment *)

Module JsString.

Definition is_upper (c : ascii) : bool :=
  let n := nat_of_ascii c in (Nat.leb 65 n && Nat.leb n 90)%bool.

Definition is_lower (c : ascii) : bool :=
  let n := nat_of_ascii c in (Nat.leb 97 n && Nat.leb n 122)%bool.

Definition lower_char (c : ascii) : ascii :=
  if is_upper c then ascii_of_nat (nat_of_ascii c + 32) else c.

Definition upper_char (c : ascii) : ascii :=
  if is_lower c then ascii_of_nat (nat_of_ascii c - 32) else c.

(** TAB, LF, VT, FF, CR and SPACE. *)
Definition is_space (c : ascii) : bool :=
  let n := nat_of_ascii c in
  ((Nat.leb 9 n && Nat.leb n 13) || Nat.eqb n 32)%bool.

Fixpoint toLowerCase (s : string) : string :=
  match s with
  | EmptyString => EmptyString
  | String c r => String (lower_char c) (toLowerCase r)
  end.

Fixpoint toUpperCase (s : string) : string :=
  match s with
  | EmptyString => EmptyString
  | String c r => String (upper_char c) (toUpperCase r)
  end.

Fixpoint trimStart (s : string) : string :=
  match s with
  | EmptyString => EmptyString
  | String c r => if is_space c then trimStart r else s
  end.

Fixpoint trimEnd (s : string) : string :=
  match s with
  | EmptyString => EmptyString
  | String c r =>
      match trimEnd r with
      | EmptyString => if is_space c then EmptyString else String c EmptyString
      | r' => String c r'
      end
  end.

Definition trim (s : string) : string := trimEnd (trimStart s).

(** [!s] for a string. *)
Definition falsy (s : string) : bool := String.eqb s "".

Fixpoint indexOf_from (l : list string) (x : string) (i : Z) : Z :=
  match l with
  | [] => -1
  | h :: t => if String.eqb h x then i else indexOf_from t x (i + 1)
  end.

(** [Array.prototype.indexOf]: first position, or -1. *)
Definition indexOf (l : list string) (x : string) : Z := indexOf_from l x 0.

(** [(row[i] || "")]: a cell past the end of the row is [undefined]. *)
Definition cell (row : list string) (i : Z) : string :=
  if i <? 0 then "" else nth (Z.to_nat i) row "".

End JsString.

(** ** Keyed collections *)

Module Assoc.

Section WithValue.
Context {V : Type}.

Fixpoint lookup (k : string) (m : list (string * V)) : option V :=
  match m with
  | [] => None
  | (k', v) :: t => if String.eqb k' k then Some v else lookup k t
  end.

(** [Map.prototype.set]: an existing key keeps its place in the
    iteration order, a new key goes last. *)
Fixpoint Map_set (k : string) (v : V) (m : list (string * V)) : list (string * V) :=
  match m with
  | [] => [(k, v)]
  | (k', v') :: t =>
      if String.eqb k' k then (k, v) :: t else (k', v') :: Map_set k v t
  end.

(** [INSERT OR REPLACE]: the row with the conflicting key is deleted and
    the new row is inserted (with a fresh rowid, hence last). *)
Definition replace (k : string) (v : V) (m : list (string * V)) : list (string * V) :=
  filter (fun e => negb (String.eqb (fst e) k)) m ++ [(k, v)].

(** [UPDATE ... WHERE user_id = k]. *)
Definition update (k : string) (f : V -> V) (m : list (string * V)) : list (string * V) :=
  map (fun e => if String.eqb (fst e) k then (fst e, f (snd e)) else e) m.

End WithValue.

End Assoc.

(** ** Roster ingestor (index.js lines 68-91) *)

Inductive Error : Type :=
| GuildUnavailable
| SchemaError (message : string)
| RoleNotFound
| RoleAddRejected (userId : string)
| RoleRemoveRejected (userId : string).

Inductive Result (A : Type) : Type :=
| Ok (a : A)
| Err (e : Error).
Arguments Ok {A} a.
Arguments Err {A} e.

Definition EligibilityMap : Type := list (string * bool).

Fixpoint eligibilityRows (rows : list (list string)) (discordIdx lifetimeIdx : Z)
    (map : EligibilityMap) : EligibilityMap :=
  match rows with
  | [] => map
  | row :: rest =>
      let id := JsString.trim (JsString.cell row discordIdx) in
      if JsString.falsy id then eligibilityRows rest discordIdx lifetimeIdx map
      else
        let val := JsString.toUpperCase (JsString.trim (JsString.cell row lifetimeIdx)) in
        let approved := String.eqb val "YES" in
        eligibilityRows rest discordIdx lifetimeIdx (Assoc.Map_set id approved map)
  end.

Definition normalisedHeaders (rows : list (list string)) : list string :=
  List.map (fun h => JsString.trim (JsString.toLowerCase h)) (hd [] rows).

(** [getEligibilityMap], as a function of the rows that [getSheetRows]
    returned. *)
Definition getEligibilityMap (rows : list (list string)) : Result EligibilityMap :=
  if (List.length rows <? 2)%nat then Ok []
  else
    let headers := normalisedHeaders rows in
    let discordIdx := JsString.indexOf headers "discord_id" in
    let lifetimeIdx := JsString.indexOf headers "lifetime_vip" in
    if discordIdx =? -1 then Err (SchemaError "discord_id column not found in sheet headers")
    else if lifetimeIdx =? -1
    then Err (SchemaError "lifetime_vip column not found in sheet headers")
    else Ok (eligibilityRows (tl rows) discordIdx lifetimeIdx []).

(** ** Entitlement store (index.js lines 16-50) *)

(** One row of [vip_users] without its key; both columns are nullable. *)
Record Row : Type := mkRow { vip_until : option Z; trial_until : option Z }.

(** The table, in rowid order; [user_id] is the primary key. *)
Definition Store : Type := list (string * Row).

(** Truthiness of a nullable number, and [v || 0]. *)
Definition truthy (v : option Z) : bool :=
  match v with
  | Some z => negb (z =? 0)
  | None => false
  end.

Definition orZero (v : option Z) : Z :=
  match v with
  | Some z => z
  | None => 0
  end.

(** ** Platform *)

Record MemberInfo : Type := mkMemberInfo {
  joinedTimestamp : option Z;   (* number, or null when unknown *)
  rejectsAdd : bool;            (* the platform rejects [roles.add] *)
  rejectsRemove : bool          (* the platform rejects [roles.remove] *)
}.

Record Guild : Type := mkGuild {
  guildOk : bool;                          (* [client.guilds.fetch] resolves *)
  vipRole : bool;                          (* VIP_ROLE_ID is in the role cache *)
  members : list (string * MemberInfo)     (* who [guild.members.fetch] finds *)
}.

(** A fetched member object. *)
Record Member : Type := mkMember { member_id : string; info : MemberInfo }.

(** ** Process state *)

Record World : Type := mkWorld {
  store : Store;
  roleHolders : list string;   (* members holding the VIP role *)
  syncRunning : bool;          (* index.js line 205 *)
  tick : nat                   (* number of [Date.now()] readings so far *)
}.

Definition set_store (s : Store) (w : World) : World :=
  mkWorld s (roleHolders w) (syncRunning w) (tick w).
Definition set_roleHolders (r : list string) (w : World) : World :=
  mkWorld (store w) r (syncRunning w) (tick w).
Definition set_syncRunning (b : bool) (w : World) : World :=
  mkWorld (store w) (roleHolders w) b (tick w).
Definition set_tick (n : nat) (w : World) : World :=
  mkWorld (store w) (roleHolders w) (syncRunning w) n.

Definition hasRole (userId : string) (w : World) : bool :=
  existsb (String.eqb userId) (roleHolders w).

(** The stored [vip_until] of a member as the code reads it
    ([row.vip_until || 0]); a missing record reads as 0. *)
Definition storedVipUntil (userId : string) (w : World) : Z :=
  match Assoc.lookup userId (store w) with
  | Some r => orZero (vip_until r)
  | None => 0
  end.

Definition storedTrialUntil (userId : string) (w : World) : Z :=
  match Assoc.lookup userId (store w) with
  | Some r => orZero (trial_until r)
  | None => 0
  end.

(** ** Asynchronous code as a state-and-exception monad *)

Definition M (A : Type) : Type := World -> Result A * World.

Definition ret {A} (a : A) : M A := fun w => (Ok a, w).

Definition throw {A} (e : Error) : M A := fun w => (Err e, w).

Definition bind {A B} (m : M A) (f : A -> M B) : M B :=
  fun w =>
    match m w with
    | (Ok a, w1) => f a w1
    | (Err e, w1) => (Err e, w1)
    end.

Declare Scope monad_scope.
Delimit Scope monad_scope with monad.
Notation "x <- m ;; k" := (bind m (fun x => k))
  (at level 61, m at next level, right associativity) : monad_scope.
Notation "m ;; k" := (bind m (fun _ => k))
  (at level 61, right associativity) : monad_scope.
Local Open Scope monad_scope.

(** [promise.catch(() => {})] *)
Definition catch_ignore (m : M unit) : M unit :=
  fun w => let (_, w1) := m w in (Ok tt, w1).

(** [try { m } finally { cleanup }] *)
Definition try_finally {A} (m : M A) (cleanup : World -> World) : M A :=
  fun w => let (r, w1) := m w in (r, cleanup w1).

Definition lift {A} (r : Result A) : M A := fun w => (r, w).

Record Entitlement : Type := mkEntitlement { e_vip_until : Z; e_trial_until : Z }.

Record Summary : Type := mkSummary {
  lifetimeEnsured : nat;
  lifetimeDowngraded : nat;
  expiredRemoved : nat;
  ms : Z;
  totalSheet : nat
}.

Inductive SyncResult : Type :=
| Skipped
| Done (s : Summary).

Inductive Reply : Type :=
| NoVip
| LifetimeAccess
| ActiveUntil (seconds : Z)
| Expired.

(** [new Set(list)]: first occurrences, in order. *)
Fixpoint Set_of (l acc : list string) : list string :=
  match l with
  | [] => acc
  | x :: t => Set_of t (if existsb (String.eqb x) acc then acc else acc ++ [x])
  end.

Section Engine.

Variable clock : nat -> N.
Variable guild : Guild.

Definition Date_now : M Z :=
  fun w => (Ok (Z.of_N (clock (tick w))), set_tick (S (tick w)) w).

(** *** Database helpers *)

Definition dbGet (userId : string) : M (option Row) :=
  fun w => (Ok (Assoc.lookup userId (store w)), w).

Definition dbAll : M (list (string * Row)) :=
  fun w => (Ok (store w), w).

(** [INSERT OR REPLACE INTO vip_users VALUES (?, ?, ?)] *)
Definition dbReplace (userId : string) (vip trial : Z) : M unit :=
  fun w =>
    (Ok tt,
     set_store (Assoc.replace userId (mkRow (Some vip) (Some trial)) (store w)) w).

(** [UPDATE vip_users SET trial_until=? WHERE user_id=?] *)
Definition dbUpdateTrial (trial : Z) (userId : string) : M unit :=
  fun w =>
    (Ok tt,
     set_store
       (Assoc.update userId (fun r => mkRow (vip_until r) (Some trial)) (store w)) w).

(** *** Platform calls *)

Definition fetchGuild : M unit :=
  if guildOk guild then ret tt else throw GuildUnavailable.

(** index.js lines 98-102 *)
Definition getVipRole : M unit :=
  if vipRole guild then ret tt else throw RoleNotFound.

(** index.js lines 105-111 *)
Definition fetchMemberSafe (userId : string) : M (option Member) :=
  ret (option_map (mkMember userId) (Assoc.lookup userId (members guild))).

Definition roles_add (member : Member) : M unit :=
  fun w =>
    if rejectsAdd (info member) then (Err (RoleAddRejected (member_id member)), w)
    else (Ok tt,
          set_roleHolders
            (if hasRole (member_id member) w then roleHolders w
             else member_id member :: roleHolders w) w).

Definition roles_remove (member : Member) : M unit :=
  fun w =>
    if rejectsRemove (info member) then (Err (RoleRemoveRejected (member_id member)), w)
    else (Ok tt,
          set_roleHolders
            (filter (fun u => negb (String.eqb (member_id member) u)) (roleHolders w)) w).

Definition roles_cache_has (member : Member) : M bool :=
  fun w => (Ok (hasRole (member_id member) w), w).

(** *** Trial lifecycle (index.js lines 113-152) *)

Definition ensureTrialRecordFor (member : Member) : M Entitlement :=
  row <- dbGet (member_id member) ;;
  joinedTs <- (if truthy (joinedTimestamp (info member))
               then ret (orZero (joinedTimestamp (info member)))
               else Date_now) ;;
  let fallbackTrialUntil := joinedTs + ONE_MONTH in
  match row with
  | None =>
      dbReplace (member_id member) fallbackTrialUntil fallbackTrialUntil ;;
      ret (mkEntitlement fallbackTrialUntil fallbackTrialUntil)
  | Some row =>
      if negb (truthy (trial_until row)) then
        trialUntil <-
          (if truthy (vip_until row) then
             now <- Date_now ;;
             ret (if (now <? orZero (vip_until row))
                     && (orZero (vip_until row) <? LIFETIME_UNTIL)
                  then orZero (vip_until row) else fallbackTrialUntil)
           else ret fallbackTrialUntil) ;;
        dbUpdateTrial trialUntil (member_id member) ;;
        ret (mkEntitlement (orZero (vip_until row)) trialUntil)
      else
        ret (mkEntitlement (orZero (vip_until row)) (orZero (trial_until row)))
  end.

Definition grantTrialOnJoin (member : Member) : M Z :=
  getVipRole ;;
  now <- Date_now ;;
  let trialUntil := now + ONE_MONTH in
  roles_add member ;;
  dbReplace (member_id member) trialUntil trialUntil ;;
  ret trialUntil.

(** *** Role and record transitions (index.js lines 154-201) *)

Definition setVipLifetime (member : Member) : M unit :=
  getVipRole ;;
  roles_add member ;;
  existing <- ensureTrialRecordFor member ;;
  trialUntil <- (if e_trial_until existing =? 0
                 then now <- Date_now ;; ret (now + ONE_MONTH)
                 else ret (e_trial_until existing)) ;;
  dbReplace (member_id member) LIFETIME_UNTIL trialUntil.

Definition setVipToTrialRemainingOrRemove (member : Member) : M (bool * Z) :=
  getVipRole ;;
  existing <- ensureTrialRecordFor member ;;
  let trialUntil := e_trial_until existing in
  now <- Date_now ;;
  if now <? trialUntil then
    roles_add member ;;
    dbReplace (member_id member) trialUntil trialUntil ;;
    ret (true, trialUntil)
  else
    has <- roles_cache_has member ;;
    (if has then catch_ignore (roles_remove member) else ret tt) ;;
    dbReplace (member_id member) 0 trialUntil ;;
    ret (false, trialUntil).

Definition removeVipIfHas (member : Member) : M unit :=
  getVipRole ;;
  has <- roles_cache_has member ;;
  if has then catch_ignore (roles_remove member) else ret tt.

(** *** Optimised sync (index.js lines 203-273) *)

(** Phase 1: ensure lifetime VIP for approved users. *)
Fixpoint grantLoop (entries : list (string * bool)) (lifetimeEnsured : nat) : M nat :=
  match entries with
  | [] => ret lifetimeEnsured
  | (userId, approved) :: rest =>
      if negb approved then grantLoop rest lifetimeEnsured
      else
        member <- fetchMemberSafe userId ;;
        match member with
        | None => grantLoop rest lifetimeEnsured
        | Some member =>
            setVipLifetime member ;;
            grantLoop rest (S lifetimeEnsured)
        end
  end.

(** Phase 2: downgrade stored-lifetime users who are not approved any more. *)
Fixpoint downgradeLoop (eligibility : EligibilityMap) (lifetimeInDb : list string)
    (lifetimeDowngraded : nat) : M nat :=
  match lifetimeInDb with
  | [] => ret lifetimeDowngraded
  | userId :: rest =>
      let approved :=
        match Assoc.lookup userId eligibility with
        | Some true => true
        | _ => false
        end in
      if approved then downgradeLoop eligibility rest lifetimeDowngraded
      else
        member <- fetchMemberSafe userId ;;
        match member with
        | None => downgradeLoop eligibility rest lifetimeDowngraded
        | Some member =>
            setVipToTrialRemainingOrRemove member ;;
            downgradeLoop eligibility rest (S lifetimeDowngraded)
        end
  end.

(** Phase 3: remove the role of users whose stored expiry is in the past. *)
Fixpoint expiryLoop (dbRows : list (string * Row)) (expiredRemoved : nat) : M nat :=
  match dbRows with
  | [] => ret expiredRemoved
  | (user_id, r) :: rest =>
      let vipUntil := orZero (vip_until r) in
      if vipUntil =? 0 then expiryLoop rest expiredRemoved
      else if LIFETIME_UNTIL <=? vipUntil then expiryLoop rest expiredRemoved
      else
        now <- Date_now ;;
        if now <? vipUntil then expiryLoop rest expiredRemoved
        else
          member <- fetchMemberSafe user_id ;;
          match member with
          | None => expiryLoop rest expiredRemoved
          | Some member =>
              removeVipIfHas member ;;
              expiryLoop rest (S expiredRemoved)
          end
  end.

Definition lifetimeInDb_of (dbRows : list (string * Row)) : list string :=
  Set_of
    (List.map fst
       (filter (fun r => LIFETIME_UNTIL <=? orZero (vip_until (snd r))) dbRows))
    [].

(** The [try] block of the pass. *)
Definition syncPass (sheetRows : list (list string)) (started : Z) : M SyncResult :=
  fetchGuild ;;
  eligibility <- lift (getEligibilityMap sheetRows) ;;
  dbRows <- dbAll ;;
  let lifetimeInDb := lifetimeInDb_of dbRows in
  lifetimeEnsured <- grantLoop eligibility 0 ;;
  lifetimeDowngraded <- downgradeLoop eligibility lifetimeInDb 0 ;;
  expiredRemoved <- expiryLoop dbRows 0 ;;
  finished <- Date_now ;;
  ret (Done (mkSummary lifetimeEnsured lifetimeDowngraded expiredRemoved
               (finished - started) (List.length eligibility))).

(** [sheetRows] is what [getSheetRows] returns to this invocation. *)
Definition syncFromSheetOptimised (sheetRows : list (list string)) : M SyncResult :=
  fun w =>
    if syncRunning w then (Ok Skipped, w)
    else
      (started <- Date_now ;;
       try_finally (syncPass sheetRows started) (set_syncRunning false))
        (set_syncRunning true w).

(** *** Status query (index.js lines 319-340) *)

Definition statusQuery (userId : string) : M Reply :=
  row <- dbGet userId ;;
  match row with
  | None => ret NoVip
  | Some row =>
      if negb (truthy (vip_until row)) then ret NoVip
      else if LIFETIME_UNTIL <=? orZero (vip_until row) then ret LifetimeAccess
      else
        now <- Date_now ;;
        if now <? orZero (vip_until row)
        then ret (ActiveUntil (orZero (vip_until row) / 1000))
        else ret Expired
  end.

(** *** Hourly cleanup (index.js lines 367-386) *)

(** [SELECT user_id, vip_until FROM vip_users] *)
Definition dbAllVip : M (list (string * option Z)) :=
  fun w => (Ok (List.map (fun e => (fst e, vip_until (snd e))) (store w)), w).

Fixpoint cleanupLoop (dbRows : list (string * option Z)) : M unit :=
  match dbRows with
  | [] => ret tt
  | (user_id, vip) :: rest =>
      let vipUntil := orZero vip in
      if vipUntil =? 0 then cleanupLoop rest
      else if LIFETIME_UNTIL <=? vipUntil then cleanupLoop rest
      else
        now <- Date_now ;;
        if now <? vipUntil then cleanupLoop rest
        else
          member <- fetchMemberSafe user_id ;;
          match member with
          | None => cleanupLoop rest
          | Some member =>
              removeVipIfHas member ;;
              cleanupLoop rest
          end
  end.

(** The callback catches and logs every error. *)
Definition hourlyCleanup : M unit :=
  catch_ignore
    (fetchGuild ;;
     dbRows <- dbAllVip ;;
     cleanupLoop dbRows).

End Engine.

(** ** Predicates used in the statements *)

(** [P] holds of every [Date.now()] reading made from world [w] up to world [w']. *)
Definition readings (clock : nat -> N) (w w' : World) (P : Z -> Prop) : Prop :=
  forall i, (tick w <= i < tick w')%nat -> P (Z.of_N (clock i)).

(** Every stored trial window ends before the LIFETIME sentinel. *)
Definition trial_ok (st : Store) : Prop :=
  forall k r, Assoc.lookup k st = Some r -> orZero (trial_until r) < LIFETIME_UNTIL.

(** From [w] to [w'] the clock stays more than a trial length before the
    sentinel (year 3000). *)
Definition clock_ok (clock : nat -> N) (w w' : World) : Prop :=
  readings clock w w' (fun now => now + ONE_MONTH < LIFETIME_UNTIL).

Definition member_ok (m : MemberInfo) : Prop :=
  orZero (joinedTimestamp m) + ONE_MONTH < LIFETIME_UNTIL.

Definition members_ok (guild : Guild) : Prop :=
  forall k mi, Assoc.lookup k (members guild) = Some mi -> member_ok mi.

(** [eligibility.get(userId) === true] *)
Definition approved (eligibility : EligibilityMap) (userId : string) : Prop :=
  Assoc.lookup userId eligibility = Some true.

(** [user_id] is the primary key of [vip_users]. *)
Definition keys_ok (st : Store) : Prop := NoDup (List.map fst st).

(** The world in which the [try] block of a pass starts: flag set, [started] read. *)
Definition passStart (w : World) : World :=
  set_tick (S (tick w)) (set_syncRunning true w).

(** A non-zero stored [trial_until] of [k] is the same in [w'] as in [w]. *)
Definition keeps_trial (k : string) (w w' : World) : Prop :=
  storedTrialUntil k w <> 0 -> storedTrialUntil k w' = storedTrialUntil k w.

(** A roster lacks a column when no header cell, lower-cased and trimmed,
    equals its name. *)
Definition lacksColumn (rows : list (list string)) (name : string) : Prop :=
  ~ In name (normalisedHeaders rows).

(** ** Concrete scenarios *)

Module Scenario.

Definition now : Z := 1700000000000.
Definition day : Z := 24 * 60 * 60 * 1000.

(** A clock that stands still at [now]. *)
Definition clock : nat -> N := fun _ => Z.to_N now.

Definition regular : MemberInfo := mkMemberInfo (Some 1690000000000) false false.
Definition unmanageable : MemberInfo := mkMemberInfo (Some 1690000000000) true false.

Definition guild : Guild := mkGuild true true [("123", regular); ("456", regular)].
Definition emptyGuild : Guild := mkGuild true true [].
Definition strictGuild : Guild :=
  mkGuild true true [("123", unmanageable); ("456", regular)].

Definition emptyWorld : World := mkWorld [] [] false 0.

Definition world_of (vip trial : Z) (holdsRole : bool) : World :=
  mkWorld [("123", mkRow (Some vip) (Some trial))]
          (if holdsRole then ["123"] else []) false 0.

Definition roster123 : list (list string) :=
  [["discord_id"; "lifetime_vip"]; ["123"; "YES"]].
Definition rosterBoth : list (list string) :=
  [["discord_id"; "lifetime_vip"]; ["123"; "YES"]; ["456"; "YES"]].
Definition rosterOther : list (list string) :=
  [["discord_id"; "lifetime_vip"]; ["456"; "YES"]].
Definition rosterHeaderOnly : list (list string) := [["name"]].
Definition rosterNoApproval : list (list string) :=
  [["discord_id"; "name"]; ["123"; "YES"]].

End Scenario.

(** ** Further vocabulary for the statements *)

(** The two column positions [getEligibilityMap] computes from the header row. *)
Definition discordIdx_of (rows : list (list string)) : Z :=
  JsString.indexOf (normalisedHeaders rows) "discord_id".
Definition lifetimeIdx_of (rows : list (list string)) : Z :=
  JsString.indexOf (normalisedHeaders rows) "lifetime_vip".

(** What the loop of [getEligibilityMap] reads from one data row: [id] and
    [approved] (index.js lines 83-87). *)
Definition rowId (rows : list (list string)) (row : list string) : string :=
  JsString.trim (JsString.cell row (discordIdx_of rows)).
Definition rowApproved (rows : list (list string)) (row : list string) : bool :=
  String.eqb
    (JsString.toUpperCase (JsString.trim (JsString.cell row (lifetimeIdx_of rows))))
    "YES".

(** The stored [vip_until] reads as 0, as the sentinel, or as the row's own
    [trial_until]. *)
Definition vip_shape (r : Row) : Prop :=
  orZero (vip_until r) = 0 \/ orZero (vip_until r) = LIFETIME_UNTIL
  \/ orZero (vip_until r) = orZero (trial_until r).

Definition shape_ok (st : Store) : Prop :=
  forall k r, Assoc.lookup k st = Some r -> vip_shape r.

(** A join time that is known is not before the epoch. *)
Definition joined_after_epoch (m : MemberInfo) : Prop :=
  forall j, joinedTimestamp m = Some j -> 0 <= j.

(** The roster entries the grant loop acts on, and the stored-lifetime identifiers
    the downgrade loop acts on. *)
Definition toEnsure (guild : Guild) (entry : string * bool) : bool :=
  snd entry && match Assoc.lookup (fst entry) (members guild) with
               | Some _ => true
               | None => false
               end.
Definition toDowngrade (guild : Guild) (eligibility : EligibilityMap) (userId : string)
    : bool :=
  negb match Assoc.lookup userId eligibility with
       | Some true => true
       | _ => false
       end
  && match Assoc.lookup userId (members guild) with
     | Some _ => true
     | None => false
     end.

(** The errors that leave a role transition: the role does not resolve, or the
    platform rejects the grant for this member. *)
Definition transition_error (guild : Guild) (member : Member) (e : Error) : Prop :=
  (e = RoleNotFound /\ vipRole guild = false) \/
  (e = RoleAddRejected (member_id member) /\ rejectsAdd (info member) = true).

(** What an error of the three loops of the pass can be. *)
Definition loop_error (guild : Guild) (e : Error) : Prop :=
  (e = RoleNotFound /\ vipRole guild = false) \/
  (exists k mi, e = RoleAddRejected k /\ Assoc.lookup k (members guild) = Some mi
                /\ rejectsAdd mi = true).

(** ** Event handlers (index.js lines 300-354) *)

Inductive Interaction : Type :=
| NotChatInput
| ChatInput (commandName : string).

Inductive InteractionReply : Type :=
| FormLink                       (* process.env.FORM_URL *)
| StatusReply (r : Reply)
| StatusError
| SyncSkipped                    (* Sync already running *)
| SyncOk                         (* Synced. Your VIP status is up to date. *)
| SyncFailed (e : Error).        (* Sync error: e.message *)

Inductive HandlerResult : Type :=
| NoReply
| Replied (r : InteractionReply)
| Unhandled.                     (* the member fetch of line 313 rejected *)

(** The callbacks the process registers: the [ready] handler (whether the command
    registration of lines 286-290 succeeded, and the sheet its initial sync reads),
    the two client events and the two schedules. *)
Inductive Event : Type :=
| Ready (registered : bool) (sheetRows : list (list string))
| MemberAdd (logChannel : bool) (member : Member)
| InteractionCreate (interaction : Interaction) (userId : string)
    (sheetRows : list (list string))
| SyncCron (sheetRows : list (list string))
| CleanupCron.

Section Handlers.

Variable clock : nat -> N.
Variable guild : Guild.

(** [client.on("guildMemberAdd", ...)]: the announcement (in seconds) when the
    log channel exists; every error is caught and logged. *)
Definition guildMemberAdd (logChannel : bool) (member : Member) : World -> option Z * World :=
  fun w =>
    match grantTrialOnJoin clock guild member w with
    | (Ok until, w1) => (if logChannel then Some (until / 1000) else None, w1)
    | (Err _, w1) => (None, w1)
    end.

(** [client.on("interactionCreate", ...)] for the user [userId]; [sheetRows] is
    what [getSheetRows] would return to a sync started by this interaction. *)
Definition interactionCreate (interaction : Interaction) (userId : string)
    (sheetRows : list (list string)) : World -> HandlerResult * World :=
  fun w =>
    match interaction with
    | NotChatInput => (NoReply, w)
    | ChatInput commandName =>
        match Assoc.lookup userId (members guild) with
        | None => (Unhandled, w)
        | Some _ =>
            if String.eqb commandName "form" then (Replied FormLink, w)
            else if String.eqb commandName "status" then
              match statusQuery clock userId w with
              | (Ok r, w1) => (Replied (StatusReply r), w1)
              | (Err _, w1) => (Replied StatusError, w1)
              end
            else if String.eqb commandName "reactivate" then
              match syncFromSheetOptimised clock guild sheetRows w with
              | (Ok Skipped, w1) => (Replied SyncSkipped, w1)
              | (Ok (Done _), w1) => (Replied SyncOk, w1)
              | (Err e, w1) => (Replied (SyncFailed e), w1)
              end
            else (NoReply, w)
        end
    end.

(** [client.once("ready", ...)]: a rejected registration leaves the handler before
    the initial sync; the sync's own errors are caught and logged. *)
Definition ready (registered : bool) (sheetRows : list (list string)) : World -> World :=
  fun w => if registered then snd (syncFromSheetOptimised clock guild sheetRows w) else w.

(** The five-minute schedule (lines 358-365): result and error are only logged. *)
Definition syncCron (sheetRows : list (list string)) : World -> World :=
  fun w => snd (syncFromSheetOptimised clock guild sheetRows w).

(** The hourly schedule (lines 368-386). *)
Definition cleanupCron : World -> World :=
  fun w => snd (hourlyCleanup clock guild w).

Definition handle (e : Event) : World -> World :=
  fun w =>
    match e with
    | Ready registered sheetRows => ready registered sheetRows w
    | MemberAdd logChannel member => snd (guildMemberAdd logChannel member w)
    | InteractionCreate interaction userId sheetRows =>
        snd (interactionCreate interaction userId sheetRows w)
    | SyncCron sheetRows => syncCron sheetRows w
    | CleanupCron => cleanupCron w
    end.

(** Callbacks handled one after the other, each to completion before the next
    starts. *)
Definition run (events : list Event) (w : World) : World :=
  fold_left (fun w e => handle e w) events w.

End Handlers.

(** ** The client's member cache *)

(** [member.roles.cache] is the client's copy of a member's roles.  [roles.add] and
    [roles.remove] change the roles on the platform and resolve to a new member
    object; the cached member, which is what [guild.members.fetch] hands out, changes
    only when the member update of the gateway arrives.  This module separates the
    two: [shown] are the members whose cached copy shows the VIP role when the pass
    starts, and [refreshed userId] tells whether the update that follows a role
    change of that member reaches the client before the member's roles are read
    again.  The functions of the pass that lead to a cache read are repeated with
    this read; everything else is the engine above, which is the case in which every
    member is refreshed. *)
Module ClientCache.

Section Engine.

Variable clock : nat -> N.
Variable guild : Guild.
Variable shown : list string.
Variable refreshed : string -> bool.

(** [member.roles.cache.has(role.id)] *)
Definition roles_cache_has (member : Member) : M bool :=
  fun w =>
    (Ok (if refreshed (member_id member)
         then hasRole (member_id member) w
         else existsb (String.eqb (member_id member)) shown),
     w).

Definition setVipToTrialRemainingOrRemove (member : Member) : M (bool * Z) :=
  getVipRole guild ;;
  existing <- ensureTrialRecordFor clock member ;;
  let trialUntil := e_trial_until existing in
  now <- Date_now clock ;;
  if now <? trialUntil then
    roles_add member ;;
    dbReplace (member_id member) trialUntil trialUntil ;;
    ret (true, trialUntil)
  else
    has <- roles_cache_has member ;;
    (if has then catch_ignore (roles_remove member) else ret tt) ;;
    dbReplace (member_id member) 0 trialUntil ;;
    ret (false, trialUntil).

Definition removeVipIfHas (member : Member) : M unit :=
  getVipRole guild ;;
  has <- roles_cache_has member ;;
  if has then catch_ignore (roles_remove member) else ret tt.

Fixpoint downgradeLoop (eligibility : EligibilityMap) (lifetimeInDb : list string)
    (lifetimeDowngraded : nat) : M nat :=
  match lifetimeInDb with
  | [] => ret lifetimeDowngraded
  | userId :: rest =>
      let approved :=
        match Assoc.lookup userId eligibility with
        | Some true => true
        | _ => false
        end in
      if approved then downgradeLoop eligibility rest lifetimeDowngraded
      else
        member <- fetchMemberSafe guild userId ;;
        match member with
        | None => downgradeLoop eligibility rest lifetimeDowngraded
        | Some member =>
            setVipToTrialRemainingOrRemove member ;;
            downgradeLoop eligibility rest (S lifetimeDowngraded)
        end
  end.

Fixpoint expiryLoop (dbRows : list (string * Row)) (expiredRemoved : nat) : M nat :=
  match dbRows with
  | [] => ret expiredRemoved
  | (user_id, r) :: rest =>
      let vipUntil := orZero (vip_until r) in
      if vipUntil =? 0 then expiryLoop rest expiredRemoved
      else if LIFETIME_UNTIL <=? vipUntil then expiryLoop rest expiredRemoved
      else
        now <- Date_now clock ;;
        if now <? vipUntil then expiryLoop rest expiredRemoved
        else
          member <- fetchMemberSafe guild user_id ;;
          match member with
          | None => expiryLoop rest expiredRemoved
          | Some member =>
              removeVipIfHas member ;;
              expiryLoop rest (S expiredRemoved)
          end
  end.

Definition syncPass (sheetRows : list (list string)) (started : Z) : M SyncResult :=
  fetchGuild guild ;;
  eligibility <- lift (getEligibilityMap sheetRows) ;;
  dbRows <- dbAll ;;
  let lifetimeInDb := lifetimeInDb_of dbRows in
  lifetimeEnsured <- grantLoop clock guild eligibility 0 ;;
  lifetimeDowngraded <- downgradeLoop eligibility lifetimeInDb 0 ;;
  expiredRemoved <- expiryLoop dbRows 0 ;;
  finished <- Date_now clock ;;
  ret (Done (mkSummary lifetimeEnsured lifetimeDowngraded expiredRemoved
               (finished - started) (List.length eligibility))).

Definition syncFromSheetOptimised (sheetRows : list (list string)) : M SyncResult :=
  fun w =>
    if syncRunning w then (Ok Skipped, w)
    else
      (started <- Date_now clock ;;
       try_finally (syncPass sheetRows started) (set_syncRunning false))
        (set_syncRunning true w).

End Engine.

End ClientCache.

(** ** Invocations that overlap *)

(** An async function runs until its next [await] and is resumed later; other
    callbacks run in between.  A [Call] is the state of one call: settled with its
    result, or awaiting, with what it does when it is resumed.  A function of type
    [T A] runs from the call, or from a resumption, to the next [await]. *)
Module Async.

#[local] Set Warnings "-register-all".

Inductive Call (A : Type) : Type :=
| Settled (r : Result A)
| Awaiting (resume : World -> Call A * World).
Arguments Settled {A} r.
Arguments Awaiting {A} resume.

Definition T (A : Type) : Type := World -> Call A * World.

Definition ret {A} (a : A) : T A := fun w => (Settled (Ok a), w).

(** Code that does not wait, such as [Date.now()]. *)
Definition sync {A} (m : M A) : T A := fun w => let (r, w1) := m w in (Settled r, w1).

(** [await m]: the call is suspended here; the awaited operation is taken as one
    step, made when the call is resumed. *)
Definition await {A} (m : M A) : T A :=
  fun w => (Awaiting (fun w' => let (r, w1) := m w' in (Settled r, w1)), w).

Fixpoint andThen {A B} (x : Call A) (k : A -> T B) : T B :=
  match x with
  | Settled (Ok a) => k a
  | Settled (Err e) => fun w => (Settled (Err e), w)
  | Awaiting resume =>
      fun w => (Awaiting (fun w' => let (x', w1) := resume w' in andThen x' k w1), w)
  end.

Definition bind {A B} (t : T A) (k : A -> T B) : T B :=
  fun w => let (x, w1) := t w in andThen x k w1.

Fixpoint settle {A} (x : Call A) (cleanup : World -> World) : T A :=
  match x with
  | Settled r => fun w => (Settled r, cleanup w)
  | Awaiting resume =>
      fun w => (Awaiting (fun w' => let (x', w1) := resume w' in settle x' cleanup w1), w)
  end.

(** [try { t } finally { cleanup }] *)
Definition try_finally {A} (t : T A) (cleanup : World -> World) : T A :=
  fun w => let (x, w1) := t w in settle x cleanup w1.

Declare Scope call_scope.
Delimit Scope call_scope with call.
Notation "x <- t ;; k" := (bind t (fun x => k))
  (at level 61, t at next level, right associativity) : call_scope.
Notation "t ;; k" := (bind t (fun _ => k))
  (at level 61, right associativity) : call_scope.

(** The call runs to its end with nothing else in between. *)
Fixpoint uninterrupted {A} (x : Call A) (w : World) : Result A * World :=
  match x with
  | Settled r => (r, w)
  | Awaiting resume => let (x', w1) := resume w in uninterrupted x' w1
  end.

(** The call made and left alone until it settles. *)
Definition run {A} (t : T A) : M A :=
  fun w => let (x, w1) := t w in uninterrupted x w1.

(** Every step of the call leaves the running flag as it is, and a result the call
    settles with satisfies [Q]. *)
Fixpoint keepsFlag {A} (Q : Result A -> Prop) (x : Call A) : Prop :=
  match x with
  | Settled r => Q r
  | Awaiting resume =>
      forall w, let (x', w1) := resume w in
                syncRunning w1 = syncRunning w /\ keepsFlag Q x'
  end.

(** Resumed with the flag set, the call keeps it set while it awaits and clears it
    when it settles, and it does not settle with the skipped result. *)
Fixpoint holdsFlag (x : Call SyncResult) : Prop :=
  match x with
  | Settled _ => True
  | Awaiting resume =>
      forall w, syncRunning w = true ->
        let (x', w1) := resume w in
        holdsFlag x' /\
        match x' with
        | Settled r => r <> Ok Skipped /\ syncRunning w1 = false
        | Awaiting _ => syncRunning w1 = true
        end
  end.

Section Engine.

Variable clock : nat -> N.
Variable guild : Guild.

Local Open Scope call_scope.

(** The pass of index.js lines 207-273, with one suspension for each [await] of its
    own text. *)

Fixpoint grantLoop (entries : list (string * bool)) (lifetimeEnsured : nat) : T nat :=
  match entries with
  | [] => ret lifetimeEnsured
  | (userId, approved) :: rest =>
      if negb approved then grantLoop rest lifetimeEnsured
      else
        member <- await (fetchMemberSafe guild userId) ;;
        match member with
        | None => grantLoop rest lifetimeEnsured
        | Some member =>
            await (setVipLifetime clock guild member) ;;
            grantLoop rest (S lifetimeEnsured)
        end
  end.

Fixpoint downgradeLoop (eligibility : EligibilityMap) (lifetimeInDb : list string)
    (lifetimeDowngraded : nat) : T nat :=
  match lifetimeInDb with
  | [] => ret lifetimeDowngraded
  | userId :: rest =>
      let approved :=
        match Assoc.lookup userId eligibility with
        | Some true => true
        | _ => false
        end in
      if approved then downgradeLoop eligibility rest lifetimeDowngraded
      else
        member <- await (fetchMemberSafe guild userId) ;;
        match member with
        | None => downgradeLoop eligibility rest lifetimeDowngraded
        | Some member =>
            await (setVipToTrialRemainingOrRemove clock guild member) ;;
            downgradeLoop eligibility rest (S lifetimeDowngraded)
        end
  end.

Fixpoint expiryLoop (dbRows : list (string * Row)) (expiredRemoved : nat) : T nat :=
  match dbRows with
  | [] => ret expiredRemoved
  | (user_id, r) :: rest =>
      let vipUntil := orZero (vip_until r) in
      if vipUntil =? 0 then expiryLoop rest expiredRemoved
      else if LIFETIME_UNTIL <=? vipUntil then expiryLoop rest expiredRemoved
      else
        now <- sync (Date_now clock) ;;
        if now <? vipUntil then expiryLoop rest expiredRemoved
        else
          member <- await (fetchMemberSafe guild user_id) ;;
          match member with
          | None => expiryLoop rest expiredRemoved
          | Some member =>
              await (removeVipIfHas guild member) ;;
              expiryLoop rest (S expiredRemoved)
          end
  end.

(** The [try] block. *)
Definition syncPass (sheetRows : list (list string)) (started : Z) : T SyncResult :=
  await (fetchGuild guild) ;;
  eligibility <- await (lift (getEligibilityMap sheetRows)) ;;
  dbRows <- await dbAll ;;
  let lifetimeInDb := lifetimeInDb_of dbRows in
  lifetimeEnsured <- grantLoop eligibility 0 ;;
  lifetimeDowngraded <- downgradeLoop eligibility lifetimeInDb 0 ;;
  expiredRemoved <- expiryLoop dbRows 0 ;;
  finished <- sync (Date_now clock) ;;
  ret (Done (mkSummary lifetimeEnsured lifetimeDowngraded expiredRemoved
               (finished - started) (List.length eligibility))).

Definition syncFromSheetOptimised (sheetRows : list (list string)) : T SyncResult :=
  fun w =>
    if syncRunning w then (Settled (Ok Skipped), w)
    else
      (started <- sync (Date_now clock) ;;
       try_finally (syncPass sheetRows started) (set_syncRunning false))
        (set_syncRunning true w).

(** What a call of the pass made in the world [w0] can have come to, and the world
    it is in: the call itself runs to the first [await]; then it is resumed,
    or another callback is handled while it waits or after it has settled. *)
Inductive reaches (sheetRows : list (list string)) (w0 : World)
    : Call SyncResult -> World -> Prop :=
| reach_call x w :
    syncFromSheetOptimised sheetRows w0 = (x, w) -> reaches sheetRows w0 x w
| reach_resume resume w x w' :
    reaches sheetRows w0 (Awaiting resume) w -> resume w = (x, w') ->
    reaches sheetRows w0 x w'
| reach_other x w e :
    reaches sheetRows w0 x w -> reaches sheetRows w0 x (handle clock guild e w).

End Engine.

End Async.

(** * Properties *)

(** ** Keyed collections *)

Module AssocFacts.
Import Assoc.

Section WithValue.
Context {V : Type}.
Implicit Types (m : list (string * V)) (k : string).

Lemma lookup_replace_eq k v m : lookup k (replace k v m) = Some v.
Proof.
  unfold replace. induction m as [|[k' v'] m IH]; simpl.
  - now rewrite String.eqb_refl.
  - destruct (String.eqb k' k) eqn:E; simpl; [exact IH|].
    now rewrite E.
Qed.

Lemma lookup_replace_neq k k' v m :
  k' <> k -> lookup k' (replace k v m) = lookup k' m.
Proof.
  intros Hne. unfold replace. induction m as [|[k0 v0] m IH]; simpl.
  - destruct (String.eqb_spec k k'); [congruence|reflexivity].
  - destruct (String.eqb_spec k0 k) as [->|Hk]; simpl.
    + destruct (String.eqb_spec k k'); [congruence|exact IH].
    + destruct (String.eqb k0 k'); [reflexivity|exact IH].
Qed.

Lemma lookup_update_eq k f m :
  lookup k (update k f m) = option_map f (lookup k m).
Proof.
  unfold update. induction m as [|[k0 v0] m IH]; simpl; [reflexivity|].
  destruct (String.eqb k0 k) eqn:E; simpl; rewrite E; [reflexivity|exact IH].
Qed.

Lemma lookup_update_neq k k' f m :
  k' <> k -> lookup k' (update k f m) = lookup k' m.
Proof.
  intros Hne. unfold update. induction m as [|[k0 v0] m IH]; simpl; [reflexivity|].
  destruct (String.eqb_spec k0 k) as [->|Hk]; simpl.
  - destruct (String.eqb_spec k k'); [congruence|exact IH].
  - destruct (String.eqb k0 k'); [reflexivity|exact IH].
Qed.

Lemma lookup_In k v m : lookup k m = Some v -> In (k, v) m.
Proof.
  induction m as [|[k0 v0] m IH]; simpl; [discriminate|].
  destruct (String.eqb_spec k0 k) as [->|Hk]; intros H.
  - injection H as ->. now left.
  - right. now apply IH.
Qed.

Lemma lookup_None_In k v m : lookup k m = None -> ~ In (k, v) m.
Proof.
  induction m as [|[k0 v0] m IH]; simpl; [tauto|].
  destruct (String.eqb_spec k0 k) as [->|Hk]; [discriminate|].
  intros H [Heq|Hin]; [congruence|now apply IH].
Qed.

Lemma In_lookup k v m :
  NoDup (List.map fst m) -> In (k, v) m -> lookup k m = Some v.
Proof.
  induction m as [|[k0 v0] m IH]; simpl; [tauto|].
  intros Hnd [Heq|Hin].
  - injection Heq as -> ->. now rewrite String.eqb_refl.
  - inversion Hnd as [|? ? Hnotin Hnd']; subst.
    destruct (String.eqb_spec k0 k) as [->|Hk]; [|now apply IH].
    exfalso. apply Hnotin. now apply (in_map fst) in Hin.
Qed.

Lemma Map_set_keys k v m x :
  In x (List.map fst (Map_set k v m)) <-> x = k \/ In x (List.map fst m).
Proof.
  induction m as [|[k0 v0] m IH]; simpl; [intuition congruence|].
  destruct (String.eqb_spec k0 k) as [->|Hk]; simpl; [intuition congruence|].
  rewrite IH. intuition congruence.
Qed.

Lemma Map_set_NoDup k v m :
  NoDup (List.map fst m) -> NoDup (List.map fst (Map_set k v m)).
Proof.
  induction m as [|[k0 v0] m IH]; simpl; intros Hnd.
  - constructor; [simpl; tauto|constructor].
  - inversion Hnd as [|? ? Hnotin Hnd']; subst.
    destruct (String.eqb_spec k0 k) as [->|Hk]; simpl.
    + now constructor.
    + constructor; [|now apply IH].
      rewrite Map_set_keys. intuition congruence.
Qed.

End WithValue.

End AssocFacts.

Import AssocFacts.

#[local] Arguments Assoc.replace : simpl never.
#[local] Arguments Assoc.update : simpl never.
#[local] Arguments Assoc.lookup : simpl never.
#[local] Arguments ONE_MONTH : simpl never.
#[local] Arguments LIFETIME_UNTIL : simpl never.
#[local] Arguments hasRole : simpl never.
#[local] Arguments truthy : simpl never.
#[local] Arguments orZero : simpl never.

Ltac inv_pair :=
  match goal with
  | H : (_, _) = (_, _) |- _ => injection H as <- <-
  | H : (_, _) = (_, _) |- _ => inversion H; subst; clear H
  end.

Ltac break_hyp :=
  match goal with
  | H : context [match ?x with _ => _ end] |- _ =>
      match type of H with
      | _ = (_, _) => destruct x eqn:?
      end
  end.

Ltac run_ops := repeat (cbn in *; first [inv_pair | break_hyp]); cbn in *.

Create Rewrite HintDb world.

Ltac unfold_ops :=
  unfold setVipLifetime, setVipToTrialRemainingOrRemove, removeVipIfHas,
  grantTrialOnJoin, ensureTrialRecordFor, statusQuery,
  getVipRole, fetchGuild, roles_add, roles_remove, roles_cache_has, catch_ignore,
  bind, dbGet, Date_now, dbReplace, dbUpdateTrial, ret, throw in *.

Section EngineFacts.
Variable clock : nat -> N.
Variable guild : Guild.

(** *** Role bookkeeping *)

Lemma hasRole_set_store k s w : hasRole k (set_store s w) = hasRole k w.
Proof. reflexivity. Qed.

Lemma hasRole_set_tick k n w : hasRole k (set_tick n w) = hasRole k w.
Proof. reflexivity. Qed.

Lemma hasRole_set_syncRunning k b w : hasRole k (set_syncRunning b w) = hasRole k w.
Proof. reflexivity. Qed.

Lemma hasRole_set_roleHolders k l w :
  hasRole k (set_roleHolders l w) = existsb (String.eqb k) l.
Proof. reflexivity. Qed.

Lemma existsb_add k x w :
  existsb (String.eqb k) (if hasRole x w then roleHolders w else x :: roleHolders w)
  = (String.eqb k x || hasRole k w)%bool.
Proof.
  destruct (hasRole x w) eqn:E; [|reflexivity].
  fold (hasRole k w).
  destruct (String.eqb_spec k x) as [->|]; [now rewrite E|reflexivity].
Qed.

Lemma existsb_filter k x w :
  existsb (String.eqb k) (filter (fun u => negb (String.eqb x u)) (roleHolders w))
  = (negb (String.eqb k x) && hasRole k w)%bool.
Proof.
  unfold hasRole. induction (roleHolders w) as [|u l IH]; cbn.
  - now rewrite andb_false_r.
  - destruct (String.eqb_spec x u) as [->|Hxu]; cbn.
    + rewrite IH. destruct (String.eqb k u); reflexivity.
    + rewrite IH. destruct (String.eqb_spec k u) as [->|Hku]; cbn.
      * destruct (String.eqb_spec u x); [congruence|reflexivity].
      * reflexivity.
Qed.

Hint Rewrite hasRole_set_store hasRole_set_tick hasRole_set_syncRunning
  hasRole_set_roleHolders existsb_add existsb_filter : world.

(** *** Trial lifecycle *)

Lemma ensureTrial_frame member w r w' :
  ensureTrialRecordFor clock member w = (r, w') ->
  exists e, r = Ok e /\
    roleHolders w' = roleHolders w /\ syncRunning w' = syncRunning w /\
    (forall k, k <> member_id member ->
       Assoc.lookup k (store w') = Assoc.lookup k (store w)).
Proof.
  unfold ensureTrialRecordFor, bind, dbGet, Date_now, dbReplace, dbUpdateTrial, ret.
  intros H. run_ops.
  all: eexists; split; [reflexivity|]; repeat split; auto; intros.
  all: try (now rewrite lookup_replace_neq); try (now rewrite lookup_update_neq).
Qed.

Lemma ensureTrial_existing member w r w' r0 :
  ensureTrialRecordFor clock member w = (r, w') ->
  Assoc.lookup (member_id member) (store w) = Some r0 ->
  truthy (trial_until r0) = true ->
  r = Ok (mkEntitlement (orZero (vip_until r0)) (orZero (trial_until r0))) /\
  store w' = store w.
Proof.
  unfold ensureTrialRecordFor, bind, dbGet, Date_now, dbReplace, dbUpdateTrial, ret.
  intros H Hl Ht. rewrite Hl, Ht in H. run_ops; auto.
Qed.

Lemma trial_ok_replace k v t st :
  trial_ok st -> t < LIFETIME_UNTIL ->
  trial_ok (Assoc.replace k (mkRow v (Some t)) st).
Proof.
  intros Hst Ht k' r Hl. destruct (String.eqb_spec k' k) as [->|Hne].
  - rewrite lookup_replace_eq in Hl. injection Hl as <-. exact Ht.
  - rewrite lookup_replace_neq in Hl by assumption. eauto.
Qed.

Lemma trial_ok_update k t st :
  trial_ok st -> t < LIFETIME_UNTIL ->
  trial_ok (Assoc.update k (fun r => mkRow (vip_until r) (Some t)) st).
Proof.
  intros Hst Ht k' r Hl. destruct (String.eqb_spec k' k) as [->|Hne].
  - rewrite lookup_update_eq in Hl. destruct (Assoc.lookup k st); [|discriminate].
    injection Hl as <-. exact Ht.
  - rewrite lookup_update_neq in Hl by assumption. eauto.
Qed.

Lemma ensureTrial_bound member w e w' :
  clock_ok clock w w' -> member_ok (info member) -> trial_ok (store w) ->
  ensureTrialRecordFor clock member w = (Ok e, w') ->
  e_trial_until e < LIFETIME_UNTIL /\ trial_ok (store w').
Proof.
  unfold ensureTrialRecordFor, bind, dbGet, Date_now, dbReplace, dbUpdateTrial, ret.
  intros Hc Hm Hst H. unfold member_ok in Hm. unfold clock_ok, readings in Hc.
  run_ops.
  all: repeat match goal with
         | H : Ok _ = Ok _ |- _ => injection H as <-
         end; cbn.
  all: try (split; [|first [apply trial_ok_replace | apply trial_ok_update | idtac]]);
    try assumption; eauto.
  all: try (apply Hc; lia).
  all: try match goal with
         | |- (if ?c then _ else _) < _ =>
             let E := fresh in destruct c eqn:E;
             [apply andb_prop in E; destruct E; lia | try lia]
         end.
  all: try (apply Hc; lia).
Qed.

(** *** Clock readings only accumulate *)

Lemma ensureTrial_tick member w r w' :
  ensureTrialRecordFor clock member w = (r, w') -> (tick w <= tick w')%nat.
Proof. intros H. unfold_ops. run_ops; lia. Qed.

Lemma setVipLifetime_tick member w r w' :
  setVipLifetime clock guild member w = (r, w') -> (tick w <= tick w')%nat.
Proof. intros H. unfold_ops. run_ops; lia. Qed.

Lemma setVipToTrial_tick member w r w' :
  setVipToTrialRemainingOrRemove clock guild member w = (r, w') ->
  (tick w <= tick w')%nat.
Proof. intros H. unfold_ops. run_ops; lia. Qed.

Lemma removeVipIfHas_tick member w r w' :
  removeVipIfHas guild member w = (r, w') -> tick w' = tick w.
Proof. intros H. unfold_ops. run_ops; reflexivity. Qed.

Lemma readings_mono (P : Z -> Prop) w w' a b :
  (tick w <= tick a)%nat -> (tick b <= tick w')%nat ->
  readings clock w w' P -> readings clock a b P.
Proof. intros Ha Hb H i Hi. apply H. lia. Qed.

(** *** Sequencing *)

Lemma bind_ok_inv {A B} (m : M A) (f : A -> M B) w b w' :
  bind m f w = (Ok b, w') ->
  exists a w1, m w = (Ok a, w1) /\ f a w1 = (Ok b, w').
Proof.
  unfold bind. destruct (m w) as [[a|e] w1]; [eauto|discriminate].
Qed.

Lemma bind_world {A B} (P : World -> World -> Prop) (m : M A) (f : A -> M B) w r w' :
  (forall x y z, P x y -> P y z -> P x z) ->
  (forall ra w1, m w = (ra, w1) -> P w w1) ->
  (forall a w1 rb w2, f a w1 = (rb, w2) -> P w1 w2) ->
  bind m f w = (r, w') -> P w w'.
Proof.
  intros Htrans Hm Hf. unfold bind. destruct (m w) as [[a|e] w1] eqn:E.
  - intros H. eapply Htrans; [eapply Hm; reflexivity|eapply Hf; exact H].
  - intros H. injection H as <- <-. eapply Hm; reflexivity.
Qed.

(** *** Role and record transitions *)

Lemma setVipLifetime_ok member w u w' :
  setVipLifetime clock guild member w = (Ok u, w') ->
  vipRole guild = true /\ rejectsAdd (info member) = false /\
  hasRole (member_id member) w' = true /\
  (exists t, Assoc.lookup (member_id member) (store w')
             = Some (mkRow (Some LIFETIME_UNTIL) (Some t))) /\
  syncRunning w' = syncRunning w.
Proof.
  intros H. unfold_ops. run_ops.
  all: autorewrite with world; rewrite ?lookup_replace_eq, ?String.eqb_refl.
  all: repeat split; eauto.
Qed.

Lemma setVipLifetime_frame member w r w' k :
  setVipLifetime clock guild member w = (r, w') ->
  k <> member_id member ->
  Assoc.lookup k (store w') = Assoc.lookup k (store w) /\
  hasRole k w' = hasRole k w.
Proof.
  intros H Hk. unfold_ops. run_ops.
  all: autorewrite with world;
    rewrite ?lookup_replace_neq, ?lookup_update_neq by assumption.
  all: try (destruct (String.eqb_spec k (member_id member)); [congruence|]).
  all: split; reflexivity.
Qed.

Lemma setVipLifetime_keeps_role member w r w' k :
  setVipLifetime clock guild member w = (r, w') ->
  hasRole k w = true -> hasRole k w' = true.
Proof.
  intros H Hk. unfold_ops. run_ops.
  all: autorewrite with world; rewrite ?Hk, ?orb_true_r; auto.
Qed.

Lemma setVipLifetime_trial_ok member w r w' :
  clock_ok clock w w' -> member_ok (info member) -> trial_ok (store w) ->
  setVipLifetime clock guild member w = (r, w') ->
  trial_ok (store w').
Proof.
  intros Hc Hm Hst H. unfold setVipLifetime in H.
  unfold bind at 1 in H. unfold getVipRole in H.
  destruct (vipRole guild); cbn in H; [|now injection H as <- <-].
  unfold bind at 1 in H. unfold roles_add in H.
  destruct (rejectsAdd (info member)); [now injection H as <- <-|].
  unfold bind at 1 in H.
  match type of H with
  | context [ensureTrialRecordFor clock member ?w0] =>
      destruct (ensureTrialRecordFor clock member w0) as [[e|err] w1] eqn:E
  end.
  2:{ apply ensureTrial_frame in E. destruct E as (e & He & _). discriminate. }
  pose proof (ensureTrial_tick _ _ _ _ E) as Ht1. cbn in Ht1.
  assert (Ht2 : (tick w1 <= tick w')%nat) by (unfold_ops; run_ops; lia).
  apply ensureTrial_bound in E; [|exact (readings_mono _ _ _ _ _ (le_n _) Ht2 Hc)
                                 |assumption|exact Hst].
  destruct E as [He Hst1]. unfold clock_ok, readings in Hc.
  unfold_ops. run_ops; apply trial_ok_replace; auto.
  all: apply Hc; lia.
Qed.

Lemma setVipToTrial_frame member w r w' k :
  setVipToTrialRemainingOrRemove clock guild member w = (r, w') ->
  k <> member_id member ->
  Assoc.lookup k (store w') = Assoc.lookup k (store w) /\
  hasRole k w' = hasRole k w.
Proof.
  intros H Hk. unfold_ops. run_ops.
  all: autorewrite with world;
    rewrite ?lookup_replace_neq, ?lookup_update_neq by assumption.
  all: try (destruct (String.eqb_spec k (member_id member)); [congruence|]).
  all: split; reflexivity.
Qed.

Lemma setVipToTrial_bound member w r w' :
  clock_ok clock w w' -> member_ok (info member) -> trial_ok (store w) ->
  setVipToTrialRemainingOrRemove clock guild member w = (r, w') ->
  trial_ok (store w') /\
  (forall x, r = Ok x -> storedVipUntil (member_id member) w' < LIFETIME_UNTIL).
Proof.
  intros Hc Hm Hst H. unfold setVipToTrialRemainingOrRemove in H.
  unfold bind at 1 in H. unfold getVipRole in H.
  destruct (vipRole guild); cbn in H;
    [|injection H as <- <-; split; [assumption|discriminate]].
  unfold bind at 1 in H.
  destruct (ensureTrialRecordFor clock member w) as [[e|err] w1] eqn:E.
  2:{ apply ensureTrial_frame in E. destruct E as (e & He & _). discriminate. }
  assert (Ht2 : (tick w1 <= tick w')%nat) by (clear E; unfold_ops; run_ops; lia).
  apply ensureTrial_bound in E;
    [|exact (readings_mono _ _ _ _ _ (le_n _) Ht2 Hc)|assumption|assumption].
  destruct E as [He Hst1]. clear Hc Ht2.
  unfold_ops. unfold storedVipUntil. run_ops.
  all: rewrite ?lookup_replace_eq; cbn.
  all: split;
    [first [assumption | apply trial_ok_replace; assumption]
    |intros; try discriminate; try assumption].
  all: reflexivity.
Qed.

Lemma setVipToTrial_grace member w x w' r0 t :
  setVipToTrialRemainingOrRemove clock guild member w = (Ok x, w') ->
  Assoc.lookup (member_id member) (store w) = Some r0 ->
  trial_until r0 = Some t ->
  readings clock w w' (fun now => now < t) ->
  hasRole (member_id member) w' = true /\
  Assoc.lookup (member_id member) (store w') = Some (mkRow (Some t) (Some t)).
Proof.
  intros H Hl Ht Hfuture.
  pose proof (setVipToTrial_tick _ _ _ _ H) as Htick.
  unfold setVipToTrialRemainingOrRemove in H.
  apply bind_ok_inv in H. destruct H as (u & w0 & Hrole & H).
  assert (w0 = w) as -> by (unfold_ops; run_ops; reflexivity).
  apply bind_ok_inv in H. destruct H as (e & w1 & He & H).
  pose proof (ensureTrial_tick _ _ _ _ He) as Ht1.
  assert (Ht2 : (S (tick w1) <= tick w')%nat) by (clear He; unfold_ops; run_ops; lia).
  assert (Hlt : Z.of_N (clock (tick w1)) < t) by (apply Hfuture; lia).
  assert (Htruthy : truthy (trial_until r0) = true).
  { rewrite Ht. unfold truthy. destruct (Z.eqb_spec t 0); [lia|reflexivity]. }
  destruct (ensureTrial_existing _ _ _ _ _ He Hl Htruthy) as [Hres Hstore].
  destruct (ensureTrial_frame _ _ _ _ He) as (e' & _ & Hroles & _).
  injection Hres as ->. clear He Hfuture Htick Ht1 Ht2.
  cbn in H. rewrite Ht in H. cbn in H.
  apply Z.ltb_lt in Hlt.
  change (orZero (Some t)) with t in H. rewrite Hlt in H.
  unfold_ops. run_ops.
  autorewrite with world. rewrite String.eqb_refl, lookup_replace_eq. auto.
Qed.

Lemma removeVipIfHas_store member w r w' :
  removeVipIfHas guild member w = (r, w') -> store w' = store w.
Proof. intros H. unfold_ops. run_ops; reflexivity. Qed.

Lemma removeVipIfHas_frame member w r w' k :
  removeVipIfHas guild member w = (r, w') ->
  k <> member_id member -> hasRole k w' = hasRole k w.
Proof.
  intros H Hk. unfold_ops. run_ops; autorewrite with world; try reflexivity.
  destruct (String.eqb_spec k (member_id member)); [congruence|reflexivity].
Qed.

Lemma removeVipIfHas_no_grant member w r w' k :
  removeVipIfHas guild member w = (r, w') ->
  hasRole k w = false -> hasRole k w' = false.
Proof.
  intros H Hk. unfold_ops. run_ops; autorewrite with world; try assumption.
  rewrite Hk. apply andb_false_r.
Qed.

Lemma removeVipIfHas_ok member w u w' :
  removeVipIfHas guild member w = (Ok u, w') ->
  rejectsRemove (info member) = false ->
  hasRole (member_id member) w' = false.
Proof.
  intros H Hrej. unfold_ops. rewrite Hrej in H. run_ops; autorewrite with world.
  - now rewrite String.eqb_refl.
  - assumption.
Qed.

(** *** The three loops of the pass *)

Lemma grantLoop_cons k a rest n w :
  grantLoop clock guild ((k, a) :: rest) n w =
  if a then
    match Assoc.lookup k (members guild) with
    | None => grantLoop clock guild rest n w
    | Some mi =>
        match setVipLifetime clock guild (mkMember k mi) w with
        | (Ok _, w1) => grantLoop clock guild rest (S n) w1
        | (Err e, w1) => (Err e, w1)
        end
    end
  else grantLoop clock guild rest n w.
Proof.
  destruct a; [|reflexivity].
  cbn [grantLoop negb]. unfold bind at 1, fetchMemberSafe, ret.
  destruct (Assoc.lookup k (members guild)); reflexivity.
Qed.

Lemma downgradeLoop_cons elig k rest n w :
  downgradeLoop clock guild elig (k :: rest) n w =
  match Assoc.lookup k elig with
  | Some true => downgradeLoop clock guild elig rest n w
  | _ =>
      match Assoc.lookup k (members guild) with
      | None => downgradeLoop clock guild elig rest n w
      | Some mi =>
          match setVipToTrialRemainingOrRemove clock guild (mkMember k mi) w with
          | (Ok _, w1) => downgradeLoop clock guild elig rest (S n) w1
          | (Err e, w1) => (Err e, w1)
          end
      end
  end.
Proof.
  cbn [downgradeLoop].
  destruct (Assoc.lookup k elig) as [[|]|]; [reflexivity| |].
  all: unfold bind at 1, fetchMemberSafe, ret.
  all: destruct (Assoc.lookup k (members guild)); reflexivity.
Qed.

Lemma expiryLoop_cons k r rest n w :
  expiryLoop clock guild ((k, r) :: rest) n w =
  if (orZero (vip_until r) =? 0) || (LIFETIME_UNTIL <=? orZero (vip_until r))
     || (Z.of_N (clock (tick w)) <? orZero (vip_until r))
  then expiryLoop clock guild rest n
         (if (orZero (vip_until r) =? 0) || (LIFETIME_UNTIL <=? orZero (vip_until r))
          then w else set_tick (S (tick w)) w)
  else
    match Assoc.lookup k (members guild) with
    | None => expiryLoop clock guild rest n (set_tick (S (tick w)) w)
    | Some mi =>
        match removeVipIfHas guild (mkMember k mi) (set_tick (S (tick w)) w) with
        | (Ok _, w1) => expiryLoop clock guild rest (S n) w1
        | (Err e, w1) => (Err e, w1)
        end
    end.
Proof.
  cbn [expiryLoop].
  destruct (orZero (vip_until r) =? 0); [reflexivity|].
  destruct (LIFETIME_UNTIL <=? orZero (vip_until r)); [reflexivity|].
  cbn [orb]. unfold bind at 1, Date_now.
  destruct (Z.of_N (clock (tick w)) <? orZero (vip_until r)); [reflexivity|].
  unfold bind at 1, fetchMemberSafe, ret.
  destruct (Assoc.lookup k (members guild)); reflexivity.
Qed.

End EngineFacts.

Section LoopFacts.
Variable clock : nat -> N.
Variable guild : Guild.

Lemma storedVipUntil_lookup k w w' :
  Assoc.lookup k (store w') = Assoc.lookup k (store w) ->
  storedVipUntil k w' = storedVipUntil k w.
Proof. unfold storedVipUntil. now intros ->. Qed.

(** **** Clock readings *)

Lemma grantLoop_tick entries : forall n w r w',
  grantLoop clock guild entries n w = (r, w') -> (tick w <= tick w')%nat.
Proof.
  induction entries as [|[k0 a] rest IH]; intros n w r w' H.
  - injection H as _ <-. lia.
  - rewrite grantLoop_cons in H.
    destruct a; [|eauto].
    destruct (Assoc.lookup k0 (members guild)) as [mi|]; [|eauto].
    destruct (setVipLifetime clock guild (mkMember k0 mi) w) as [[u|e] w1] eqn:Es;
      apply setVipLifetime_tick in Es.
    + apply IH in H. lia.
    + injection H as _ <-. exact Es.
Qed.

Lemma downgradeLoop_tick elig ids : forall n w r w',
  downgradeLoop clock guild elig ids n w = (r, w') -> (tick w <= tick w')%nat.
Proof.
  induction ids as [|k0 rest IH]; intros n w r w' H.
  - injection H as _ <-. lia.
  - rewrite downgradeLoop_cons in H.
    destruct (Assoc.lookup k0 elig) as [[|]|]; [eauto| |].
    all: destruct (Assoc.lookup k0 (members guild)) as [mi|]; [|eauto].
    all: destruct (setVipToTrialRemainingOrRemove clock guild (mkMember k0 mi) w)
      as [[u|e] w1] eqn:Es; apply setVipToTrial_tick in Es.
    all: try (injection H as _ <-; exact Es).
    all: apply IH in H; lia.
Qed.

Lemma expiryLoop_tick rows : forall n w r w',
  expiryLoop clock guild rows n w = (r, w') -> (tick w <= tick w')%nat.
Proof.
  induction rows as [|[k0 r0] rest IH]; intros n w r w' H.
  - injection H as _ <-. lia.
  - rewrite expiryLoop_cons in H.
    destruct ((orZero (vip_until r0) =? 0) || (LIFETIME_UNTIL <=? orZero (vip_until r0))
              || (Z.of_N (clock (tick w)) <? orZero (vip_until r0))).
    + apply IH in H.
      destruct ((orZero (vip_until r0) =? 0)
                || (LIFETIME_UNTIL <=? orZero (vip_until r0))); cbn in H; lia.
    + destruct (Assoc.lookup k0 (members guild)) as [mi|];
        [|apply IH in H; cbn in H; lia].
      destruct (removeVipIfHas guild (mkMember k0 mi) (set_tick (S (tick w)) w))
        as [[u|e] w1] eqn:Er; apply removeVipIfHas_tick in Er; cbn in Er.
      * apply IH in H. lia.
      * injection H as _ <-. lia.
Qed.

(** **** Grant phase *)

Lemma grantLoop_frame entries : forall n w r w' k,
  grantLoop clock guild entries n w = (r, w') ->
  ~ In (k, true) entries \/ Assoc.lookup k (members guild) = None ->
  Assoc.lookup k (store w') = Assoc.lookup k (store w) /\ hasRole k w' = hasRole k w.
Proof.
  induction entries as [|[k0 a] rest IH]; intros n w r w' k H Hk.
  - injection H as <- <-. auto.
  - rewrite grantLoop_cons in H.
    assert (Hrest : ~ In (k, true) rest \/ Assoc.lookup k (members guild) = None)
      by (cbn [In] in Hk; tauto).
    destruct a; [|eauto].
    destruct (Assoc.lookup k0 (members guild)) as [mi|] eqn:Em; [|eauto].
    assert (Hne : k <> k0).
    { intros ->. destruct Hk as [Hk|Hk]; [apply Hk; now left|congruence]. }
    destruct (setVipLifetime clock guild (mkMember k0 mi) w) as [[u|e] w1] eqn:Es.
    + destruct (setVipLifetime_frame _ _ _ _ _ _ k Es Hne) as [E1 E2].
      destruct (IH _ _ _ _ k H Hrest) as [E3 E4]. split; congruence.
    + injection H as <- <-. exact (setVipLifetime_frame _ _ _ _ _ _ k Es Hne).
Qed.

Lemma grantLoop_hit entries : forall n w n' w' k,
  grantLoop clock guild entries n w = (Ok n', w') ->
  (storedVipUntil k w = LIFETIME_UNTIL /\ hasRole k w = true) \/
  (In (k, true) entries /\ Assoc.lookup k (members guild) <> None) ->
  storedVipUntil k w' = LIFETIME_UNTIL /\ hasRole k w' = true.
Proof.
  induction entries as [|[k0 a] rest IH]; intros n w n' w' k H Hk.
  - injection H as <- <-. destruct Hk as [Hk|[[] _]]. exact Hk.
  - rewrite grantLoop_cons in H.
    destruct a.
    2:{ apply (IH _ _ _ _ k H). destruct Hk as [Hk|[[Hk|Hk] Hp]]; auto; discriminate. }
    destruct (Assoc.lookup k0 (members guild)) as [mi|] eqn:Em.
    2:{ apply (IH _ _ _ _ k H). destruct Hk as [Hk|[[Hk|Hk] Hp]]; auto.
        injection Hk as ->. congruence. }
    destruct (setVipLifetime clock guild (mkMember k0 mi) w) as [[u|e] w1] eqn:Es;
      [|discriminate].
    apply (IH _ _ _ _ k H).
    destruct (String.eqb_spec k k0) as [->|Hne].
    + left. destruct (setVipLifetime_ok _ _ _ _ _ _ Es) as (_ & _ & Hr & [t Ht] & _).
      cbn in Hr, Ht. split; [|exact Hr]. unfold storedVipUntil. now rewrite Ht.
    + destruct (setVipLifetime_frame _ _ _ _ _ _ k Es Hne) as [E1 E2].
      destruct Hk as [[Hv Hr]|[[Hk|Hk] Hp]]; [left|congruence|right; auto].
      rewrite (storedVipUntil_lookup _ _ _ E1), E2. auto.
Qed.

Lemma grantLoop_accepts entries : forall n w n' w' k mi,
  grantLoop clock guild entries n w = (Ok n', w') ->
  In (k, true) entries -> Assoc.lookup k (members guild) = Some mi ->
  vipRole guild = true /\ rejectsAdd mi = false.
Proof.
  induction entries as [|[k0 a] rest IH]; intros n w n' w' k mi H Hin Hp; [destruct Hin|].
  rewrite grantLoop_cons in H. destruct Hin as [Heq|Hin].
  - injection Heq as -> ->. rewrite Hp in H.
    destruct (setVipLifetime clock guild (mkMember k mi) w) as [[u|e] w1] eqn:Es;
      [|discriminate].
    destruct (setVipLifetime_ok _ _ _ _ _ _ Es) as (Hv & Hr & _). auto.
  - destruct a; [|eauto].
    destruct (Assoc.lookup k0 (members guild)) as [mi0|]; [|eauto].
    destruct (setVipLifetime clock guild (mkMember k0 mi0) w) as [[u|e] w1];
      [eauto|discriminate].
Qed.

Lemma grantLoop_trial_ok entries : forall n w r w',
  clock_ok clock w w' -> members_ok guild -> trial_ok (store w) ->
  grantLoop clock guild entries n w = (r, w') ->
  trial_ok (store w').
Proof.
  induction entries as [|[k0 a] rest IH]; intros n w r w' Hc Hm Hst H.
  - now injection H as <- <-.
  - rewrite grantLoop_cons in H.
    destruct a; [|eauto].
    destruct (Assoc.lookup k0 (members guild)) as [mi|] eqn:Em; [|eauto].
    destruct (setVipLifetime clock guild (mkMember k0 mi) w) as [[u|e] w1] eqn:Es.
    + pose proof (setVipLifetime_tick _ _ _ _ _ _ Es) as T1.
      pose proof (grantLoop_tick _ _ _ _ _ H) as T2.
      apply setVipLifetime_trial_ok in Es;
        [|exact (readings_mono _ _ _ _ _ _ (le_n _) T2 Hc)|exact (Hm _ _ Em)|exact Hst].
      apply (IH _ _ _ _ (readings_mono _ _ _ _ _ _ T1 (le_n _) Hc) Hm Es H).
    + injection H as <- <-. apply setVipLifetime_trial_ok in Es; eauto.
Qed.

(** **** Downgrade phase *)

Lemma downgradeLoop_frame elig ids : forall n w r w' k,
  downgradeLoop clock guild elig ids n w = (r, w') ->
  ~ In k ids \/ approved elig k \/ Assoc.lookup k (members guild) = None ->
  Assoc.lookup k (store w') = Assoc.lookup k (store w) /\ hasRole k w' = hasRole k w.
Proof.
  unfold approved.
  induction ids as [|k0 rest IH]; intros n w r w' k H Hk.
  - injection H as <- <-. auto.
  - rewrite downgradeLoop_cons in H.
    assert (Hrest : ~ In k rest \/ Assoc.lookup k elig = Some true
                    \/ Assoc.lookup k (members guild) = None)
      by (cbn [In] in Hk; tauto).
    destruct (Assoc.lookup k0 elig) as [[|]|] eqn:Ea; [eauto| |].
    all: destruct (Assoc.lookup k0 (members guild)) as [mi|] eqn:Em; [|eauto].
    all: assert (Hne : k <> k0)
      by (intros ->; cbn [In] in Hk; destruct Hk as [Hk|[Hk|Hk]];
          [tauto|congruence|congruence]).
    all: destruct (setVipToTrialRemainingOrRemove clock guild (mkMember k0 mi) w)
      as [[u|e] w1] eqn:Es.
    all: pose proof (setVipToTrial_frame _ _ _ _ _ _ k Es Hne) as [E1 E2].
    all: try (destruct (IH _ _ _ _ k H Hrest) as [E3 E4]; split; congruence).
    all: injection H as <- <-; auto.
Qed.

Lemma downgradeLoop_trial_ok elig ids : forall n w r w',
  clock_ok clock w w' -> members_ok guild -> trial_ok (store w) ->
  downgradeLoop clock guild elig ids n w = (r, w') ->
  trial_ok (store w').
Proof.
  induction ids as [|k0 rest IH]; intros n w r w' Hc Hm Hst H.
  - now injection H as <- <-.
  - rewrite downgradeLoop_cons in H.
    destruct (Assoc.lookup k0 elig) as [[|]|] eqn:Ea; [eauto| |].
    all: destruct (Assoc.lookup k0 (members guild)) as [mi|] eqn:Em; [|eauto].
    all: destruct (setVipToTrialRemainingOrRemove clock guild (mkMember k0 mi) w)
      as [[u|e] w1] eqn:Es.
    all: try (injection H as <- <-;
              exact (proj1 (setVipToTrial_bound _ _ (mkMember k0 mi) _ _ _
                              Hc (Hm _ _ Em) Hst Es))).
    all: pose proof (setVipToTrial_tick _ _ _ _ _ _ Es) as T1.
    all: pose proof (downgradeLoop_tick _ _ _ _ _ _ H) as T2.
    all: apply (setVipToTrial_bound _ _ (mkMember k0 mi)) in Es;
      [|exact (readings_mono _ _ _ _ _ _ (le_n _) T2 Hc)|exact (Hm _ _ Em)|exact Hst].
    all: destruct Es as [Hst1 _].
    all: apply (IH _ _ _ _ (readings_mono _ _ _ _ _ _ T1 (le_n _) Hc) Hm Hst1 H).
Qed.

Lemma downgradeLoop_below elig ids : forall n w n' w' k,
  clock_ok clock w w' -> members_ok guild -> trial_ok (store w) ->
  downgradeLoop clock guild elig ids n w = (Ok n', w') ->
  storedVipUntil k w < LIFETIME_UNTIL \/
  (In k ids /\ ~ approved elig k /\ Assoc.lookup k (members guild) <> None) ->
  storedVipUntil k w' < LIFETIME_UNTIL.
Proof.
  unfold approved.
  induction ids as [|k0 rest IH]; intros n w n' w' k Hc Hm Hst H Hk.
  - injection H as <- <-. destruct Hk as [Hk|[[] _]]. exact Hk.
  - rewrite downgradeLoop_cons in H.
    assert (Hskip : k0 = k ->
              Assoc.lookup k0 elig = Some true \/ Assoc.lookup k0 (members guild) = None ->
              storedVipUntil k w < LIFETIME_UNTIL \/
              (In k rest /\ Assoc.lookup k elig <> Some true
               /\ Assoc.lookup k (members guild) <> None)).
    { intros -> Hs. destruct Hk as [Hk|(Hin & Ha & Hp)]; [now left|].
      destruct Hs; contradiction. }
    assert (Hother : k0 <> k ->
              storedVipUntil k w < LIFETIME_UNTIL \/
              (In k rest /\ Assoc.lookup k elig <> Some true
               /\ Assoc.lookup k (members guild) <> None)).
    { intros Hne. destruct Hk as [Hk|([Hin|Hin] & Ha & Hp)]; [now left|contradiction|].
      right; auto. }
    assert (Hstep : forall mi u w1,
              setVipToTrialRemainingOrRemove clock guild (mkMember k0 mi) w = (Ok u, w1) ->
              Assoc.lookup k0 (members guild) = Some mi ->
              downgradeLoop clock guild elig rest (S n) w1 = (Ok n', w') ->
              storedVipUntil k w' < LIFETIME_UNTIL).
    { intros mi u w1 Es Em H1.
      pose proof (setVipToTrial_tick _ _ _ _ _ _ Es) as T1.
      pose proof (downgradeLoop_tick _ _ _ _ _ _ H1) as T2.
      pose proof (setVipToTrial_bound _ _ (mkMember k0 mi) _ _ _
                    (readings_mono _ _ _ _ _ _ (le_n _) T2 Hc) (Hm _ _ Em) Hst Es)
        as [Hst1 Hb].
      apply (IH _ _ _ _ k (readings_mono _ _ _ _ _ _ T1 (le_n _) Hc) Hm Hst1 H1).
      destruct (String.eqb_spec k0 k) as [->|Hne].
      - left. exact (Hb u eq_refl).
      - assert (Hne' : k <> k0) by congruence.
        destruct (setVipToTrial_frame _ _ _ _ _ _ k Es Hne') as [E1 _].
        rewrite (storedVipUntil_lookup _ _ _ E1). auto. }
    destruct (Assoc.lookup k0 elig) as [[|]|] eqn:Ea.
    + apply (IH _ _ _ _ k Hc Hm Hst H).
      destruct (String.eqb_spec k0 k) as [Heq|Hne]; [apply Hskip; auto|auto].
    + destruct (Assoc.lookup k0 (members guild)) as [mi|] eqn:Em.
      * destruct (setVipToTrialRemainingOrRemove clock guild (mkMember k0 mi) w)
          as [[u|e] w1] eqn:Es; [eauto|discriminate].
      * apply (IH _ _ _ _ k Hc Hm Hst H).
        destruct (String.eqb_spec k0 k) as [Heq|Hne]; [apply Hskip; auto|auto].
    + destruct (Assoc.lookup k0 (members guild)) as [mi|] eqn:Em.
      * destruct (setVipToTrialRemainingOrRemove clock guild (mkMember k0 mi) w)
          as [[u|e] w1] eqn:Es; [eauto|discriminate].
      * apply (IH _ _ _ _ k Hc Hm Hst H).
        destruct (String.eqb_spec k0 k) as [Heq|Hne]; [apply Hskip; auto|auto].
Qed.

Lemma downgradeLoop_grace elig ids t : forall n w n' w' k,
  readings clock w w' (fun now => now < t) ->
  downgradeLoop clock guild elig ids n w = (Ok n', w') ->
  (hasRole k w = true /\
   Assoc.lookup k (store w) = Some (mkRow (Some t) (Some t))) \/
  ((exists r0, Assoc.lookup k (store w) = Some r0 /\ trial_until r0 = Some t) /\
   In k ids /\ ~ approved elig k /\ Assoc.lookup k (members guild) <> None) ->
  hasRole k w' = true /\
  Assoc.lookup k (store w') = Some (mkRow (Some t) (Some t)).
Proof.
  unfold approved.
  induction ids as [|k0 rest IH]; intros n w n' w' k Hfut H Hk.
  - injection H as <- <-. destruct Hk as [Hk|(_ & [] & _)]. exact Hk.
  - rewrite downgradeLoop_cons in H.
    assert (Hskip :
              Assoc.lookup k0 elig = Some true \/ Assoc.lookup k0 (members guild) = None ->
              downgradeLoop clock guild elig rest n w = (Ok n', w') ->
              hasRole k w' = true /\
              Assoc.lookup k (store w') = Some (mkRow (Some t) (Some t))).
    { intros Hs H1. apply (IH _ _ _ _ k Hfut H1).
      destruct Hk as [Hk|(Hr & [Hin|Hin] & Ha & Hp)]; [now left| |right; auto].
      subst k0. destruct Hs; contradiction. }
    assert (Hstep : forall mi u w1,
              setVipToTrialRemainingOrRemove clock guild (mkMember k0 mi) w = (Ok u, w1) ->
              downgradeLoop clock guild elig rest (S n) w1 = (Ok n', w') ->
              hasRole k w' = true /\
              Assoc.lookup k (store w') = Some (mkRow (Some t) (Some t))).
    { intros mi u w1 Es H1.
      pose proof (setVipToTrial_tick _ _ _ _ _ _ Es) as T1.
      pose proof (downgradeLoop_tick _ _ _ _ _ _ H1) as T2.
      apply (IH _ _ _ _ k (readings_mono _ _ _ _ _ _ T1 (le_n _) Hfut) H1).
      destruct (String.eqb_spec k k0) as [->|Hne].
      - left.
        assert (Hrec : exists r0, Assoc.lookup k0 (store w) = Some r0
                                  /\ trial_until r0 = Some t).
        { destruct Hk as [[_ Hk]|(Hr & _)]; [eauto|exact Hr]. }
        destruct Hrec as (r0 & Hl & Ht).
        exact (setVipToTrial_grace _ _ (mkMember k0 mi) _ _ _ _ _ Es Hl Ht
                 (readings_mono _ _ _ _ _ _ (le_n _) T2 Hfut)).
      - destruct (setVipToTrial_frame _ _ _ _ _ _ k Es Hne) as [E1 E2].
        rewrite E1, E2.
        destruct Hk as [Hk|(Hr & [Hin|Hin] & Ha & Hp)];
          [now left|congruence|right; auto]. }
    destruct (Assoc.lookup k0 elig) as [[|]|] eqn:Ea; [auto| |].
    all: destruct (Assoc.lookup k0 (members guild)) as [mi|] eqn:Em; [|auto].
    all: destruct (setVipToTrialRemainingOrRemove clock guild (mkMember k0 mi) w)
      as [[u|e] w1] eqn:Es; [eauto|discriminate].
Qed.

Lemma downgradeLoop_idle elig ids : forall n w,
  (forall k, In k ids -> approved elig k \/ Assoc.lookup k (members guild) = None) ->
  downgradeLoop clock guild elig ids n w = (Ok n, w).
Proof.
  unfold approved.
  induction ids as [|k0 rest IH]; intros n w Hall; [reflexivity|].
  rewrite downgradeLoop_cons.
  assert (Hrest : forall k, In k rest ->
            Assoc.lookup k elig = Some true \/ Assoc.lookup k (members guild) = None)
    by (intros k Hin; apply Hall; now right).
  destruct (Hall k0 (or_introl eq_refl)) as [-> | Hm]; [auto|].
  rewrite Hm. destruct (Assoc.lookup k0 elig) as [[|]|]; auto.
Qed.

(** **** Expiry phase *)

Lemma expiryLoop_store rows : forall n w r w',
  expiryLoop clock guild rows n w = (r, w') -> store w' = store w.
Proof.
  induction rows as [|[k0 r0] rest IH]; intros n w r w' H.
  - now injection H as <- <-.
  - rewrite expiryLoop_cons in H.
    destruct ((orZero (vip_until r0) =? 0) || (LIFETIME_UNTIL <=? orZero (vip_until r0))
              || (Z.of_N (clock (tick w)) <? orZero (vip_until r0))).
    + apply IH in H. rewrite H.
      destruct ((orZero (vip_until r0) =? 0)
                || (LIFETIME_UNTIL <=? orZero (vip_until r0))); reflexivity.
    + destruct (Assoc.lookup k0 (members guild)) as [mi|]; [|now apply IH in H].
      destruct (removeVipIfHas guild (mkMember k0 mi) (set_tick (S (tick w)) w))
        as [[u|e] w1] eqn:Er; apply removeVipIfHas_store in Er; cbn in Er.
      * apply IH in H. congruence.
      * injection H as <- <-. exact Er.
Qed.

Lemma hasRole_skip k (b : bool) w :
  hasRole k (if b then w else set_tick (S (tick w)) w) = hasRole k w.
Proof. now destruct b. Qed.

Lemma expiryLoop_no_grant rows : forall n w r w' k,
  expiryLoop clock guild rows n w = (r, w') ->
  hasRole k w = false -> hasRole k w' = false.
Proof.
  induction rows as [|[k0 r0] rest IH]; intros n w r w' k H Hk.
  - now injection H as <- <-.
  - rewrite expiryLoop_cons in H.
    destruct ((orZero (vip_until r0) =? 0) || (LIFETIME_UNTIL <=? orZero (vip_until r0))
              || (Z.of_N (clock (tick w)) <? orZero (vip_until r0))).
    + apply (IH _ _ _ _ k H). now rewrite hasRole_skip.
    + destruct (Assoc.lookup k0 (members guild)) as [mi|]; [|exact (IH _ _ _ _ k H Hk)].
      destruct (removeVipIfHas guild (mkMember k0 mi) (set_tick (S (tick w)) w))
        as [[u|e] w1] eqn:Er;
        apply (removeVipIfHas_no_grant _ _ _ _ _ k) in Er; try exact Hk.
      * exact (IH _ _ _ _ k H Er).
      * now injection H as <- <-.
Qed.

Lemma expiryLoop_frame rows : forall n w r w' k,
  expiryLoop clock guild rows n w = (r, w') ->
  (forall r0, In (k, r0) rows ->
     orZero (vip_until r0) = 0 \/ LIFETIME_UNTIL <= orZero (vip_until r0)) ->
  hasRole k w' = hasRole k w.
Proof.
  induction rows as [|[k0 r0] rest IH]; intros n w r w' k H Hk.
  - now injection H as <- <-.
  - rewrite expiryLoop_cons in H.
    assert (Hrest : forall r1, In (k, r1) rest ->
              orZero (vip_until r1) = 0 \/ LIFETIME_UNTIL <= orZero (vip_until r1))
      by (intros r1 Hin; apply Hk; now right).
    destruct ((orZero (vip_until r0) =? 0) || (LIFETIME_UNTIL <=? orZero (vip_until r0)))
      eqn:Eskip; cbn [orb] in H.
    + exact (IH _ _ _ _ k H Hrest).
    + assert (Hne : k <> k0).
      { intros ->. destruct (Hk r0 (or_introl eq_refl)) as [Hz|Hl].
        - apply Z.eqb_eq in Hz. rewrite Hz in Eskip. discriminate.
        - apply Z.leb_le in Hl. rewrite Hl, orb_true_r in Eskip. discriminate. }
      destruct (Z.of_N (clock (tick w)) <? orZero (vip_until r0)).
      * exact (IH _ _ _ _ k H Hrest).
      * destruct (Assoc.lookup k0 (members guild)) as [mi|];
          [|exact (IH _ _ _ _ k H Hrest)].
        destruct (removeVipIfHas guild (mkMember k0 mi) (set_tick (S (tick w)) w))
          as [[u|e] w1] eqn:Er;
          apply (removeVipIfHas_frame _ _ _ _ _ k) in Er; try exact Hne.
        -- rewrite (IH _ _ _ _ k H Hrest). exact Er.
        -- injection H as <- <-. exact Er.
Qed.

Lemma expiryLoop_hit rows v : forall n w n' w' k mi,
  v <> 0 -> v < LIFETIME_UNTIL -> readings clock w w' (fun now => v <= now) ->
  Assoc.lookup k (members guild) = Some mi -> rejectsRemove mi = false ->
  expiryLoop clock guild rows n w = (Ok n', w') ->
  hasRole k w = false \/ (exists r0, In (k, r0) rows /\ orZero (vip_until r0) = v) ->
  hasRole k w' = false.
Proof.
  induction rows as [|[k0 r0] rest IH];
    intros n w n' w' k mi Hv0 Hvl Hpast Hp Hrej H Hk.
  - injection H as <- <-. destruct Hk as [Hk|(r0 & [] & _)]. exact Hk.
  - rewrite expiryLoop_cons in H.
    destruct ((orZero (vip_until r0) =? 0) || (LIFETIME_UNTIL <=? orZero (vip_until r0)))
      eqn:Eskip; cbn [orb] in H.
    { apply (IH _ _ _ _ k mi Hv0 Hvl Hpast Hp Hrej H).
      destruct Hk as [Hk|(r1 & [Heq|Hin] & Hr1)]; [now left| |right; eauto].
      injection Heq as -> ->. exfalso.
      apply orb_prop in Eskip. destruct Eskip as [Eskip|Eskip].
      - apply Z.eqb_eq in Eskip. lia.
      - apply Z.leb_le in Eskip. lia. }
    assert (Hrest : forall w1, tick w1 = S (tick w) ->
              readings clock w1 w' (fun now => v <= now))
      by (intros w1 E1; apply (readings_mono clock _ w w' w1 w'); [lia|lia|exact Hpast]).
    destruct (Z.of_N (clock (tick w)) <? orZero (vip_until r0)) eqn:Enow.
    { pose proof (expiryLoop_tick _ _ _ _ _ H) as T. cbn in T.
      apply (IH _ _ _ _ k mi Hv0 Hvl (Hrest (set_tick (S (tick w)) w) eq_refl) Hp Hrej H).
      change (hasRole k (set_tick (S (tick w)) w)) with (hasRole k w).
      destruct Hk as [Hk|(r1 & [Heq|Hin] & Hr1)]; [now left| |right; eauto].
      injection Heq as -> ->. exfalso.
      apply Z.ltb_lt in Enow. assert (v <= Z.of_N (clock (tick w))) by (apply Hpast; lia).
      lia. }
    destruct (Assoc.lookup k0 (members guild)) as [mi0|] eqn:Em.
    + destruct (removeVipIfHas guild (mkMember k0 mi0) (set_tick (S (tick w)) w))
        as [[u|e] w1] eqn:Er; [|discriminate].
      pose proof (removeVipIfHas_tick _ _ _ _ _ Er) as T1. cbn in T1.
      apply (IH _ _ _ _ k mi Hv0 Hvl (Hrest w1 T1) Hp Hrej H).
      destruct (String.eqb_spec k k0) as [->|Hne].
      * left. rewrite Hp in Em. injection Em as <-.
        exact (removeVipIfHas_ok _ _ _ _ _ Er Hrej).
      * rewrite (removeVipIfHas_frame _ _ _ _ _ k Er Hne).
        destruct Hk as [Hk|(r1 & [Heq|Hin] & Hr1)];
          [now left|congruence|right; eauto].
    + apply (IH _ _ _ _ k mi Hv0 Hvl (Hrest (set_tick (S (tick w)) w) eq_refl) Hp Hrej H).
      destruct Hk as [Hk|(r1 & [Heq|Hin] & Hr1)];
        [now left|congruence|right; eauto].
Qed.

End LoopFacts.

(** ** Snapshot sets and the eligibility map *)

Lemma existsb_eqb_In x l : existsb (String.eqb x) l = true <-> In x l.
Proof.
  rewrite existsb_exists. split.
  - intros (y & Hin & E). apply String.eqb_eq in E. now subst.
  - intros Hin. exists x. split; [assumption|apply String.eqb_refl].
Qed.

Lemma Set_of_In l : forall acc x, In x (Set_of l acc) <-> In x l \/ In x acc.
Proof.
  induction l as [|y l IH]; intros acc x; cbn [Set_of In]; [tauto|].
  rewrite IH. destruct (existsb (String.eqb y) acc) eqn:E.
  - apply existsb_eqb_In in E. split; [tauto|].
    intros [[->|H]|H]; auto.
  - rewrite in_app_iff. cbn [In]. tauto.
Qed.

Lemma lifetimeInDb_of_lookup k r st :
  Assoc.lookup k st = Some r -> LIFETIME_UNTIL <= orZero (vip_until r) ->
  In k (lifetimeInDb_of st).
Proof.
  intros Hl Hv. unfold lifetimeInDb_of. apply Set_of_In. left.
  apply in_map_iff. exists (k, r). split; [reflexivity|].
  apply filter_In. split; [now apply lookup_In|].
  now apply Z.leb_le.
Qed.

Lemma lifetimeInDb_of_In k st :
  In k (lifetimeInDb_of st) ->
  exists r, In (k, r) st /\ LIFETIME_UNTIL <= orZero (vip_until r).
Proof.
  unfold lifetimeInDb_of. rewrite Set_of_In. intros [H|[]].
  apply in_map_iff in H. destruct H as ([k' r] & Hk & Hin). cbn in Hk. subst k'.
  apply filter_In in Hin. destruct Hin as [Hin Hv]. cbn in Hv.
  exists r. split; [assumption|now apply Z.leb_le].
Qed.

Lemma not_lifetimeInDb_below k w :
  ~ In k (lifetimeInDb_of (store w)) -> storedVipUntil k w < LIFETIME_UNTIL.
Proof.
  intros Hnot. unfold storedVipUntil.
  destruct (Assoc.lookup k (store w)) as [r|] eqn:E; [|reflexivity].
  destruct (Z.lt_ge_cases (orZero (vip_until r)) LIFETIME_UNTIL); [assumption|].
  exfalso. apply Hnot. eapply lifetimeInDb_of_lookup; eauto.
Qed.

Lemma eligibilityRows_NoDup rows d l : forall m,
  NoDup (List.map fst m) -> NoDup (List.map fst (eligibilityRows rows d l m)).
Proof.
  induction rows as [|row rest IH]; intros m Hm; cbn [eligibilityRows]; [assumption|].
  destruct (JsString.falsy _); [auto|].
  apply IH. now apply Map_set_NoDup.
Qed.

Lemma getEligibilityMap_NoDup rows elig :
  getEligibilityMap rows = Ok elig -> NoDup (List.map fst elig).
Proof.
  unfold getEligibilityMap.
  destruct (List.length rows <? 2)%nat; [intros H; injection H as <-; constructor|].
  destruct (_ =? -1); [discriminate|].
  destruct (_ =? -1); [discriminate|].
  intros H. injection H as <-. apply eligibilityRows_NoDup. constructor.
Qed.

Lemma approved_In elig k :
  NoDup (List.map fst elig) -> (In (k, true) elig <-> approved elig k).
Proof.
  intros Hnd. split; [now apply In_lookup|apply lookup_In].
Qed.

Section PassFacts.
Variable clock : nat -> N.
Variable guild : Guild.

Lemma sync_done_inv rows w s w' :
  syncFromSheetOptimised clock guild rows w = (Ok (Done s), w') ->
  exists elig n1 w1 n2 w2 n3 w3,
    syncRunning w = false /\ guildOk guild = true /\
    getEligibilityMap rows = Ok elig /\
    grantLoop clock guild elig 0 (passStart w) = (Ok n1, w1) /\
    downgradeLoop clock guild elig (lifetimeInDb_of (store w)) 0 w1 = (Ok n2, w2) /\
    expiryLoop clock guild (store w) 0 w2 = (Ok n3, w3) /\
    lifetimeEnsured s = n1 /\ lifetimeDowngraded s = n2 /\ expiredRemoved s = n3 /\
    totalSheet s = List.length elig /\
    store w' = store w3 /\ roleHolders w' = roleHolders w3 /\ syncRunning w' = false /\
    tick w' = S (tick w3).
Proof.
  unfold syncFromSheetOptimised.
  destruct (syncRunning w) eqn:Erun; [discriminate|].
  intros H. apply bind_ok_inv in H. destruct H as (started & w0 & Hnow & H).
  unfold Date_now in Hnow. injection Hnow as <- <-. fold (passStart w) in H.
  unfold try_finally in H.
  destruct (syncPass clock guild rows _ (passStart w)) as [r w4] eqn:E.
  injection H as -> <-. unfold syncPass in E.
  apply bind_ok_inv in E. destruct E as (u & wa & Hguild & E).
  unfold fetchGuild in Hguild.
  destruct (guildOk guild); [|discriminate]. injection Hguild as _ <-.
  apply bind_ok_inv in E. destruct E as (elig & wb & Helig & E).
  unfold lift in Helig. injection Helig as Helig <-.
  apply bind_ok_inv in E. destruct E as (dbRows & wc & Hall & E).
  unfold dbAll in Hall. injection Hall as <- <-.
  change (store (passStart w)) with (store w) in E.
  apply bind_ok_inv in E. destruct E as (n1 & w1 & Hg & E).
  apply bind_ok_inv in E. destruct E as (n2 & w2 & Hd & E).
  apply bind_ok_inv in E. destruct E as (n3 & w3 & He & E).
  cbn in E. injection E as <- <-.
  exists elig, n1, w1, n2, w2, n3, w3. cbn. repeat split; assumption.
Qed.

Lemma hasRole_roleHolders k w w' :
  roleHolders w' = roleHolders w -> hasRole k w' = hasRole k w.
Proof. unfold hasRole. now intros ->. Qed.

Lemma storedVipUntil_store k w w' :
  store w' = store w -> storedVipUntil k w' = storedVipUntil k w.
Proof. unfold storedVipUntil. now intros ->. Qed.

(** After a completed pass, a member found on the platform holds a stored
    lifetime entitlement exactly when the roster approves them. *)
Lemma sync_ticks elig n1 w w1 n2 w2 n3 w3 w' :
  grantLoop clock guild elig 0 (passStart w) = (Ok n1, w1) ->
  downgradeLoop clock guild elig (lifetimeInDb_of (store w)) 0 w1 = (Ok n2, w2) ->
  expiryLoop clock guild (store w) 0 w2 = (Ok n3, w3) ->
  tick w' = S (tick w3) ->
  (S (tick w) <= tick w1 /\ tick w1 <= tick w2 /\ tick w2 <= tick w3
   /\ tick w3 < tick w')%nat.
Proof.
  intros Hg Hd He Ht.
  apply grantLoop_tick in Hg. apply downgradeLoop_tick in Hd.
  apply expiryLoop_tick in He. cbn in Hg. lia.
Qed.

Lemma sync_lifetime_iff rows w s w' elig k mi :
  clock_ok clock w w' -> members_ok guild -> trial_ok (store w) ->
  syncFromSheetOptimised clock guild rows w = (Ok (Done s), w') ->
  getEligibilityMap rows = Ok elig ->
  Assoc.lookup k (members guild) = Some mi ->
  (LIFETIME_UNTIL <= storedVipUntil k w' <-> approved elig k).
Proof.
  intros Hc Hm Hst Hsync Helig Hp.
  destruct (sync_done_inv _ _ _ _ Hsync)
    as (elig' & n1 & w1 & n2 & w2 & n3 & w3 & _ & _ & Helig' & Hg & Hd & He
        & _ & _ & _ & _ & Hs' & _ & _ & Ht').
  rewrite Helig in Helig'. injection Helig' as <-.
  destruct (sync_ticks _ _ _ _ _ _ _ _ _ Hg Hd He Ht') as (T1 & T2 & T3 & T4).
  assert (Hc1 : clock_ok clock (passStart w) w1)
    by (apply (readings_mono clock _ w w'); [cbn; lia|lia|exact Hc]).
  assert (Hc2 : clock_ok clock w1 w2)
    by (apply (readings_mono clock _ w w'); [lia|lia|exact Hc]).
  pose proof (getEligibilityMap_NoDup _ _ Helig) as Hnd.
  rewrite (storedVipUntil_store k _ _ Hs').
  rewrite (storedVipUntil_store k _ _ (expiryLoop_store _ _ _ _ _ _ _ He)).
  assert (Hpres : Assoc.lookup k (members guild) <> None) by congruence.
  split.
  - intros Hlife.
    destruct (Assoc.lookup k elig) as [[|]|] eqn:Ea; [exact Ea| |]; exfalso.
    all: assert (Hna : ~ approved elig k) by (unfold approved; congruence).
    all: assert (Hst1 : trial_ok (store w1))
      by (eapply grantLoop_trial_ok; [exact Hc1|exact Hm| |exact Hg]; exact Hst).
    all: assert (Hlt : storedVipUntil k w2 < LIFETIME_UNTIL).
    all: try lia.
    all: apply (downgradeLoop_below _ _ _ _ _ _ _ _ k Hc2 Hm Hst1 Hd).
    all: destruct (in_dec string_dec k (lifetimeInDb_of (store w))) as [Hin|Hnin];
      [right; auto|left].
    all: assert (Hframe : ~ In (k, true) elig \/ Assoc.lookup k (members guild) = None)
      by (left; now rewrite approved_In).
    all: destruct (grantLoop_frame _ _ _ _ _ _ _ k Hg Hframe) as [E1 _].
    all: rewrite (storedVipUntil_lookup _ _ _ E1).
    all: exact (not_lifetimeInDb_below _ _ Hnin).
  - intros Ha.
    assert (Hin : In (k, true) elig) by now apply approved_In.
    destruct (grantLoop_hit _ _ _ _ _ _ _ k Hg (or_intror (conj Hin Hpres))) as [Hv _].
    destruct (downgradeLoop_frame _ _ _ _ _ _ _ _ k Hd (or_intror (or_introl Ha)))
      as [E2 _].
    rewrite (storedVipUntil_lookup _ _ _ E2), Hv. lia.
Qed.

End PassFacts.

Lemma replace_keys_ok k (r : Row) st : keys_ok st -> keys_ok (Assoc.replace k r st).
Proof.
  unfold keys_ok, Assoc.replace. intros Hnd. rewrite map_app. cbn [List.map fst].
  assert (Hf : forall m : Store,
             List.map fst (filter (fun e => negb (String.eqb (fst e) k)) m)
             = filter (fun x => negb (String.eqb x k)) (List.map fst m)).
  { induction m as [|[k0 v0] m IH]; cbn; [reflexivity|].
    destruct (String.eqb k0 k); cbn; now rewrite IH. }
  rewrite Hf. apply NoDup_app.
  - now apply NoDup_filter.
  - repeat constructor. cbn. tauto.
  - intros x Hin [<-|[]]. apply filter_In in Hin. destruct Hin as [_ Hx].
    now rewrite String.eqb_refl in Hx.
Qed.

Lemma update_keys_ok k (f : Row -> Row) st : keys_ok st -> keys_ok (Assoc.update k f st).
Proof.
  unfold keys_ok, Assoc.update. intros Hnd.
  replace (List.map fst (List.map _ st)) with (List.map fst st); [assumption|].
  rewrite map_map. apply map_ext. intros [k0 v0]. cbn.
  now destruct (String.eqb k0 k).
Qed.

Section KeyFacts.
Variable clock : nat -> N.
Variable guild : Guild.

Ltac keys_done :=
  repeat first [assumption | apply replace_keys_ok | apply update_keys_ok].

Lemma setVipLifetime_keys_ok member w r w' :
  setVipLifetime clock guild member w = (r, w') ->
  keys_ok (store w) -> keys_ok (store w').
Proof. intros H Hk. unfold_ops. run_ops; keys_done. Qed.

Lemma setVipToTrial_keys_ok member w r w' :
  setVipToTrialRemainingOrRemove clock guild member w = (r, w') ->
  keys_ok (store w) -> keys_ok (store w').
Proof. intros H Hk. unfold_ops. run_ops; keys_done. Qed.

Lemma grantLoop_keys_ok entries : forall n w r w',
  grantLoop clock guild entries n w = (r, w') ->
  keys_ok (store w) -> keys_ok (store w').
Proof.
  induction entries as [|[k0 a] rest IH]; intros n w r w' H Hk.
  - now injection H as <- <-.
  - rewrite grantLoop_cons in H.
    destruct a; [|eauto].
    destruct (Assoc.lookup k0 (members guild)) as [mi|]; [|eauto].
    destruct (setVipLifetime clock guild (mkMember k0 mi) w) as [[u|e] w1] eqn:Es;
      apply setVipLifetime_keys_ok in Es; try assumption.
    + eauto.
    + now injection H as <- <-.
Qed.

Lemma grantLoop_count entries : forall n w n' w',
  grantLoop clock guild entries n w = (Ok n', w') ->
  n' = (n + List.length
              (filter (fun e => snd e && match Assoc.lookup (fst e) (members guild) with
                                         | Some _ => true
                                         | None => false
                                         end) entries))%nat.
Proof.
  induction entries as [|[k0 a] rest IH]; intros n w n' w' H.
  - injection H as <- <-. cbn. lia.
  - rewrite grantLoop_cons in H. cbn [filter fst snd].
    destruct a; cbn [andb]; [|eauto].
    destruct (Assoc.lookup k0 (members guild)) as [mi|]; [|eauto].
    destruct (setVipLifetime clock guild (mkMember k0 mi) w) as [[u|e] w1];
      [|discriminate].
    apply IH in H. cbn [List.length]. lia.
Qed.

Lemma downgradeLoop_keys_ok elig ids : forall n w r w',
  downgradeLoop clock guild elig ids n w = (r, w') ->
  keys_ok (store w) -> keys_ok (store w').
Proof.
  induction ids as [|k0 rest IH]; intros n w r w' H Hk.
  - now injection H as <- <-.
  - rewrite downgradeLoop_cons in H.
    destruct (Assoc.lookup k0 elig) as [[|]|]; [eauto| |].
    all: destruct (Assoc.lookup k0 (members guild)) as [mi|]; [|eauto].
    all: destruct (setVipToTrialRemainingOrRemove clock guild (mkMember k0 mi) w)
      as [[u|e] w1] eqn:Es; apply setVipToTrial_keys_ok in Es; try assumption.
    all: try (injection H as <- <-; assumption).
    all: eauto.
Qed.

Lemma sync_keys_ok rows w s w' :
  syncFromSheetOptimised clock guild rows w = (Ok (Done s), w') ->
  keys_ok (store w) -> keys_ok (store w').
Proof.
  intros Hsync Hk.
  destruct (sync_done_inv _ _ _ _ _ _ Hsync)
    as (elig & n1 & w1 & n2 & w2 & n3 & w3 & _ & _ & _ & Hg & Hd & He
        & _ & _ & _ & _ & Hs' & _ & _).
  rewrite Hs', (expiryLoop_store _ _ _ _ _ _ _ He).
  eapply downgradeLoop_keys_ok; [exact Hd|].
  eapply grantLoop_keys_ok; [exact Hg|]. exact Hk.
Qed.

End KeyFacts.

(** ** An established trial window survives the pass *)

Section TrialFacts.
Variable clock : nat -> N.
Variable guild : Guild.

Lemma storedTrialUntil_lookup k w w' :
  Assoc.lookup k (store w') = Assoc.lookup k (store w) ->
  storedTrialUntil k w' = storedTrialUntil k w.
Proof. unfold storedTrialUntil. now intros ->. Qed.

Lemma storedTrialUntil_truthy k w :
  storedTrialUntil k w <> 0 ->
  exists r0, Assoc.lookup k (store w) = Some r0 /\ truthy (trial_until r0) = true
             /\ orZero (trial_until r0) = storedTrialUntil k w.
Proof.
  unfold storedTrialUntil. destruct (Assoc.lookup k (store w)) as [r0|]; [|tauto].
  intros Hnz. exists r0. repeat split.
  unfold truthy. destruct (trial_until r0) as [t|]; [|now cbn in Hnz].
  cbn in Hnz. now destruct (Z.eqb_spec t 0).
Qed.

Lemma setVipLifetime_keeps_trial member w r w' :
  setVipLifetime clock guild member w = (r, w') ->
  storedTrialUntil (member_id member) w <> 0 ->
  storedTrialUntil (member_id member) w' = storedTrialUntil (member_id member) w.
Proof.
  intros H Hnz.
  destruct (storedTrialUntil_truthy _ _ Hnz) as (r0 & Hl & Ht & Hv).
  rewrite <- Hv in *. clear Hv.
  unfold setVipLifetime in H.
  unfold bind at 1 in H. unfold getVipRole in H.
  destruct (vipRole guild); cbn in H;
    [|injection H as _ <-; unfold storedTrialUntil; now rewrite Hl].
  unfold bind at 1 in H. unfold roles_add in H.
  destruct (rejectsAdd (info member));
    [injection H as _ <-; unfold storedTrialUntil; now rewrite Hl|].
  unfold bind at 1 in H.
  match type of H with
  | context [ensureTrialRecordFor clock member ?w0] =>
      destruct (ensureTrialRecordFor clock member w0) as [re w1] eqn:E
  end.
  destruct (ensureTrial_existing _ _ _ _ _ _ E Hl Ht) as [-> Hs]. clear E.
  cbn [e_trial_until] in H.
  destruct (Z.eqb_spec (orZero (trial_until r0)) 0) as [Hz|_]; [contradiction|].
  unfold bind, ret, dbReplace in H. injection H as _ <-.
  unfold storedTrialUntil. cbn. now rewrite lookup_replace_eq.
Qed.

Lemma setVipToTrial_keeps_trial member w r w' :
  setVipToTrialRemainingOrRemove clock guild member w = (r, w') ->
  storedTrialUntil (member_id member) w <> 0 ->
  storedTrialUntil (member_id member) w' = storedTrialUntil (member_id member) w.
Proof.
  intros H Hnz.
  destruct (storedTrialUntil_truthy _ _ Hnz) as (r0 & Hl & Ht & Hv).
  rewrite <- Hv in *. clear Hv.
  unfold setVipToTrialRemainingOrRemove in H.
  unfold bind at 1 in H. unfold getVipRole in H.
  destruct (vipRole guild); cbn in H;
    [|injection H as _ <-; unfold storedTrialUntil; now rewrite Hl].
  unfold bind at 1 in H.
  destruct (ensureTrialRecordFor clock member w) as [re w1] eqn:E.
  destruct (ensureTrial_existing _ _ _ _ _ _ E Hl Ht) as [-> Hs]. clear E.
  cbn [e_trial_until] in H.
  assert (Hl1 : Assoc.lookup (member_id member) (store w1) = Some r0) by congruence.
  clear Hs.
  unfold bind, Date_now, roles_add, roles_cache_has, catch_ignore, roles_remove,
    dbReplace, ret in H.
  unfold storedTrialUntil.
  run_ops; rewrite ?lookup_replace_eq, ?Hl1; reflexivity.
Qed.

Lemma grantLoop_keeps_trial entries k : forall n w r w',
  grantLoop clock guild entries n w = (r, w') ->
  storedTrialUntil k w <> 0 ->
  storedTrialUntil k w' = storedTrialUntil k w.
Proof.
  induction entries as [|[k0 a] rest IH]; intros n w r w' H Hnz.
  - now injection H as _ <-.
  - rewrite grantLoop_cons in H.
    destruct a; [|eauto].
    destruct (Assoc.lookup k0 (members guild)) as [mi|]; [|eauto].
    assert (Hstep : forall r1 w1,
              setVipLifetime clock guild (mkMember k0 mi) w = (r1, w1) ->
              storedTrialUntil k w1 = storedTrialUntil k w).
    { intros r1 w1 Es. destruct (String.eqb_spec k k0) as [->|Hne].
      - exact (setVipLifetime_keeps_trial (mkMember k0 mi) _ _ _ Es Hnz).
      - apply storedTrialUntil_lookup.
        exact (proj1 (setVipLifetime_frame _ _ _ _ _ _ k Es Hne)). }
    destruct (setVipLifetime clock guild (mkMember k0 mi) w) as [[u|e] w1] eqn:Es.
    + pose proof (Hstep _ _ eq_refl) as E1.
      rewrite <- E1. apply (IH _ _ _ _ H). now rewrite E1.
    + injection H as _ <-. exact (Hstep _ _ eq_refl).
Qed.

Lemma downgradeLoop_keeps_trial elig ids k : forall n w r w',
  downgradeLoop clock guild elig ids n w = (r, w') ->
  storedTrialUntil k w <> 0 ->
  storedTrialUntil k w' = storedTrialUntil k w.
Proof.
  induction ids as [|k0 rest IH]; intros n w r w' H Hnz.
  - now injection H as _ <-.
  - rewrite downgradeLoop_cons in H.
    destruct (Assoc.lookup k0 elig) as [[|]|]; [eauto| |].
    all: destruct (Assoc.lookup k0 (members guild)) as [mi|]; [|eauto].
    all: assert (Hstep : forall r1 w1,
              setVipToTrialRemainingOrRemove clock guild (mkMember k0 mi) w = (r1, w1) ->
              storedTrialUntil k w1 = storedTrialUntil k w)
      by (intros r1 w1 Es; destruct (String.eqb_spec k k0) as [->|Hne];
          [exact (setVipToTrial_keeps_trial (mkMember k0 mi) _ _ _ Es Hnz)
          |apply storedTrialUntil_lookup;
           exact (proj1 (setVipToTrial_frame _ _ _ _ _ _ k Es Hne))]).
    all: destruct (setVipToTrialRemainingOrRemove clock guild (mkMember k0 mi) w)
      as [[u|e] w1] eqn:Es.
    all: pose proof (Hstep _ _ eq_refl) as E1.
    all: try (injection H as _ <-; exact E1).
    all: rewrite <- E1; apply (IH _ _ _ _ H); now rewrite E1.
Qed.

Lemma keeps_trial_trans k x y z :
  keeps_trial k x y -> keeps_trial k y z -> keeps_trial k x z.
Proof.
  unfold keeps_trial. intros Hxy Hyz Hnz.
  rewrite <- (Hxy Hnz). apply Hyz. now rewrite (Hxy Hnz).
Qed.

Lemma keeps_trial_store k w w' : store w' = store w -> keeps_trial k w w'.
Proof. unfold keeps_trial, storedTrialUntil. now intros ->. Qed.

Lemma syncPass_keeps_trial rows started k w r w' :
  syncPass clock guild rows started w = (r, w') -> keeps_trial k w w'.
Proof.
  unfold syncPass.
  apply bind_world; [apply keeps_trial_trans| |].
  { intros ra w1 H. apply keeps_trial_store. unfold fetchGuild in H.
    destruct (guildOk guild); now injection H as _ <-. }
  intros _ w1 rb w2.
  apply bind_world; [apply keeps_trial_trans| |].
  { intros ra w3 H. apply keeps_trial_store. now injection H as _ <-. }
  intros elig w3 rc w4.
  apply bind_world; [apply keeps_trial_trans| |].
  { intros ra w5 H. apply keeps_trial_store. now injection H as _ <-. }
  intros dbRows w5 rd w6.
  apply bind_world; [apply keeps_trial_trans| |].
  { intros ra w7 H. exact (grantLoop_keeps_trial _ _ _ _ _ _ H). }
  intros n1 w7 re w8.
  apply bind_world; [apply keeps_trial_trans| |].
  { intros ra w9 H. exact (downgradeLoop_keeps_trial _ _ _ _ _ _ _ H). }
  intros n2 w9 rf w10.
  apply bind_world; [apply keeps_trial_trans| |].
  { intros ra w11 H. apply keeps_trial_store.
    exact (expiryLoop_store _ _ _ _ _ _ _ H). }
  intros n3 w11 rg w12 H. apply keeps_trial_store.
  unfold bind, Date_now, ret in H. now injection H as _ <-.
Qed.

(** Whatever a pass does and however it ends, a non-zero stored [trial_until]
    is the same afterwards. *)
Lemma sync_keeps_trial rows k w r w' :
  syncFromSheetOptimised clock guild rows w = (r, w') ->
  storedTrialUntil k w <> 0 ->
  storedTrialUntil k w' = storedTrialUntil k w.
Proof.
  unfold syncFromSheetOptimised.
  destruct (syncRunning w); [intros H; now injection H as _ <-|].
  unfold bind at 1, Date_now, try_finally.
  match goal with
  | |- context [syncPass clock guild rows ?st ?w0] =>
      destruct (syncPass clock guild rows st w0) as [r1 w1] eqn:E
  end.
  intros H. injection H as _ <-.
  exact (syncPass_keeps_trial _ _ k _ _ _ E).
Qed.

End TrialFacts.

(** ** Sanity of the concrete scenarios *)

Lemma scenario_clock_ok w w' : clock_ok Scenario.clock w w'.
Proof. intros i _. reflexivity. Qed.

Lemma scenario_members_ok : members_ok Scenario.guild.
Proof.
  intros k mi H. apply lookup_In in H.
  destruct H as [H|[H|[]]]; injection H as _ <-; reflexivity.
Qed.

Lemma trial_ok_nil : trial_ok [].
Proof. intros k r H. discriminate. Qed.

Lemma trial_ok_single k0 v t : t < LIFETIME_UNTIL -> trial_ok [(k0, mkRow v (Some t))].
Proof.
  intros Ht k r H. apply lookup_In in H.
  destruct H as [H|[]]. injection H as _ <-. exact Ht.
Qed.

(** ** The claims *)

(** C1, as stated, fails: an identifier the roster approves but that
    [guild.members.fetch] does not find is skipped by the grant phase, so after the
    completed pass it is approved and yet has no lifetime record. *)
Lemma C1_counterexample :
  exists s w',
    syncFromSheetOptimised Scenario.clock Scenario.emptyGuild Scenario.roster123
      Scenario.emptyWorld = (Ok (Done s), w') /\
    Assoc.lookup "123" (store w') = None /\
    getEligibilityMap Scenario.roster123 = Ok [("123", true)] /\
    (LIFETIME_UNTIL <=? storedVipUntil "123" w') = false.
Proof. eexists. eexists. repeat split; vm_compute; reflexivity. Qed.

(** C1, amended: for every identifier of the roster snapshot whose member is found on
    the platform, after a completed (non-skipped) pass the stored vipUntil is at least
    LIFETIME exactly when the eligibility map gives approved = true; stored trial
    windows, join times and clock readings are taken to lie more than 30 days below
    the LIFETIME sentinel during the pass. *)
Theorem lifetime_iff_approved_on_platform clock guild rows w s w' elig k a mi :
  clock_ok clock w w' -> members_ok guild -> trial_ok (store w) ->
  syncFromSheetOptimised clock guild rows w = (Ok (Done s), w') ->
  getEligibilityMap rows = Ok elig ->
  Assoc.lookup k elig = Some a ->
  Assoc.lookup k (members guild) = Some mi ->
  (LIFETIME_UNTIL <=? storedVipUntil k w') = a.
Proof.
  intros Hc Hm Hst Hsync Helig Ha Hp.
  pose proof (sync_lifetime_iff _ _ _ _ _ _ _ k _ Hc Hm Hst Hsync Helig Hp) as Hiff.
  unfold approved in Hiff. rewrite Ha in Hiff.
  destruct (Z.leb_spec LIFETIME_UNTIL (storedVipUntil k w')) as [Hle|Hlt].
  - apply Hiff in Hle. now injection Hle as <-.
  - destruct a; [|reflexivity].
    assert (LIFETIME_UNTIL <= storedVipUntil k w') by (now apply Hiff). lia.
Qed.

Lemma lifetime_iff_approved_on_platform_witness :
  (LIFETIME_UNTIL <=?
     storedVipUntil "123"
       (snd (syncFromSheetOptimised Scenario.clock Scenario.guild Scenario.roster123
               Scenario.emptyWorld))) = true.
Proof.
  eapply (lifetime_iff_approved_on_platform Scenario.clock Scenario.guild
            Scenario.roster123 Scenario.emptyWorld _ _ _ "123" true Scenario.regular).
  - apply scenario_clock_ok.
  - exact scenario_members_ok.
  - exact trial_ok_nil.
  - vm_compute. reflexivity.
  - vm_compute. reflexivity.
  - vm_compute. reflexivity.
  - vm_compute. reflexivity.
Defined.

(** C3, as stated, fails: [lifetimeEnsured] is incremented for every approved member
    found on the platform, and [expiredRemoved] for every expired record whose member
    is found, on every pass, whether or not anything changed.  The second of two
    passes over the same roster changes neither the store nor a role and reports
    both again. *)
Lemma C3_counterexample :
  let expired := Scenario.now - Scenario.day in
  let w := mkWorld [("456", mkRow (Some expired) (Some expired))] ["456"] false 0 in
  exists s1 w1 s2 w2,
    syncFromSheetOptimised Scenario.clock Scenario.guild Scenario.roster123 w
    = (Ok (Done s1), w1) /\
    syncFromSheetOptimised Scenario.clock Scenario.guild Scenario.roster123 w1
    = (Ok (Done s2), w2) /\
    store w2 = store w1 /\ roleHolders w2 = roleHolders w1 /\
    lifetimeEnsured s2 = 1%nat /\ lifetimeDowngraded s2 = 0%nat /\
    expiredRemoved s2 = 1%nat.
Proof. cbv zeta. do 4 eexists. repeat split; vm_compute; reflexivity. Qed.

(** C3, amended: when the pass is run twice in succession over the same roster
    snapshot, with no external state change in between, and both runs complete, the
    second run's summary has lifetimeDowngraded zero and the same lifetimeEnsured as
    the first run's (it counts the approved members found on the platform, not
    transitions), provided the table has one row for each user ID, every stored
    trialUntil is below LIFETIME, and every member's join time and every clock
    reading of the first pass are more than 30 days below LIFETIME. *)
Theorem second_pass_downgrades_nothing clock guild rows w s1 w1 s2 w2 :
  clock_ok clock w w1 -> members_ok guild -> trial_ok (store w) -> keys_ok (store w) ->
  syncFromSheetOptimised clock guild rows w = (Ok (Done s1), w1) ->
  syncFromSheetOptimised clock guild rows w1 = (Ok (Done s2), w2) ->
  lifetimeDowngraded s2 = 0%nat /\ lifetimeEnsured s2 = lifetimeEnsured s1.
Proof.
  intros Hc Hm Hst Hk H1 H2.
  pose proof (sync_keys_ok _ _ _ _ _ _ H1 Hk) as Hk1.
  destruct (sync_done_inv _ _ _ _ _ _ H1)
    as (elig & a1 & wa & a2 & wb & a3 & wc & _ & _ & Helig & Hg1 & _ & _
        & Hn1 & _ & _ & _ & _ & _ & _).
  destruct (sync_done_inv _ _ _ _ _ _ H2)
    as (elig' & b1 & va & b2 & vb & b3 & vc & _ & _ & Helig' & Hg2 & Hd2 & _
        & Hm1 & Hm2 & _ & _ & _ & _ & _).
  rewrite Helig in Helig'. injection Helig' as <-.
  split.
  - rewrite Hm2.
    rewrite downgradeLoop_idle in Hd2; [now injection Hd2 as <- _|].
    intros k Hin.
    destruct (Assoc.lookup k (members guild)) as [mi|] eqn:Ep; [left|now right].
    apply lifetimeInDb_of_In in Hin. destruct Hin as (r & Hin & Hv).
    apply (In_lookup _ _ _ Hk1) in Hin.
    apply (sync_lifetime_iff _ _ _ _ _ _ _ k _ Hc Hm Hst H1 Helig Ep).
    unfold storedVipUntil. now rewrite Hin.
  - rewrite Hn1, Hm1.
    apply grantLoop_count in Hg1. apply grantLoop_count in Hg2. congruence.
Qed.

Lemma second_pass_downgrades_nothing_witness :
  exists s1 s2 : Summary,
    lifetimeDowngraded s1 = 1%nat /\
    lifetimeDowngraded s2 = 0%nat /\ lifetimeEnsured s2 = lifetimeEnsured s1.
Proof.
  pose (w := Scenario.world_of LIFETIME_UNTIL (Scenario.now + 10 * Scenario.day) true).
  pose (p1 := syncFromSheetOptimised Scenario.clock Scenario.guild Scenario.rosterOther w).
  pose (p2 := syncFromSheetOptimised Scenario.clock Scenario.guild Scenario.rosterOther
                (snd p1)).
  exists (match fst p1 with Ok (Done s) => s | _ => mkSummary 0 0 0 0 0 end).
  exists (match fst p2 with Ok (Done s) => s | _ => mkSummary 0 0 0 0 0 end).
  split; [vm_compute; reflexivity|].
  eapply (second_pass_downgrades_nothing Scenario.clock Scenario.guild
            Scenario.rosterOther w _ (snd p1) _ (snd p2)).
  - apply scenario_clock_ok.
  - exact scenario_members_ok.
  - apply trial_ok_single. vm_compute. reflexivity.
  - repeat constructor. cbn. tauto.
  - vm_compute. reflexivity.
  - vm_compute. reflexivity.
Defined.

(** C4, as stated, fails: a stored-lifetime member who is no longer approved and
    whose trial lies in the future, but whom [guild.members.fetch] does not find, is
    skipped by the downgrade phase; the record stays at LIFETIME. *)
Lemma C4_counterexample :
  let w := Scenario.world_of LIFETIME_UNTIL (Scenario.now + 10 * Scenario.day) false in
  exists s w',
    syncFromSheetOptimised Scenario.clock Scenario.emptyGuild Scenario.rosterOther w
      = (Ok (Done s), w') /\
    storedTrialUntil "123" w = Scenario.now + 10 * Scenario.day /\
    Z.of_N (Scenario.clock 0) < storedTrialUntil "123" w /\
    Assoc.lookup "123" [("456", true)] = None /\
    storedVipUntil "123" w' = LIFETIME_UNTIL /\
    storedVipUntil "123" w' <> storedTrialUntil "123" w.
Proof.
  eexists. eexists. split; [vm_compute; reflexivity|].
  repeat split; try (vm_compute; reflexivity).
  vm_compute. discriminate.
Qed.

(** C4, amended: for every member found on the platform whose stored vipUntil is at
    least LIFETIME, who is absent from the eligibility map or mapped to
    approved = false, and whose trialUntil stays in the future throughout the pass, a
    completed pass leaves the member holding the role and sets the stored vipUntil
    equal to trialUntil (not 0). *)
Theorem grace_demotion clock guild rows w s w' elig k mi r0 t :
  keys_ok (store w) ->
  syncFromSheetOptimised clock guild rows w = (Ok (Done s), w') ->
  getEligibilityMap rows = Ok elig ->
  Assoc.lookup k elig <> Some true ->
  Assoc.lookup k (members guild) = Some mi ->
  Assoc.lookup k (store w) = Some r0 ->
  LIFETIME_UNTIL <= orZero (vip_until r0) ->
  trial_until r0 = Some t ->
  readings clock w w' (fun now => now < t) ->
  hasRole k w' = true /\
  Assoc.lookup k (store w') = Some (mkRow (Some t) (Some t)).
Proof.
  intros Hk Hsync Helig Hna Hp Hl Hv Ht Hfut.
  destruct (sync_done_inv _ _ _ _ _ _ Hsync)
    as (elig' & n1 & w1 & n2 & w2 & n3 & w3 & _ & _ & Helig' & Hg & Hd & He
        & _ & _ & _ & _ & Hs' & Hr' & _ & Ht').
  rewrite Helig in Helig'. injection Helig' as <-.
  destruct (sync_ticks _ _ _ _ _ _ _ _ _ _ _ Hg Hd He Ht') as (T1 & T2 & T3 & T4).
  assert (Hfut2 : readings clock w1 w2 (fun now => now < t))
    by (apply (readings_mono clock _ w w'); [lia|lia|exact Hfut]).
  pose proof (getEligibilityMap_NoDup _ _ Helig) as Hnd.
  assert (Hframe : ~ In (k, true) elig \/ Assoc.lookup k (members guild) = None)
    by (left; now rewrite approved_In).
  destruct (grantLoop_frame _ _ _ _ _ _ _ k Hg Hframe) as [E1 _].
  change (store (passStart w)) with (store w) in E1.
  assert (Hgrace : hasRole k w2 = true /\
                   Assoc.lookup k (store w2) = Some (mkRow (Some t) (Some t))).
  { apply (downgradeLoop_grace _ _ _ _ _ _ _ _ _ k Hfut2 Hd). right.
    repeat split.
    - exists r0. split; [congruence|assumption].
    - eapply lifetimeInDb_of_lookup; eassumption.
    - exact Hna.
    - congruence. }
  destruct Hgrace as [Hrole Hrec].
  rewrite (hasRole_roleHolders k _ _ Hr'), Hs'.
  rewrite (expiryLoop_store _ _ _ _ _ _ _ He). split; [|exact Hrec].
  rewrite (expiryLoop_frame _ _ _ _ _ _ _ k He); [exact Hrole|].
  intros r1 Hin. right. apply (In_lookup _ _ _ Hk) in Hin.
  rewrite Hl in Hin. now injection Hin as <-.
Qed.

Lemma grace_demotion_witness :
  let t := Scenario.now + 10 * Scenario.day in
  let w' := snd (syncFromSheetOptimised Scenario.clock Scenario.guild Scenario.rosterOther
                   (Scenario.world_of LIFETIME_UNTIL t false)) in
  hasRole "123" w' = true /\
  Assoc.lookup "123" (store w') = Some (mkRow (Some t) (Some t)).
Proof.
  cbv zeta.
  eapply (grace_demotion Scenario.clock Scenario.guild Scenario.rosterOther
            (Scenario.world_of LIFETIME_UNTIL (Scenario.now + 10 * Scenario.day) false)
            _ _ _ "123" Scenario.regular).
  - repeat constructor. cbn. tauto.
  - vm_compute. reflexivity.
  - vm_compute. reflexivity.
  - vm_compute. discriminate.
  - vm_compute. reflexivity.
  - vm_compute. reflexivity.
  - vm_compute. discriminate.
  - vm_compute. reflexivity.
  - intros i _. vm_compute. reflexivity.
Defined.

(** ** Roster schema *)

Lemma indexOf_from_missing l x : forall i, 0 <= i ->
  (JsString.indexOf_from l x i = -1 <-> ~ In x l).
Proof.
  induction l as [|h t IH]; intros i Hi; cbn [JsString.indexOf_from In].
  - tauto.
  - destruct (String.eqb_spec h x) as [->|Hne].
    + split; [lia|tauto].
    + rewrite (IH (i + 1)) by lia. tauto.
Qed.

Lemma indexOf_missing l x : JsString.indexOf l x = -1 <-> ~ In x l.
Proof. apply indexOf_from_missing. lia. Qed.

Lemma getEligibilityMap_schema rows :
  (2 <= List.length rows)%nat ->
  lacksColumn rows "discord_id" \/ lacksColumn rows "lifetime_vip" ->
  exists msg, getEligibilityMap rows = Err (SchemaError msg).
Proof.
  intros Hlen Hlack. unfold getEligibilityMap, lacksColumn in *.
  destruct (Nat.ltb_spec (List.length rows) 2) as [Hlt|_]; [lia|].
  destruct (Z.eqb_spec (JsString.indexOf (normalisedHeaders rows) "discord_id") (-1))
    as [_|Hd]; [eauto|].
  destruct (Z.eqb_spec (JsString.indexOf (normalisedHeaders rows) "lifetime_vip") (-1))
    as [_|Hl]; [eauto|].
  exfalso. rewrite indexOf_missing in Hd, Hl. tauto.
Qed.

(** C5, as stated, fails: [getEligibilityMap] returns an empty map before it looks
    at the headers when the sheet has fewer than two rows, so a header-only roster
    without either column is not a schema error, and the pass that follows treats
    every stored lifetime member as no longer approved. *)
Lemma C5_counterexample :
  let w := Scenario.world_of LIFETIME_UNTIL (Scenario.now - Scenario.day) true in
  lacksColumn Scenario.rosterHeaderOnly "discord_id" /\
  lacksColumn Scenario.rosterHeaderOnly "lifetime_vip" /\
  getEligibilityMap Scenario.rosterHeaderOnly = Ok [] /\
  exists s w',
    syncFromSheetOptimised Scenario.clock Scenario.guild Scenario.rosterHeaderOnly w
      = (Ok (Done s), w') /\
    storedVipUntil "123" w = LIFETIME_UNTIL /\ storedVipUntil "123" w' = 0 /\
    hasRole "123" w = true /\ hasRole "123" w' = false.
Proof.
  cbv zeta. split; [|split; [|split]].
  - unfold lacksColumn. cbn. intros [H|[]]. discriminate.
  - unfold lacksColumn. cbn. intros [H|[]]. discriminate.
  - reflexivity.
  - eexists. eexists. repeat split; vm_compute; reflexivity.
Qed.

(** C5, amended: for every roster with at least one data row (two rows or more) whose
    header row lacks the member-identifier column or the approval column, building
    the eligibility map fails with a schema error, and a pass given such a roster
    aborts before any store write or role mutation, leaving the store unchanged. *)
Theorem schema_failure_aborts clock guild rows w :
  (2 <= List.length rows)%nat ->
  lacksColumn rows "discord_id" \/ lacksColumn rows "lifetime_vip" ->
  syncRunning w = false ->
  (exists msg, getEligibilityMap rows = Err (SchemaError msg)) /\
  exists e w',
    syncFromSheetOptimised clock guild rows w = (Err e, w') /\
    (guildOk guild = true -> exists msg, e = SchemaError msg) /\
    store w' = store w /\ roleHolders w' = roleHolders w /\ syncRunning w' = false.
Proof.
  intros Hlen Hlack Hrun.
  destruct (getEligibilityMap_schema rows Hlen Hlack) as [msg Hmsg].
  split; [eauto|].
  unfold syncFromSheetOptimised. rewrite Hrun.
  unfold bind at 1, Date_now, try_finally, syncPass.
  unfold bind at 1, fetchGuild.
  destruct (guildOk guild).
  - cbn [ret]. unfold bind at 1, lift. rewrite Hmsg.
    eexists. eexists. split; [reflexivity|]. cbn. eauto.
  - cbn [throw]. eexists. eexists. split; [reflexivity|]. cbn.
    repeat split; auto. discriminate.
Qed.

Lemma schema_failure_aborts_witness :
  (exists msg, getEligibilityMap Scenario.rosterNoApproval = Err (SchemaError msg)) /\
  exists e w',
    syncFromSheetOptimised Scenario.clock Scenario.guild Scenario.rosterNoApproval
      (Scenario.world_of LIFETIME_UNTIL (Scenario.now - Scenario.day) true) = (Err e, w') /\
    (guildOk Scenario.guild = true -> exists msg, e = SchemaError msg) /\
    store w' = store (Scenario.world_of LIFETIME_UNTIL (Scenario.now - Scenario.day) true) /\
    roleHolders w'
    = roleHolders (Scenario.world_of LIFETIME_UNTIL (Scenario.now - Scenario.day) true) /\
    syncRunning w' = false.
Proof.
  apply (schema_failure_aborts Scenario.clock Scenario.guild Scenario.rosterNoApproval).
  - cbn. lia.
  - right. unfold lacksColumn. cbn. intros [H|[H|[]]]; discriminate.
  - reflexivity.
Defined.

(** ** A pass that finds the flag clear, and the status query *)

Lemma syncPass_not_skipped clock guild rows started w x w' :
  syncPass clock guild rows started w = (Ok x, w') -> exists s, x = Done s.
Proof.
  unfold syncPass. intros E.
  apply bind_ok_inv in E. destruct E as (u & wa & _ & E).
  apply bind_ok_inv in E. destruct E as (elig & wb & _ & E).
  apply bind_ok_inv in E. destruct E as (dbRows & wc & _ & E).
  apply bind_ok_inv in E. destruct E as (n1 & w1 & _ & E).
  apply bind_ok_inv in E. destruct E as (n2 & w2 & _ & E).
  apply bind_ok_inv in E. destruct E as (n3 & w3 & _ & E).
  apply bind_ok_inv in E. destruct E as (fin & w4 & _ & E).
  injection E as <- _. eauto.
Qed.

Lemma sync_runs clock guild rows w r w' :
  syncRunning w = false ->
  syncFromSheetOptimised clock guild rows w = (r, w') ->
  r <> Ok Skipped /\ syncRunning w' = false.
Proof.
  intros Hrun. unfold syncFromSheetOptimised. rewrite Hrun.
  unfold bind at 1, Date_now, try_finally.
  destruct (syncPass clock guild rows _ _) as [r1 w1] eqn:E.
  intros H. injection H as <- <-. split; [|reflexivity].
  destruct r1 as [x|e]; [|discriminate].
  apply syncPass_not_skipped in E. destruct E as [s ->]. discriminate.
Qed.

(** C8: the status query answers no-VIP when there is no record or the stored
    vipUntil is falsy (NULL or 0), lifetime when it is at least LIFETIME,
    active-until (the timestamp, in seconds) when it is below LIFETIME and after the
    clock reading, and expired when it is non-zero, below LIFETIME and not after the
    clock reading; it changes neither the store nor the roles nor the running flag. *)
Theorem statusQuery_mapping clock k w :
  let v := storedVipUntil k w in
  let now := Z.of_N (clock (tick w)) in
  exists reply w',
    statusQuery clock k w = (Ok reply, w') /\
    store w' = store w /\ roleHolders w' = roleHolders w /\
    syncRunning w' = syncRunning w /\
    (Assoc.lookup k (store w) = None -> reply = NoVip) /\
    (forall r, Assoc.lookup k (store w) = Some r -> truthy (vip_until r) = false ->
               reply = NoVip) /\
    (LIFETIME_UNTIL <= v -> reply = LifetimeAccess) /\
    (v <> 0 -> v < LIFETIME_UNTIL -> now < v -> reply = ActiveUntil (v / 1000)) /\
    (v <> 0 -> v < LIFETIME_UNTIL -> v <= now -> reply = Expired).
Proof.
  cbv zeta. unfold statusQuery, storedVipUntil, bind, dbGet, Date_now, ret.
  destruct (Assoc.lookup k (store w)) as [r|].
  2:{ eexists. eexists. split; [reflexivity|]. cbn.
      repeat split; try reflexivity; try discriminate; unfold LIFETIME_UNTIL; lia. }
  destruct (truthy (vip_until r)) eqn:Etruthy; cbn [negb].
  2:{ assert (Hv : orZero (vip_until r) = 0).
      { unfold truthy in Etruthy. destruct (vip_until r) as [v|]; [|reflexivity].
        cbn. now destruct (Z.eqb_spec v 0). }
      rewrite Hv. eexists. eexists. split; [reflexivity|]. cbn.
      repeat split; try reflexivity; try discriminate; unfold LIFETIME_UNTIL; lia. }
  assert (Hnz : orZero (vip_until r) <> 0).
  { unfold truthy in Etruthy. destruct (vip_until r) as [v|]; [|discriminate].
    cbn. now destruct (Z.eqb_spec v 0). }
  assert (Hfalsy : forall r', Some r = Some r' -> truthy (vip_until r') = false -> False).
  { intros r' Heq Hf. injection Heq as <-. congruence. }
  destruct (Z.leb_spec LIFETIME_UNTIL (orZero (vip_until r))) as [Hle|Hlt].
  { eexists. eexists. split; [reflexivity|]. cbn.
    repeat split; try reflexivity; try discriminate; try lia.
    intros r' Heq Hf. destruct (Hfalsy r' Heq Hf). }
  destruct (Z.ltb_spec (Z.of_N (clock (tick w))) (orZero (vip_until r))) as [Hfut|Hpast].
  all: eexists; eexists; (split; [reflexivity|]); cbn.
  all: repeat split; try reflexivity; try discriminate; try lia.
  all: intros r' Heq Hf; destruct (Hfalsy r' Heq Hf).
Qed.

Lemma statusQuery_mapping_witness :
  fst (statusQuery Scenario.clock "123"
         (Scenario.world_of (Scenario.now - Scenario.day) 0 true)) = Ok Expired.
Proof.
  destruct (statusQuery_mapping Scenario.clock "123"
              (Scenario.world_of (Scenario.now - Scenario.day) 0 true))
    as (reply & w' & E & _ & _ & _ & _ & _ & _ & _ & Hexp).
  rewrite E. cbn [fst]. f_equal. apply Hexp.
  - vm_compute. discriminate.
  - vm_compute. reflexivity.
  - vm_compute. discriminate.
Defined.

(** ** Hourly cleanup *)

Lemma cleanupLoop_cons clock guild k v rest w :
  cleanupLoop clock guild ((k, v) :: rest) w =
  if (orZero v =? 0) || (LIFETIME_UNTIL <=? orZero v)
     || (Z.of_N (clock (tick w)) <? orZero v)
  then cleanupLoop clock guild rest
         (if (orZero v =? 0) || (LIFETIME_UNTIL <=? orZero v)
          then w else set_tick (S (tick w)) w)
  else
    match Assoc.lookup k (members guild) with
    | None => cleanupLoop clock guild rest (set_tick (S (tick w)) w)
    | Some mi =>
        match removeVipIfHas guild (mkMember k mi) (set_tick (S (tick w)) w) with
        | (Ok _, w1) => cleanupLoop clock guild rest w1
        | (Err e, w1) => (Err e, w1)
        end
    end.
Proof.
  cbn [cleanupLoop].
  destruct (orZero v =? 0); [reflexivity|].
  destruct (LIFETIME_UNTIL <=? orZero v); [reflexivity|].
  cbn [orb]. unfold bind at 1, Date_now.
  destruct (Z.of_N (clock (tick w)) <? orZero v); [reflexivity|].
  unfold bind at 1, fetchMemberSafe, ret.
  destruct (Assoc.lookup k (members guild)); reflexivity.
Qed.

Lemma cleanupLoop_expiryLoop clock guild rows : forall n w,
  snd (cleanupLoop clock guild (List.map (fun e => (fst e, vip_until (snd e))) rows) w)
  = snd (expiryLoop clock guild rows n w).
Proof.
  induction rows as [|[k r] rest IH]; intros n w; [reflexivity|].
  cbn [List.map fst snd]. rewrite cleanupLoop_cons, expiryLoop_cons.
  destruct ((orZero (vip_until r) =? 0) || (LIFETIME_UNTIL <=? orZero (vip_until r))
            || (Z.of_N (clock (tick w)) <? orZero (vip_until r))); [apply IH|].
  destruct (Assoc.lookup k (members guild)) as [mi|]; [|apply IH].
  destruct (removeVipIfHas guild (mkMember k mi) (set_tick (S (tick w)) w))
    as [[u|e] w1]; [apply IH|reflexivity].
Qed.

Lemma removeVipIfHas_syncRunning guild member w r w' :
  removeVipIfHas guild member w = (r, w') -> syncRunning w' = syncRunning w.
Proof.
  unfold removeVipIfHas, getVipRole, roles_cache_has, catch_ignore,
    roles_remove, bind, ret, throw.
  intros H. run_ops; reflexivity.
Qed.

Lemma expiryLoop_syncRunning clock guild rows : forall n w r w',
  expiryLoop clock guild rows n w = (r, w') -> syncRunning w' = syncRunning w.
Proof.
  induction rows as [|[k r0] rest IH]; intros n w r w' H.
  - now injection H as _ <-.
  - rewrite expiryLoop_cons in H.
    destruct ((orZero (vip_until r0) =? 0) || (LIFETIME_UNTIL <=? orZero (vip_until r0))
              || (Z.of_N (clock (tick w)) <? orZero (vip_until r0))).
    + apply IH in H. rewrite H.
      now destruct ((orZero (vip_until r0) =? 0)
                    || (LIFETIME_UNTIL <=? orZero (vip_until r0))).
    + destruct (Assoc.lookup k (members guild)) as [mi|]; [|now apply IH in H].
      destruct (removeVipIfHas guild (mkMember k mi) (set_tick (S (tick w)) w))
        as [[u|e] w1] eqn:Er; apply removeVipIfHas_syncRunning in Er; cbn in Er.
      * apply IH in H. congruence.
      * now injection H as _ <-.
Qed.

(** C10: the hourly cleanup does not look at the running flag and does not change
    it; when the guild resolves, it leaves the process exactly where the expiry
    phase of the sync leaves it on the same store snapshot (for each record with a
    non-zero vipUntil below LIFETIME and not after the clock reading whose member is
    found: remove the role if held); it never writes the store. *)
Theorem hourlyCleanup_is_expiry_phase clock guild w :
  exists w',
    hourlyCleanup clock guild w = (Ok tt, w') /\
    store w' = store w /\
    syncRunning w' = syncRunning w /\
    w' = (if guildOk guild then snd (expiryLoop clock guild (store w) 0 w) else w).
Proof.
  unfold hourlyCleanup, catch_ignore.
  unfold bind at 1, fetchGuild.
  destruct (guildOk guild); cbn [ret throw].
  - unfold bind at 1, dbAllVip.
    pose proof (cleanupLoop_expiryLoop clock guild (store w) 0%nat w) as Heq.
    destruct (cleanupLoop clock guild _ w) as [r w1]. cbn [snd] in Heq. subst w1.
    eexists. split; [reflexivity|].
    destruct (expiryLoop clock guild (store w) 0 w) as [r3 w3] eqn:E3.
    cbn [snd]. split; [exact (expiryLoop_store _ _ _ _ _ _ _ E3)|].
    split; [exact (expiryLoop_syncRunning _ _ _ _ _ _ _ E3)|reflexivity].
  - eexists. split; [reflexivity|]. auto.
Qed.

(** ** Failure isolation and the join-time grant *)

(** A rejected removal is swallowed: once the VIP role resolves, neither
    [removeVipIfHas] nor the expiry loop can fail. *)
Lemma removeVipIfHas_isolated guild member w :
  vipRole guild = true -> exists w', removeVipIfHas guild member w = (Ok tt, w').
Proof.
  intros Hrole.
  unfold removeVipIfHas, getVipRole, roles_cache_has, catch_ignore, roles_remove,
    bind, ret.
  rewrite Hrole. cbn.
  destruct (hasRole (member_id member) w); [|eauto].
  destruct (rejectsRemove (info member)); eauto.
Qed.

Lemma expiryLoop_isolated clock guild rows :
  vipRole guild = true ->
  forall n w, exists n' w', expiryLoop clock guild rows n w = (Ok n', w').
Proof.
  intros Hrole. induction rows as [|[k r] rest IH]; intros n w.
  - cbn. unfold ret. eauto.
  - rewrite expiryLoop_cons.
    destruct ((orZero (vip_until r) =? 0) || (LIFETIME_UNTIL <=? orZero (vip_until r))
              || (Z.of_N (clock (tick w)) <? orZero (vip_until r))); [apply IH|].
    destruct (Assoc.lookup k (members guild)) as [mi|]; [|apply IH].
    destruct (removeVipIfHas_isolated guild (mkMember k mi) (set_tick (S (tick w)) w) Hrole)
      as [w1 ->].
    apply IH.
Qed.

(** C2: the grant is not isolated.  When the roster approves a member found on the
    platform for whom the platform rejects [roles.add], no pass completes: the
    rejection leaves [setVipLifetime], the loop and the pass, which ends with an
    error. *)
Theorem grant_rejection_aborts_pass clock guild rows w elig k mi :
  syncRunning w = false ->
  getEligibilityMap rows = Ok elig ->
  approved elig k ->
  Assoc.lookup k (members guild) = Some mi ->
  rejectsAdd mi = true ->
  exists e w', syncFromSheetOptimised clock guild rows w = (Err e, w').
Proof.
  intros Hrun Helig Ha Hp Hrej.
  destruct (syncFromSheetOptimised clock guild rows w) as [[x|e] w'] eqn:E; [|eauto].
  exfalso. destruct x as [|s].
  - exact (proj1 (sync_runs _ _ _ _ _ _ Hrun E) eq_refl).
  - destruct (sync_done_inv _ _ _ _ _ _ E)
      as (elig' & n1 & w1 & n2 & w2 & n3 & w3 & _ & _ & Helig' & Hg & _).
    rewrite Helig in Helig'. injection Helig' as <-.
    destruct (grantLoop_accepts _ _ _ _ _ _ _ k mi Hg (lookup_In _ _ _ Ha) Hp)
      as [_ Hacc].
    congruence.
Qed.

Lemma grant_rejection_aborts_pass_witness :
  let p := syncFromSheetOptimised Scenario.clock Scenario.strictGuild Scenario.rosterBoth
             Scenario.emptyWorld in
  (exists e w', p = (Err e, w')) /\
  getEligibilityMap Scenario.rosterBoth = Ok [("123", true); ("456", true)] /\
  fst p = Err (RoleAddRejected "123") /\
  Assoc.lookup "456" (store (snd p)) = None /\
  hasRole "456" (snd p) = false.
Proof.
  cbv zeta. split.
  - apply (grant_rejection_aborts_pass Scenario.clock Scenario.strictGuild
             Scenario.rosterBoth Scenario.emptyWorld
             [("123", true); ("456", true)] "123" Scenario.unmanageable).
    + reflexivity.
    + vm_compute. reflexivity.
    + vm_compute. reflexivity.
    + vm_compute. reflexivity.
    + reflexivity.
  - repeat split; vm_compute; reflexivity.
Defined.

(** C6: the join-time grant writes [Date.now() + ONE_MONTH] into both columns
    whatever the record held before. *)
Theorem grantTrialOnJoin_overwrites clock guild member w :
  vipRole guild = true -> rejectsAdd (info member) = false ->
  let until := Z.of_N (clock (tick w)) + ONE_MONTH in
  exists w',
    grantTrialOnJoin clock guild member w = (Ok until, w') /\
    Assoc.lookup (member_id member) (store w') = Some (mkRow (Some until) (Some until)).
Proof.
  intros Hrole Hadd. cbv zeta.
  unfold grantTrialOnJoin, getVipRole, roles_add, bind, Date_now, dbReplace, ret.
  rewrite Hrole. cbn. rewrite Hadd. cbn.
  eexists. split; [reflexivity|]. cbn. apply lookup_replace_eq.
Qed.

Lemma grantTrialOnJoin_overwrites_witness :
  let before := Scenario.world_of LIFETIME_UNTIL (Scenario.now - 20 * Scenario.day) true in
  storedTrialUntil "123" before = Scenario.now - 20 * Scenario.day /\
  exists w',
    grantTrialOnJoin Scenario.clock Scenario.guild (mkMember "123" Scenario.regular) before
    = (Ok (Scenario.now + ONE_MONTH), w') /\
    Assoc.lookup "123" (store w')
    = Some (mkRow (Some (Scenario.now + ONE_MONTH)) (Some (Scenario.now + ONE_MONTH))).
Proof.
  cbv zeta. split; [reflexivity|].
  apply (grantTrialOnJoin_overwrites Scenario.clock Scenario.guild
           (mkMember "123" Scenario.regular)
           (Scenario.world_of LIFETIME_UNTIL (Scenario.now - 20 * Scenario.day) true)).
  - reflexivity.
  - reflexivity.
Defined.

(** * Further properties of the code *)

(** * Further properties *)

(** ** Roster ingestor *)

Lemma trimStart_trimEnd s :
  JsString.trimStart (JsString.trimEnd s) = JsString.trimEnd (JsString.trimStart s).
Proof.
  induction s as [|c r IH]; [reflexivity|].
  cbn [JsString.trimStart JsString.trimEnd].
  destruct (JsString.is_space c) eqn:Ec.
  - rewrite <- IH. destruct (JsString.trimEnd r); cbn [JsString.trimStart].
    + reflexivity.
    + now rewrite Ec.
  - cbn [JsString.trimEnd].
    destruct (JsString.trimEnd r); cbn [JsString.trimStart]; now rewrite Ec.
Qed.

Lemma trimStart_idempotent s :
  JsString.trimStart (JsString.trimStart s) = JsString.trimStart s.
Proof.
  induction s as [|c r IH]; [reflexivity|].
  cbn [JsString.trimStart]. destruct (JsString.is_space c) eqn:Ec; [exact IH|].
  cbn [JsString.trimStart]. now rewrite Ec.
Qed.

Lemma trimEnd_idempotent s :
  JsString.trimEnd (JsString.trimEnd s) = JsString.trimEnd s.
Proof.
  induction s as [|c r IH]; [reflexivity|].
  cbn [JsString.trimEnd].
  destruct (JsString.trimEnd r) as [|c' r'] eqn:Er.
  - destruct (JsString.is_space c) eqn:Ec; [reflexivity|].
    cbn [JsString.trimEnd]. now rewrite Ec.
  - cbn [JsString.trimEnd] in *. rewrite IH. reflexivity.
Qed.

Lemma trim_idempotent s : JsString.trim (JsString.trim s) = JsString.trim s.
Proof.
  unfold JsString.trim.
  now rewrite (trimStart_trimEnd (JsString.trimStart s)), trimStart_idempotent,
    trimEnd_idempotent.
Qed.

Lemma lookup_Map_set_eq {V} k (v : V) m : Assoc.lookup k (Assoc.Map_set k v m) = Some v.
Proof.
  unfold Assoc.lookup.
  induction m as [|[k0 v0] m IH]; cbn.
  - now rewrite String.eqb_refl.
  - destruct (String.eqb k0 k) eqn:E; cbn.
    + now rewrite String.eqb_refl.
    + now rewrite E.
Qed.

Lemma lookup_Map_set_neq {V} k k' (v : V) m :
  k' <> k -> Assoc.lookup k' (Assoc.Map_set k v m) = Assoc.lookup k' m.
Proof.
  intros Hne. unfold Assoc.lookup.
  induction m as [|[k0 v0] m IH]; cbn.
  - destruct (String.eqb_spec k k'); [congruence|reflexivity].
  - destruct (String.eqb_spec k0 k) as [->|Hk]; cbn.
    + destruct (String.eqb_spec k k'); [congruence|reflexivity].
    + destruct (String.eqb k0 k'); [reflexivity|exact IH].
Qed.

Lemma Map_set_length {V} k (v : V) m :
  (List.length (Assoc.Map_set k v m) <= S (List.length m))%nat.
Proof.
  induction m as [|[k0 v0] m IH]; cbn; [lia|].
  destruct (String.eqb k0 k); cbn; lia.
Qed.

Lemma lookup_keys {V} k (m : list (string * V)) :
  In k (List.map fst m) <-> Assoc.lookup k m <> None.
Proof.
  unfold Assoc.lookup. induction m as [|[k0 v0] m IH]; cbn; [tauto|].
  destruct (String.eqb_spec k0 k) as [->|Hne].
  - split; [discriminate|auto].
  - rewrite <- IH. tauto.
Qed.

Lemma eligibilityRows_app a b d l : forall m,
  eligibilityRows (a ++ b) d l m = eligibilityRows b d l (eligibilityRows a d l m).
Proof.
  induction a as [|row a IH]; intros m; cbn [app eligibilityRows]; [reflexivity|].
  destruct (JsString.falsy _); apply IH.
Qed.

Lemma getEligibilityMap_rows rows elig :
  (2 <= List.length rows)%nat ->
  getEligibilityMap rows = Ok elig ->
  discordIdx_of rows <> -1 /\ lifetimeIdx_of rows <> -1 /\
  elig = eligibilityRows (tl rows) (discordIdx_of rows) (lifetimeIdx_of rows) [].
Proof.
  unfold getEligibilityMap, discordIdx_of, lifetimeIdx_of. intros Hlen.
  destruct (Nat.ltb_spec (List.length rows) 2) as [Hlt|_]; [lia|].
  destruct (Z.eqb_spec (JsString.indexOf (normalisedHeaders rows) "discord_id") (-1));
    [discriminate|].
  destruct (Z.eqb_spec (JsString.indexOf (normalisedHeaders rows) "lifetime_vip") (-1));
    [discriminate|].
  intros H. injection H as <-. auto.
Qed.

Lemma getEligibilityMap_small rows elig :
  (List.length rows < 2)%nat -> getEligibilityMap rows = Ok elig -> elig = [].
Proof.
  unfold getEligibilityMap. intros Hlen.
  destruct (Nat.ltb_spec (List.length rows) 2) as [_|Hge]; [|lia].
  intros H. now injection H as <-.
Qed.

(** Every entry of the loop's map is either an entry of the map it started from or
    comes from a row that was read. *)
Lemma eligibilityRows_sound data d l : forall m k a,
  Assoc.lookup k (eligibilityRows data d l m) = Some a ->
  Assoc.lookup k m = Some a \/
  (k <> "" /\ exists row, In row data /\ JsString.trim (JsString.cell row d) = k /\
     String.eqb (JsString.toUpperCase (JsString.trim (JsString.cell row l))) "YES" = a).
Proof.
  induction data as [|row data IH]; intros m k a H; cbn [eligibilityRows] in H; [auto|].
  unfold JsString.falsy in H.
  destruct (String.eqb_spec (JsString.trim (JsString.cell row d)) "") as [Hemp|Hne].
  - destruct (IH _ _ _ H) as [Hm|(Hk & row' & Hin & Hr)]; [auto|].
    right. split; [assumption|]. exists row'. split; [now right|assumption].
  - destruct (IH _ _ _ H) as [Hm|(Hk & row' & Hin & Hr)].
    + destruct (String.eqb_spec k (JsString.trim (JsString.cell row d))) as [->|Hk].
      * rewrite lookup_Map_set_eq in Hm. injection Hm as <-.
        right. split; [assumption|]. exists row. split; [now left|auto].
      * rewrite lookup_Map_set_neq in Hm by assumption. auto.
    + right. split; [assumption|]. exists row'. split; [now right|assumption].
Qed.

Lemma eligibilityRows_keeps data d l : forall m k,
  Assoc.lookup k m <> None -> Assoc.lookup k (eligibilityRows data d l m) <> None.
Proof.
  induction data as [|row data IH]; intros m k H; cbn [eligibilityRows]; [assumption|].
  destruct (JsString.falsy _); [auto|]. apply IH.
  destruct (String.eqb_spec k (JsString.trim (JsString.cell row d))) as [->|Hk].
  - rewrite lookup_Map_set_eq. discriminate.
  - now rewrite lookup_Map_set_neq.
Qed.

Lemma eligibilityRows_complete data d l row : forall m,
  In row data -> JsString.trim (JsString.cell row d) <> "" ->
  Assoc.lookup (JsString.trim (JsString.cell row d)) (eligibilityRows data d l m) <> None.
Proof.
  induction data as [|row0 data IH]; intros m Hin Hne; [destruct Hin|].
  cbn [eligibilityRows]. destruct Hin as [->|Hin].
  - unfold JsString.falsy.
    destruct (String.eqb_spec (JsString.trim (JsString.cell row d)) ""); [contradiction|].
    apply eligibilityRows_keeps. rewrite lookup_Map_set_eq. discriminate.
  - destruct (JsString.falsy _); now apply IH.
Qed.

Lemma eligibilityRows_length data d l : forall m,
  (List.length (eligibilityRows data d l m) <= List.length m + List.length data)%nat.
Proof.
  induction data as [|row data IH]; intros m; cbn [eligibilityRows List.length]; [lia|].
  destruct (JsString.falsy _).
  - specialize (IH m). lia.
  - specialize (IH (Assoc.Map_set (JsString.trim (JsString.cell row d))
                      (String.eqb (JsString.toUpperCase
                                     (JsString.trim (JsString.cell row l))) "YES") m)).
    pose proof (Map_set_length (JsString.trim (JsString.cell row d))
                  (String.eqb (JsString.toUpperCase
                                 (JsString.trim (JsString.cell row l))) "YES") m).
    lia.
Qed.

(** X1: the keys of the eligibility map are pairwise distinct, non-empty and
    trimmed, and there are at most as many as the sheet has data rows. *)
Theorem eligibility_keys_wellformed rows elig :
  getEligibilityMap rows = Ok elig ->
  NoDup (List.map fst elig) /\
  (forall k, In k (List.map fst elig) -> k <> "" /\ JsString.trim k = k) /\
  (List.length elig <= List.length (tl rows))%nat.
Proof.
  intros H. split; [exact (getEligibilityMap_NoDup _ _ H)|].
  destruct (Nat.ltb_spec (List.length rows) 2) as [Hlt|Hge].
  - rewrite (getEligibilityMap_small _ _ Hlt H). cbn. split; [tauto|lia].
  - destruct (getEligibilityMap_rows _ _ Hge H) as (_ & _ & ->). split.
    + intros k Hk. apply lookup_keys in Hk.
      destruct (Assoc.lookup k (eligibilityRows _ _ _ [])) as [a|] eqn:E; [|congruence].
      destruct (eligibilityRows_sound _ _ _ _ _ _ E) as [Hnil|(Hne & row & _ & Hid & _)];
        [discriminate|].
      split; [assumption|]. rewrite <- Hid. apply trim_idempotent.
    + pose proof (eligibilityRows_length (tl rows) (discordIdx_of rows)
                    (lifetimeIdx_of rows) []). cbn in *. lia.
Qed.

Lemma eligibility_keys_wellformed_witness :
  NoDup ["123"; "456"] /\
  (forall k, In k ["123"; "456"] -> k <> "" /\ JsString.trim k = k) /\
  (2 <= 2)%nat.
Proof.
  apply (eligibility_keys_wellformed Scenario.rosterBoth [("123", true); ("456", true)]).
  reflexivity.
Defined.

(** X2: an identifier is a key of the eligibility map exactly when it is non-empty
    and is the trimmed identifier cell of some data row; and the value stored for a
    key is the approval read from one of the data rows with that identifier. *)
Theorem eligibility_entries_from_rows rows elig :
  (2 <= List.length rows)%nat ->
  getEligibilityMap rows = Ok elig ->
  (forall k, Assoc.lookup k elig <> None <->
             k <> "" /\ exists row, In row (tl rows) /\ rowId rows row = k) /\
  (forall k a, Assoc.lookup k elig = Some a ->
               exists row, In row (tl rows) /\ rowId rows row = k
                           /\ rowApproved rows row = a).
Proof.
  intros Hlen H. destruct (getEligibilityMap_rows _ _ Hlen H) as (_ & _ & ->).
  unfold rowId, rowApproved. split.
  - intros k. split.
    + intros Hk.
      destruct (Assoc.lookup k (eligibilityRows _ _ _ [])) as [a|] eqn:E; [|congruence].
      destruct (eligibilityRows_sound _ _ _ _ _ _ E) as [Hnil|(Hne & row & Hin & Hid & _)];
        [discriminate|]. eauto.
    + intros (Hne & row & Hin & <-). now apply eligibilityRows_complete.
  - intros k a E.
    destruct (eligibilityRows_sound _ _ _ _ _ _ E) as [Hnil|(Hne & row & Hin & Hid & Ha)];
      [discriminate|]. eauto.
Qed.

Lemma eligibility_entries_from_rows_witness :
  (forall k, Assoc.lookup k [("123", true); ("456", true)] <> None <->
             k <> "" /\ exists row, In row (tl Scenario.rosterBoth)
                                    /\ rowId Scenario.rosterBoth row = k) /\
  (forall k a, Assoc.lookup k [("123", true); ("456", true)] = Some a ->
               exists row, In row (tl Scenario.rosterBoth)
                           /\ rowId Scenario.rosterBoth row = k
                           /\ rowApproved Scenario.rosterBoth row = a).
Proof.
  apply (eligibility_entries_from_rows Scenario.rosterBoth).
  - cbn. lia.
  - reflexivity.
Defined.

(** X3: last write wins.  When a row with a non-empty identifier is appended below
    a sheet that already has its header row, the map built from the longer sheet
    gives that identifier the approval of the appended row, and every other
    identifier what the shorter sheet's data rows gave it. *)
Theorem eligibility_last_row_wins rows row elig :
  (2 <= List.length rows)%nat ->
  getEligibilityMap (rows ++ [row])%list = Ok elig ->
  rowId rows row <> "" ->
  Assoc.lookup (rowId rows row) elig = Some (rowApproved rows row) /\
  exists before,
    getEligibilityMap rows = Ok before /\
    forall k, k <> rowId rows row -> Assoc.lookup k elig = Assoc.lookup k before.
Proof.
  intros Hlen H Hne.
  assert (Hhd : normalisedHeaders (rows ++ [row])%list = normalisedHeaders rows).
  { unfold normalisedHeaders. destruct rows; [cbn in Hlen; lia|reflexivity]. }
  assert (Htl : tl (rows ++ [row])%list = (tl rows ++ [row])%list).
  { destruct rows; [cbn in Hlen; lia|reflexivity]. }
  assert (Hlen' : (2 <= List.length (rows ++ [row])%list)%nat)
    by (rewrite length_app; cbn; lia).
  destruct (getEligibilityMap_rows _ _ Hlen' H) as (Hd & Hl & ->).
  unfold discordIdx_of, lifetimeIdx_of in *. rewrite Hhd in *. rewrite Htl.
  rewrite eligibilityRows_app. cbn [eligibilityRows].
  unfold rowId, rowApproved, discordIdx_of, lifetimeIdx_of, JsString.falsy in *.
  destruct (String.eqb_spec
              (JsString.trim
                 (JsString.cell row (JsString.indexOf (normalisedHeaders rows) "discord_id")))
              ""); [contradiction|].
  split; [apply lookup_Map_set_eq|].
  eexists. split.
  - unfold getEligibilityMap.
    destruct (Nat.ltb_spec (List.length rows) 2) as [Hlt|_]; [lia|].
    destruct (Z.eqb_spec (JsString.indexOf (normalisedHeaders rows) "discord_id") (-1));
      [contradiction|].
    destruct (Z.eqb_spec (JsString.indexOf (normalisedHeaders rows) "lifetime_vip") (-1));
      [contradiction|].
    reflexivity.
  - intros k Hk. now apply lookup_Map_set_neq.
Qed.

Lemma eligibility_last_row_wins_witness :
  let rows := Scenario.roster123 in
  let row := [" 123 "; "no"] in
  exists elig,
    getEligibilityMap (rows ++ [row])%list = Ok elig /\
    Assoc.lookup "123" elig = Some false.
Proof.
  cbv zeta. eexists. split; [reflexivity|].
  apply (eligibility_last_row_wins Scenario.roster123 [" 123 "; "no"]).
  - cbn. lia.
  - reflexivity.
  - vm_compute. discriminate.
Defined.

(** X4: for a sheet with at least one data row, the eligibility map is built exactly
    when both column names occur among the lower-cased, trimmed header cells;
    otherwise the result is a schema error. *)
Theorem eligibility_built_iff_columns rows :
  (2 <= List.length rows)%nat ->
  ((exists elig, getEligibilityMap rows = Ok elig) <->
   In "discord_id" (normalisedHeaders rows) /\ In "lifetime_vip" (normalisedHeaders rows))
  /\ ((exists elig, getEligibilityMap rows = Ok elig) \/
      (exists msg, getEligibilityMap rows = Err (SchemaError msg))).
Proof.
  intros Hlen. unfold getEligibilityMap.
  destruct (Nat.ltb_spec (List.length rows) 2) as [Hlt|_]; [lia|].
  pose proof (indexOf_missing (normalisedHeaders rows) "discord_id") as Hd.
  pose proof (indexOf_missing (normalisedHeaders rows) "lifetime_vip") as Hl.
  destruct (Z.eqb_spec (JsString.indexOf (normalisedHeaders rows) "discord_id") (-1))
    as [Ed|Ed].
  { split; [|eauto]. split; [intros [? ?]; discriminate|].
    intros [Hin _]. exfalso. now apply Hd. }
  destruct (Z.eqb_spec (JsString.indexOf (normalisedHeaders rows) "lifetime_vip") (-1))
    as [El|El].
  { split; [|eauto]. split; [intros [? ?]; discriminate|].
    intros [_ Hin]. exfalso. now apply Hl. }
  split; [|eauto]. split; [|eauto]. intros _.
  split.
  - destruct (in_dec string_dec "discord_id" (normalisedHeaders rows)); [assumption|].
    exfalso. apply Ed. now apply Hd.
  - destruct (in_dec string_dec "lifetime_vip" (normalisedHeaders rows)); [assumption|].
    exfalso. apply El. now apply Hl.
Qed.

Lemma eligibility_built_iff_columns_witness :
  ((exists elig, getEligibilityMap [[" Discord_ID"; "LIFETIME_VIP "]; ["1"; "yes"]] = Ok elig)
   <-> In "discord_id" ["discord_id"; "lifetime_vip"]
       /\ In "lifetime_vip" ["discord_id"; "lifetime_vip"])
  /\ ((exists elig, getEligibilityMap [[" Discord_ID"; "LIFETIME_VIP "]; ["1"; "yes"]]
                    = Ok elig) \/
      (exists msg, getEligibilityMap [[" Discord_ID"; "LIFETIME_VIP "]; ["1"; "yes"]]
                   = Err (SchemaError msg))).
Proof.
  apply (eligibility_built_iff_columns [[" Discord_ID"; "LIFETIME_VIP "]; ["1"; "yes"]]).
  cbn. lia.
Defined.

Ltac unfold_all :=
  unfold setVipLifetime, setVipToTrialRemainingOrRemove, removeVipIfHas,
    grantTrialOnJoin, ensureTrialRecordFor, statusQuery,
    getVipRole, fetchGuild, roles_add, roles_remove, roles_cache_has, catch_ignore,
    bind, dbGet, Date_now, dbReplace, dbUpdateTrial, ret, throw in *.

Ltac role_simpl :=
  repeat first
    [ rewrite hasRole_set_store | rewrite hasRole_set_tick
    | rewrite hasRole_set_syncRunning | rewrite hasRole_set_roleHolders
    | rewrite existsb_add | rewrite existsb_filter ].

(** ** Trial lifecycle *)

Lemma ensureTrial_post clock member w e w1 :
  joined_after_epoch (info member) ->
  ensureTrialRecordFor clock member w = (Ok e, w1) ->
  exists r1, Assoc.lookup (member_id member) (store w1) = Some r1 /\
             truthy (trial_until r1) = true /\
             orZero (vip_until r1) = e_vip_until e /\
             orZero (trial_until r1) = e_trial_until e.
Proof.
  intros Hj H. unfold joined_after_epoch in Hj.
  assert (Hpos : forall x, 0 < x -> truthy (Some x) = true).
  { intros x Hx. unfold truthy. destruct (Z.eqb_spec x 0); [lia|reflexivity]. }
  assert (Hjoin : truthy (joinedTimestamp (info member)) = true ->
                  0 < orZero (joinedTimestamp (info member)) + ONE_MONTH).
  { unfold truthy, orZero. destruct (joinedTimestamp (info member)) as [j|];
      [|discriminate].
    intros Hnz. specialize (Hj j eq_refl). unfold ONE_MONTH. lia. }
  assert (Hnow : forall i, 0 < Z.of_N (clock i) + ONE_MONTH)
    by (intros i; unfold ONE_MONTH; lia).
  unfold ensureTrialRecordFor, bind, dbGet, Date_now, dbReplace, dbUpdateTrial, ret in H.
  run_ops.
  all: repeat match goal with
         | H : Ok _ = Ok _ |- _ => injection H as <-
         end; cbn.
  all: rewrite ?lookup_replace_eq, ?lookup_update_eq.
  all: try match goal with
         | H : Assoc.lookup ?k ?st = Some _ |- context [Assoc.lookup ?k ?st] => rewrite H
         end; cbn [option_map].
  all: eexists; (split; [reflexivity|]); cbn.
  all: repeat split; auto.
  all: try (destruct (truthy (trial_until _)); [reflexivity|discriminate]).
  all: try match goal with
         | |- truthy (Some (if ?c then _ else _)) = true =>
             let E := fresh in
             destruct c eqn:E;
             [apply andb_prop in E; destruct E as [E _]; apply Z.ltb_lt in E;
              apply Hpos; lia
             |apply Hpos; auto]
         end.
Qed.

(** X5: [ensureTrialRecordFor] is idempotent.  For a member whose join time, when
    known, is not before the epoch, a second call returns what the first returned
    and leaves the store and the roles as the first call left them. *)
Theorem ensureTrial_idempotent clock member w e w1 r2 w2 :
  joined_after_epoch (info member) ->
  ensureTrialRecordFor clock member w = (Ok e, w1) ->
  ensureTrialRecordFor clock member w1 = (r2, w2) ->
  r2 = Ok e /\ store w2 = store w1 /\ roleHolders w2 = roleHolders w1.
Proof.
  intros Hj H1 H2.
  destruct (ensureTrial_post _ _ _ _ _ Hj H1) as (r1 & Hl & Ht & Hv & Htr).
  destruct (ensureTrial_existing _ _ _ _ _ _ H2 Hl Ht) as [-> Hs].
  destruct (ensureTrial_frame _ _ _ _ _ H2) as (e' & _ & Hr & _).
  repeat split; try assumption.
  rewrite Hv, Htr. now destruct e.
Qed.

Lemma ensureTrial_idempotent_witness :
  let member := mkMember "123" Scenario.regular in
  let p1 := ensureTrialRecordFor Scenario.clock member Scenario.emptyWorld in
  let p2 := ensureTrialRecordFor Scenario.clock member (snd p1) in
  fst p2 = Ok (mkEntitlement 1692592000000 1692592000000) /\
  store (snd p2) = store (snd p1) /\ roleHolders (snd p2) = roleHolders (snd p1).
Proof.
  cbv zeta.
  apply (ensureTrial_idempotent Scenario.clock (mkMember "123" Scenario.regular)
           Scenario.emptyWorld (mkEntitlement 1692592000000 1692592000000)
           (snd (ensureTrialRecordFor Scenario.clock (mkMember "123" Scenario.regular)
                   Scenario.emptyWorld))).
  - intros j Hjoin. injection Hjoin as <-. vm_compute. discriminate.
  - vm_compute. reflexivity.
  - vm_compute. reflexivity.
Defined.

(** X6: [ensureTrialRecordFor] never fails, touches neither the roles nor the
    running flag, removes no record, changes no stored [vip_until], and changes no
    record of another member. *)
Theorem ensureTrial_keeps_vip clock member w r w' :
  ensureTrialRecordFor clock member w = (r, w') ->
  (exists e, r = Ok e) /\
  roleHolders w' = roleHolders w /\ syncRunning w' = syncRunning w /\
  forall k row, Assoc.lookup k (store w) = Some row ->
    exists row', Assoc.lookup k (store w') = Some row' /\
                 vip_until row' = vip_until row /\
                 (k <> member_id member -> row' = row).
Proof.
  intros H.
  destruct (ensureTrial_frame _ _ _ _ _ H) as (e & -> & Hr & Hs & Hframe).
  split; [eauto|]. split; [assumption|]. split; [assumption|].
  intros k row Hl.
  destruct (String.eqb_spec k (member_id member)) as [->|Hne].
  2:{ exists row. rewrite (Hframe k Hne). auto. }
  unfold ensureTrialRecordFor, bind, dbGet, Date_now, dbReplace, dbUpdateTrial, ret in H.
  rewrite Hl in H. run_ops.
  all: rewrite ?lookup_update_eq, ?Hl; cbn [option_map].
  all: eexists; (split; [reflexivity|]); cbn; split; [reflexivity|congruence].
Qed.

Lemma ensureTrial_keeps_vip_witness :
  let w := Scenario.world_of LIFETIME_UNTIL 0 true in
  let p := ensureTrialRecordFor Scenario.clock (mkMember "123" Scenario.regular) w in
  (exists e, fst p = Ok e) /\
  exists row', Assoc.lookup "123" (store (snd p)) = Some row' /\
               vip_until row' = Some LIFETIME_UNTIL.
Proof.
  cbv zeta.
  destruct (ensureTrial_keeps_vip Scenario.clock (mkMember "123" Scenario.regular)
              (Scenario.world_of LIFETIME_UNTIL 0 true) _ _ (surjective_pairing _))
    as (Hok & _ & _ & Hrows).
  split; [exact Hok|].
  destruct (Hrows "123" (mkRow (Some LIFETIME_UNTIL) (Some 0)) eq_refl)
    as (row' & Hl & Hv & _).
  exists row'. split; assumption.
Defined.

(** ** Join-time grant *)

(** X7: the join handler is all or nothing.  Either the VIP role resolves and the
    platform accepts the grant, and then the member holds the role, the record is
    replaced by [now + ONE_MONTH] in both columns and the announcement carries that
    time in seconds; or nothing is written, no role changes and nothing is announced.
    No other member's record or role changes in either case, and the handler does
    not fail. *)
Theorem guildMemberAdd_all_or_nothing clock guild logChannel member w :
  let until := Z.of_N (clock (tick w)) + ONE_MONTH in
  exists announced w',
    guildMemberAdd clock guild logChannel member w = (announced, w') /\
    (forall k, k <> member_id member ->
               Assoc.lookup k (store w') = Assoc.lookup k (store w)
               /\ hasRole k w' = hasRole k w) /\
    ((vipRole guild = true /\ rejectsAdd (info member) = false /\
      hasRole (member_id member) w' = true /\
      Assoc.lookup (member_id member) (store w') = Some (mkRow (Some until) (Some until)) /\
      announced = (if logChannel then Some (until / 1000) else None))
     \/
     ((vipRole guild = false \/ rejectsAdd (info member) = true) /\
      store w' = store w /\ roleHolders w' = roleHolders w /\ announced = None)).
Proof.
  cbv zeta. unfold guildMemberAdd.
  unfold grantTrialOnJoin, getVipRole, roles_add, bind, Date_now, dbReplace, ret, throw.
  destruct (vipRole guild) eqn:Erole; cbn.
  2:{ eexists. eexists. split; [reflexivity|]. split; [auto|]. right. auto. }
  destruct (rejectsAdd (info member)) eqn:Eadd; cbn.
  { eexists. eexists. split; [reflexivity|]. split; [auto|]. right. cbn. auto. }
  eexists. eexists. split; [reflexivity|]. split.
  - intros k Hk. cbn. role_simpl.
    rewrite lookup_replace_neq by assumption.
    destruct (String.eqb_spec k (member_id member)); [contradiction|auto].
  - left. repeat split.
    + role_simpl. now rewrite String.eqb_refl.
    + cbn. apply lookup_replace_eq.
Qed.

(** X8: a member who has just been given the join-time trial is told "active until"
    that time (in seconds), as long as that time is below the sentinel and the clock
    reading of the status query is before it. *)
Theorem status_after_join clock guild member w until w1 :
  grantTrialOnJoin clock guild member w = (Ok until, w1) ->
  until < LIFETIME_UNTIL ->
  Z.of_N (clock (tick w1)) < until ->
  fst (statusQuery clock (member_id member) w1) = Ok (ActiveUntil (until / 1000)) /\
  until = Z.of_N (clock (tick w)) + ONE_MONTH.
Proof.
  intros H Hlife Hlt.
  assert (Hrec : Assoc.lookup (member_id member) (store w1)
                 = Some (mkRow (Some until) (Some until))
                 /\ until = Z.of_N (clock (tick w)) + ONE_MONTH).
  { unfold_all. run_ops. split; [apply lookup_replace_eq|reflexivity]. }
  destruct Hrec as [Hrec Hu]. split; [|exact Hu].
  unfold statusQuery, bind, dbGet, Date_now, ret. rewrite Hrec. cbn.
  assert (Hpos : 0 < until) by (rewrite Hu; unfold ONE_MONTH; lia).
  unfold truthy. destruct (Z.eqb_spec until 0) as [->|_]; [lia|]. cbn.
  change (orZero (Some until)) with until.
  destruct (Z.leb_spec LIFETIME_UNTIL until) as [Hge|_]; [lia|].
  destruct (Z.ltb_spec (Z.of_N (clock (tick w1))) until) as [_|Hge]; [reflexivity|lia].
Qed.

Lemma status_after_join_witness :
  let member := mkMember "123" Scenario.regular in
  let w1 := snd (grantTrialOnJoin Scenario.clock Scenario.guild member Scenario.emptyWorld) in
  fst (statusQuery Scenario.clock "123" w1)
  = Ok (ActiveUntil ((Scenario.now + ONE_MONTH) / 1000)) /\
  Scenario.now + ONE_MONTH = Z.of_N (Scenario.clock 0) + ONE_MONTH.
Proof.
  cbv zeta.
  apply (status_after_join Scenario.clock Scenario.guild (mkMember "123" Scenario.regular)
           Scenario.emptyWorld (Scenario.now + ONE_MONTH)).
  - vm_compute. reflexivity.
  - vm_compute. reflexivity.
  - vm_compute. reflexivity.
Defined.

(** ** What every pass preserves *)

Section PassRelations.

Variable clock : nat -> N.
Variable guild : Guild.

(** A relation between the world before and after a step that holds of every
    bookkeeping step and of the two record transitions holds of the whole pass,
    however the pass ends. *)
Variable P : World -> World -> Prop.
Hypothesis P_refl : forall w, P w w.
Hypothesis P_trans : forall x y z, P x y -> P y z -> P x z.
Hypothesis P_tick : forall w n, P w (set_tick n w).
Hypothesis P_flag : forall w b, P w (set_syncRunning b w).
Hypothesis P_grant : forall k mi r w w',
  Assoc.lookup k (members guild) = Some mi ->
  setVipLifetime clock guild (mkMember k mi) w = (r, w') -> P w w'.
Hypothesis P_downgrade : forall k mi r w w',
  Assoc.lookup k (members guild) = Some mi ->
  setVipToTrialRemainingOrRemove clock guild (mkMember k mi) w = (r, w') -> P w w'.
Hypothesis P_remove : forall k mi r w w',
  Assoc.lookup k (members guild) = Some mi ->
  removeVipIfHas guild (mkMember k mi) w = (r, w') -> P w w'.

Lemma grantLoop_rel entries : forall n w r w',
  grantLoop clock guild entries n w = (r, w') -> P w w'.
Proof.
  induction entries as [|[k0 a] rest IH]; intros n w r w' H.
  - injection H as _ <-. apply P_refl.
  - rewrite grantLoop_cons in H.
    destruct a; [|eauto].
    destruct (Assoc.lookup k0 (members guild)) as [mi|] eqn:Em; [|eauto].
    destruct (setVipLifetime clock guild (mkMember k0 mi) w) as [[u|e] w1] eqn:Es.
    + eapply P_trans; [exact (P_grant _ _ _ _ _ Em Es)|eauto].
    + injection H as _ <-. exact (P_grant _ _ _ _ _ Em Es).
Qed.

Lemma downgradeLoop_rel elig ids : forall n w r w',
  downgradeLoop clock guild elig ids n w = (r, w') -> P w w'.
Proof.
  induction ids as [|k0 rest IH]; intros n w r w' H.
  - injection H as _ <-. apply P_refl.
  - rewrite downgradeLoop_cons in H.
    destruct (Assoc.lookup k0 elig) as [[|]|]; [eauto| |].
    all: destruct (Assoc.lookup k0 (members guild)) as [mi|] eqn:Em; [|eauto].
    all: destruct (setVipToTrialRemainingOrRemove clock guild (mkMember k0 mi) w)
      as [[u|e] w1] eqn:Es.
    all: try (injection H as _ <-; exact (P_downgrade _ _ _ _ _ Em Es)).
    all: eapply P_trans; [exact (P_downgrade _ _ _ _ _ Em Es)|eauto].
Qed.

Lemma expiryLoop_rel rows : forall n w r w',
  expiryLoop clock guild rows n w = (r, w') -> P w w'.
Proof.
  induction rows as [|[k0 r0] rest IH]; intros n w r w' H.
  - injection H as _ <-. apply P_refl.
  - rewrite expiryLoop_cons in H.
    destruct ((orZero (vip_until r0) =? 0) || (LIFETIME_UNTIL <=? orZero (vip_until r0))
              || (Z.of_N (clock (tick w)) <? orZero (vip_until r0))).
    + destruct ((orZero (vip_until r0) =? 0)
                || (LIFETIME_UNTIL <=? orZero (vip_until r0))); [eauto|].
      eapply P_trans; [apply P_tick|eauto].
    + destruct (Assoc.lookup k0 (members guild)) as [mi|] eqn:Em.
      2:{ eapply P_trans; [apply P_tick|eauto]. }
      destruct (removeVipIfHas guild (mkMember k0 mi) (set_tick (S (tick w)) w))
        as [[u|e] w1] eqn:Er.
      * eapply P_trans; [apply P_tick|].
        eapply P_trans; [exact (P_remove _ _ _ _ _ Em Er)|eauto].
      * injection H as _ <-.
        eapply P_trans; [apply P_tick|exact (P_remove _ _ _ _ _ Em Er)].
Qed.

Lemma syncPass_rel rows started w r w' :
  syncPass clock guild rows started w = (r, w') -> P w w'.
Proof.
  unfold syncPass.
  apply bind_world; [exact P_trans| |].
  { intros ra w2 H. unfold fetchGuild in H.
    destruct (guildOk guild); injection H as _ <-; apply P_refl. }
  intros _ w2 rb w3.
  apply bind_world; [exact P_trans| |].
  { intros ra w4 H. injection H as _ <-. apply P_refl. }
  intros elig w4 rc w5.
  apply bind_world; [exact P_trans| |].
  { intros ra w6 H. injection H as _ <-. apply P_refl. }
  intros dbRows w6 rd w7.
  apply bind_world; [exact P_trans| |].
  { intros ra w8 H. exact (grantLoop_rel _ _ _ _ _ H). }
  intros n1 w8 re w9.
  apply bind_world; [exact P_trans| |].
  { intros ra w10 H. exact (downgradeLoop_rel _ _ _ _ _ _ H). }
  intros n2 w10 rf w11.
  apply bind_world; [exact P_trans| |].
  { intros ra w12 H. exact (expiryLoop_rel _ _ _ _ _ H). }
  intros n3 w12 rg w13 H.
  unfold bind, Date_now, ret in H. injection H as _ <-. apply P_tick.
Qed.

Lemma sync_rel rows w r w' :
  syncFromSheetOptimised clock guild rows w = (r, w') -> P w w'.
Proof.
  unfold syncFromSheetOptimised.
  destruct (syncRunning w); [intros H; injection H as _ <-; apply P_refl|].
  unfold bind at 1, Date_now, try_finally.
  match goal with
  | |- context [syncPass clock guild rows ?st ?w0] =>
      destruct (syncPass clock guild rows st w0) as [r1 w1] eqn:E
  end.
  intros H. injection H as _ <-. apply syncPass_rel in E.
  eapply P_trans; [apply (P_flag w true)|].
  eapply P_trans; [apply (P_tick _ (S (tick w)))|].
  eapply P_trans; [exact E|apply P_flag].
Qed.

End PassRelations.

Lemma lookup_replace_keeps k k0 (r : Row) st :
  Assoc.lookup k st <> None -> Assoc.lookup k (Assoc.replace k0 r st) <> None.
Proof.
  intros H. destruct (String.eqb_spec k k0) as [->|Hne].
  - rewrite lookup_replace_eq. discriminate.
  - now rewrite lookup_replace_neq.
Qed.

Lemma lookup_update_keeps k k0 (f : Row -> Row) st :
  Assoc.lookup k st <> None -> Assoc.lookup k (Assoc.update k0 f st) <> None.
Proof.
  intros H. destruct (String.eqb_spec k k0) as [->|Hne].
  - rewrite lookup_update_eq. destruct (Assoc.lookup k0 st); [discriminate|congruence].
  - now rewrite lookup_update_neq.
Qed.

Lemma shape_ok_replace k r st :
  shape_ok st -> vip_shape r -> shape_ok (Assoc.replace k r st).
Proof.
  intros Hst Hr k' r' Hl. destruct (String.eqb_spec k' k) as [->|Hne].
  - rewrite lookup_replace_eq in Hl. now injection Hl as <-.
  - rewrite lookup_replace_neq in Hl by assumption. eauto.
Qed.

Lemma shape_ok_update k f st :
  shape_ok st ->
  (forall r, Assoc.lookup k st = Some r -> vip_shape r -> vip_shape (f r)) ->
  shape_ok (Assoc.update k f st).
Proof.
  intros Hst Hf k' r' Hl. destruct (String.eqb_spec k' k) as [->|Hne].
  - rewrite lookup_update_eq in Hl.
    destruct (Assoc.lookup k st) as [r|] eqn:E; [|discriminate].
    injection Hl as <-. apply Hf; [reflexivity|]. eauto.
  - rewrite lookup_update_neq in Hl by assumption. eauto.
Qed.

Lemma vip_shape_backfill r t :
  truthy (trial_until r) = false -> vip_shape r ->
  vip_shape (mkRow (vip_until r) (Some t)).
Proof.
  unfold vip_shape, truthy. cbn. intros Ht [H|[H|H]]; auto.
  left. rewrite H. destruct (trial_until r) as [x|]; [|reflexivity].
  cbn. destruct (Z.eqb_spec x 0); [assumption|discriminate].
Qed.

Section PassInvariants.

Variable clock : nat -> N.
Variable guild : Guild.

Lemma ensureTrial_shape member w r w' :
  ensureTrialRecordFor clock member w = (r, w') ->
  shape_ok (store w) -> shape_ok (store w').
Proof.
  intros H Hst. unfold_all. run_ops.
  all: try assumption.
  all: first
    [ apply shape_ok_replace; [assumption|right; right; reflexivity]
    | apply shape_ok_update; [assumption|];
      intros r' Hl' Hs';
      match goal with
      | Hl : Assoc.lookup _ _ = Some ?r1 |- _ =>
          rewrite Hl in Hl'; injection Hl' as <-
      end;
      apply vip_shape_backfill; [|assumption];
      destruct (truthy (trial_until _)); [discriminate|reflexivity] ].
Qed.

Lemma setVipLifetime_shape member w r w' :
  setVipLifetime clock guild member w = (r, w') ->
  shape_ok (store w) -> shape_ok (store w').
Proof.
  intros H Hst. unfold setVipLifetime in H.
  unfold bind at 1 in H. unfold getVipRole in H.
  destruct (vipRole guild); cbn in H; [|now injection H as _ <-].
  unfold bind at 1 in H. unfold roles_add in H.
  destruct (rejectsAdd (info member)); [now injection H as _ <-|].
  unfold bind at 1 in H.
  match type of H with
  | context [ensureTrialRecordFor clock member ?w0] =>
      destruct (ensureTrialRecordFor clock member w0) as [re w1] eqn:E
  end.
  apply ensureTrial_shape in E; [|exact Hst].
  destruct re as [e|err]; [|now injection H as _ <-].
  unfold bind, Date_now, dbReplace, ret in H. run_ops.
  all: apply shape_ok_replace; [assumption|right; left; reflexivity].
Qed.

Lemma setVipToTrial_shape member w r w' :
  setVipToTrialRemainingOrRemove clock guild member w = (r, w') ->
  shape_ok (store w) -> shape_ok (store w').
Proof.
  intros H Hst. unfold setVipToTrialRemainingOrRemove in H.
  unfold bind at 1 in H. unfold getVipRole in H.
  destruct (vipRole guild); cbn in H; [|now injection H as _ <-].
  unfold bind at 1 in H.
  destruct (ensureTrialRecordFor clock member w) as [re w1] eqn:E.
  apply ensureTrial_shape in E; [|exact Hst].
  destruct re as [e|err]; [|now injection H as _ <-].
  unfold bind, Date_now, roles_add, roles_cache_has, catch_ignore, roles_remove,
    dbReplace, ret in H.
  run_ops.
  all: try assumption.
  all: apply shape_ok_replace; [assumption|].
  all: first [right; right; reflexivity | left; reflexivity].
Qed.

Lemma setVipLifetime_keeps_keys member w r w' k :
  setVipLifetime clock guild member w = (r, w') ->
  Assoc.lookup k (store w) <> None -> Assoc.lookup k (store w') <> None.
Proof.
  intros H Hk. unfold_all. run_ops.
  all: repeat first [assumption | apply lookup_replace_keeps | apply lookup_update_keeps].
Qed.

Lemma setVipToTrial_keeps_keys member w r w' k :
  setVipToTrialRemainingOrRemove clock guild member w = (r, w') ->
  Assoc.lookup k (store w) <> None -> Assoc.lookup k (store w') <> None.
Proof.
  intros H Hk. unfold_all. run_ops.
  all: repeat first [assumption | apply lookup_replace_keeps | apply lookup_update_keeps].
Qed.

End PassInvariants.

(** X9: a pass, however it ends (skipped, completed or failed), leaves the record
    and the role of every identifier that [guild.members.fetch] does not find
    exactly as they were. *)
Theorem pass_ignores_absent_members clock guild rows w r w' k :
  Assoc.lookup k (members guild) = None ->
  syncFromSheetOptimised clock guild rows w = (r, w') ->
  Assoc.lookup k (store w') = Assoc.lookup k (store w) /\ hasRole k w' = hasRole k w.
Proof.
  intros Habsent.
  apply (sync_rel clock guild
           (fun x y => Assoc.lookup k (store y) = Assoc.lookup k (store x)
                       /\ hasRole k y = hasRole k x)).
  - auto.
  - intros x y z [A1 A2] [B1 B2]. split; congruence.
  - auto.
  - auto.
  - intros k0 mi r0 x y Hm Hs.
    exact (setVipLifetime_frame _ _ _ _ _ _ k Hs ltac:(cbn; congruence)).
  - intros k0 mi r0 x y Hm Hs.
    exact (setVipToTrial_frame _ _ _ _ _ _ k Hs ltac:(cbn; congruence)).
  - intros k0 mi r0 x y Hm Hs. split.
    + now rewrite (removeVipIfHas_store _ _ _ _ _ Hs).
    + exact (removeVipIfHas_frame _ _ _ _ _ k Hs ltac:(cbn; congruence)).
Qed.

Lemma pass_ignores_absent_members_witness :
  let w := Scenario.world_of (Scenario.now - Scenario.day) (Scenario.now - Scenario.day)
             true in
  let p := syncFromSheetOptimised Scenario.clock Scenario.emptyGuild Scenario.roster123 w in
  Assoc.lookup "123" (store (snd p)) = Assoc.lookup "123" (store w) /\
  hasRole "123" (snd p) = hasRole "123" w.
Proof.
  cbv zeta.
  apply (pass_ignores_absent_members Scenario.clock Scenario.emptyGuild Scenario.roster123
           _ (fst (syncFromSheetOptimised Scenario.clock Scenario.emptyGuild
                     Scenario.roster123
                     (Scenario.world_of (Scenario.now - Scenario.day)
                        (Scenario.now - Scenario.day) true)))).
  - reflexivity.
  - apply surjective_pairing.
Defined.

(** X10: a pass never deletes a record: every identifier that has a row before the
    pass has one after it, however the pass ends. *)
Theorem pass_never_deletes clock guild rows w r w' k :
  syncFromSheetOptimised clock guild rows w = (r, w') ->
  Assoc.lookup k (store w) <> None -> Assoc.lookup k (store w') <> None.
Proof.
  apply (sync_rel clock guild
           (fun x y => Assoc.lookup k (store x) <> None ->
                       Assoc.lookup k (store y) <> None)).
  - auto.
  - auto.
  - auto.
  - auto.
  - intros k0 mi r0 x y _ Hs. exact (setVipLifetime_keeps_keys _ _ _ _ _ _ k Hs).
  - intros k0 mi r0 x y _ Hs. exact (setVipToTrial_keeps_keys _ _ _ _ _ _ k Hs).
  - intros k0 mi r0 x y _ Hs. now rewrite (removeVipIfHas_store _ _ _ _ _ Hs).
Qed.

Lemma pass_never_deletes_witness :
  Assoc.lookup "123"
    (store (snd (syncFromSheetOptimised Scenario.clock Scenario.guild
                   Scenario.rosterHeaderOnly
                   (Scenario.world_of LIFETIME_UNTIL (Scenario.now - Scenario.day) true))))
  <> None.
Proof.
  apply (pass_never_deletes Scenario.clock Scenario.guild Scenario.rosterHeaderOnly
           (Scenario.world_of LIFETIME_UNTIL (Scenario.now - Scenario.day) true)
           (fst (syncFromSheetOptimised Scenario.clock Scenario.guild
                   Scenario.rosterHeaderOnly
                   (Scenario.world_of LIFETIME_UNTIL (Scenario.now - Scenario.day) true)))).
  - apply surjective_pairing.
  - vm_compute. discriminate.
Defined.

(** X11: the shape of the stored [vip_until] is an invariant of the writers.  If
    every row's [vip_until] reads as 0, as the sentinel or as the row's own
    [trial_until], the same holds after a pass, however it ends, and after the
    join-time grant. *)
Theorem writers_keep_vip_shape clock guild w :
  shape_ok (store w) ->
  (forall rows r w', syncFromSheetOptimised clock guild rows w = (r, w') ->
                     shape_ok (store w')) /\
  (forall member r w', grantTrialOnJoin clock guild member w = (r, w') ->
                       shape_ok (store w')).
Proof.
  intros Hst. split.
  - intros rows r w' H. revert Hst. revert H.
    apply (sync_rel clock guild (fun x y => shape_ok (store x) -> shape_ok (store y))).
    + auto.
    + auto.
    + auto.
    + auto.
    + intros k0 mi r0 x y _ Hs. exact (setVipLifetime_shape _ _ _ _ _ _ Hs).
    + intros k0 mi r0 x y _ Hs. exact (setVipToTrial_shape _ _ _ _ _ _ Hs).
    + intros k0 mi r0 x y _ Hs. now rewrite (removeVipIfHas_store _ _ _ _ _ Hs).
  - intros member r w' H. unfold_all. run_ops; try assumption.
    apply shape_ok_replace; [assumption|right; right; reflexivity].
Qed.

Lemma writers_keep_vip_shape_witness :
  shape_ok
    (store (snd (syncFromSheetOptimised Scenario.clock Scenario.guild Scenario.rosterOther
                   (Scenario.world_of LIFETIME_UNTIL (Scenario.now + Scenario.day) true)))).
Proof.
  eapply (proj1 (writers_keep_vip_shape Scenario.clock Scenario.guild
                   (Scenario.world_of LIFETIME_UNTIL (Scenario.now + Scenario.day) true) _)).
  apply surjective_pairing.
  Unshelve.
  intros k r H. apply lookup_In in H. destruct H as [H|[]].
  injection H as _ <-. right. left. reflexivity.
Defined.

(** ** How a pass can fail *)

Section PassErrors.

Variable clock : nat -> N.
Variable guild : Guild.

Lemma setVipLifetime_error member w e w' :
  setVipLifetime clock guild member w = (Err e, w') -> transition_error guild member e.
Proof.
  intros H. unfold transition_error. unfold_all. run_ops; try discriminate.
  all: try match goal with H : Err _ = Err _ |- _ => injection H as <- end; auto.
Qed.

Lemma setVipToTrial_error member w e w' :
  setVipToTrialRemainingOrRemove clock guild member w = (Err e, w') ->
  transition_error guild member e.
Proof.
  intros H. unfold transition_error. unfold_all. run_ops; try discriminate.
  all: try match goal with H : Err _ = Err _ |- _ => injection H as <- end; auto.
Qed.

Lemma removeVipIfHas_error member w e w' :
  removeVipIfHas guild member w = (Err e, w') -> e = RoleNotFound /\ vipRole guild = false.
Proof.
  intros H. unfold_all. run_ops; try discriminate.
  all: try match goal with H : Err _ = Err _ |- _ => injection H as <- end; auto.
Qed.

Lemma transition_loop_error k mi e :
  Assoc.lookup k (members guild) = Some mi ->
  transition_error guild (mkMember k mi) e -> loop_error guild e.
Proof.
  intros Hm [H|[He Hr]]; [now left|]. right. exists k, mi. auto.
Qed.

Lemma grantLoop_error entries : forall n w e w',
  grantLoop clock guild entries n w = (Err e, w') -> loop_error guild e.
Proof.
  induction entries as [|[k0 a] rest IH]; intros n w e w' H; [discriminate|].
  rewrite grantLoop_cons in H.
  destruct a; [|eauto].
  destruct (Assoc.lookup k0 (members guild)) as [mi|] eqn:Em; [|eauto].
  destruct (setVipLifetime clock guild (mkMember k0 mi) w) as [[u|e0] w1] eqn:Es; [eauto|].
  injection H as <- _.
  exact (transition_loop_error _ _ _ Em (setVipLifetime_error _ _ _ _ Es)).
Qed.

Lemma downgradeLoop_error elig ids : forall n w e w',
  downgradeLoop clock guild elig ids n w = (Err e, w') -> loop_error guild e.
Proof.
  induction ids as [|k0 rest IH]; intros n w e w' H; [discriminate|].
  rewrite downgradeLoop_cons in H.
  destruct (Assoc.lookup k0 elig) as [[|]|]; [eauto| |].
  all: destruct (Assoc.lookup k0 (members guild)) as [mi|] eqn:Em; [|eauto].
  all: destruct (setVipToTrialRemainingOrRemove clock guild (mkMember k0 mi) w)
    as [[u|e0] w1] eqn:Es; [eauto|].
  all: injection H as <- _.
  all: exact (transition_loop_error _ _ _ Em (setVipToTrial_error _ _ _ _ Es)).
Qed.

Lemma expiryLoop_error rows : forall n w e w',
  expiryLoop clock guild rows n w = (Err e, w') -> loop_error guild e.
Proof.
  induction rows as [|[k0 r0] rest IH]; intros n w e w' H; [discriminate|].
  rewrite expiryLoop_cons in H.
  destruct ((orZero (vip_until r0) =? 0) || (LIFETIME_UNTIL <=? orZero (vip_until r0))
            || (Z.of_N (clock (tick w)) <? orZero (vip_until r0))); [eauto|].
  destruct (Assoc.lookup k0 (members guild)) as [mi|]; [|eauto].
  destruct (removeVipIfHas guild (mkMember k0 mi) (set_tick (S (tick w)) w))
    as [[u|e0] w1] eqn:Er; [eauto|].
  injection H as <- _. left. exact (removeVipIfHas_error _ _ _ _ Er).
Qed.

End PassErrors.

(** X12: how a pass fails on the platform and the roster.  With the roster fetched
    and every database statement succeeding (neither can fail in this model; the code
    does not catch them either), a pass that ends with an error ends with the guild
    not resolving, with the schema error of the roster, with the VIP role not
    resolving, or with the platform rejecting [roles.add] for a member it knows; a
    rejected role removal never ends a pass. *)
Theorem pass_failure_causes clock guild rows w e w' :
  syncFromSheetOptimised clock guild rows w = (Err e, w') ->
  (e = GuildUnavailable /\ guildOk guild = false) \/
  (exists msg, e = SchemaError msg /\ getEligibilityMap rows = Err e) \/
  (e = RoleNotFound /\ vipRole guild = false) \/
  (exists k mi, e = RoleAddRejected k /\ Assoc.lookup k (members guild) = Some mi
                /\ rejectsAdd mi = true).
Proof.
  unfold syncFromSheetOptimised.
  destruct (syncRunning w); [discriminate|].
  unfold bind at 1, Date_now, try_finally.
  match goal with
  | |- context [syncPass clock guild rows ?st ?w0] =>
      destruct (syncPass clock guild rows st w0) as [r1 w1] eqn:E
  end.
  intros H. injection H as -> _.
  unfold syncPass in E.
  unfold bind at 1 in E. unfold fetchGuild in E.
  destruct (guildOk guild); cbn [ret throw] in E;
    [|injection E as <- _; left; auto].
  unfold bind at 1 in E. unfold lift in E.
  destruct (getEligibilityMap rows) as [elig|e0] eqn:Eelig.
  2:{ injection E as <- _. right. left.
      unfold getEligibilityMap in Eelig.
      destruct (List.length rows <? 2)%nat; [discriminate|].
      destruct (_ =? -1); [injection Eelig as <-; eauto|].
      destruct (_ =? -1); [injection Eelig as <-; eauto|discriminate]. }
  unfold bind at 1 in E. unfold dbAll in E.
  unfold bind at 1 in E.
  match type of E with
  | context [grantLoop clock guild elig 0%nat ?w0] =>
      destruct (grantLoop clock guild elig 0%nat w0) as [[n1|e1] w2] eqn:Eg
  end.
  2:{ injection E as <- _. right. right. exact (grantLoop_error _ _ _ _ _ _ _ Eg). }
  unfold bind at 1 in E.
  match type of E with
  | context [downgradeLoop clock guild elig ?ids 0%nat w2] =>
      destruct (downgradeLoop clock guild elig ids 0%nat w2) as [[n2|e2] w3] eqn:Ed
  end.
  2:{ injection E as <- _. right. right. exact (downgradeLoop_error _ _ _ _ _ _ _ _ Ed). }
  unfold bind at 1 in E.
  match type of E with
  | context [expiryLoop clock guild ?rs 0%nat w3] =>
      destruct (expiryLoop clock guild rs 0%nat w3) as [[n3|e3] w4] eqn:Ee
  end.
  2:{ injection E as <- _. right. right. exact (expiryLoop_error _ _ _ _ _ _ _ Ee). }
  cbn in E. discriminate.
Qed.

Lemma pass_failure_causes_witness :
  (RoleAddRejected "123" = GuildUnavailable /\ guildOk Scenario.strictGuild = false) \/
  (exists msg, RoleAddRejected "123" = SchemaError msg
               /\ getEligibilityMap Scenario.rosterBoth = Err (RoleAddRejected "123")) \/
  (RoleAddRejected "123" = RoleNotFound /\ vipRole Scenario.strictGuild = false) \/
  (exists k mi, RoleAddRejected "123" = RoleAddRejected k
                /\ Assoc.lookup k (members Scenario.strictGuild) = Some mi
                /\ rejectsAdd mi = true).
Proof.
  eapply (pass_failure_causes Scenario.clock Scenario.strictGuild Scenario.rosterBoth
            Scenario.emptyWorld).
  vm_compute. reflexivity.
Defined.

(** ** What the summary counts *)

Section Counts.

Variable clock : nat -> N.
Variable guild : Guild.

Lemma downgradeLoop_count elig ids : forall n w n' w',
  downgradeLoop clock guild elig ids n w = (Ok n', w') ->
  n' = (n + List.length (filter (toDowngrade guild elig) ids))%nat.
Proof.
  unfold toDowngrade.
  induction ids as [|k0 rest IH]; intros n w n' w' H.
  - injection H as <- _. cbn. lia.
  - rewrite downgradeLoop_cons in H. cbn [filter].
    destruct (Assoc.lookup k0 elig) as [[|]|]; cbn [negb andb]; [eauto| |].
    all: destruct (Assoc.lookup k0 (members guild)) as [mi|]; [|eauto].
    all: destruct (setVipToTrialRemainingOrRemove clock guild (mkMember k0 mi) w)
      as [[u|e] w1]; [|discriminate].
    all: apply IH in H; cbn [List.length]; lia.
Qed.

Lemma expiryLoop_count rows : forall n w n' w',
  expiryLoop clock guild rows n w = (Ok n', w') ->
  (n <= n' <= n + List.length rows)%nat.
Proof.
  induction rows as [|[k0 r0] rest IH]; intros n w n' w' H.
  - injection H as <- _. cbn. lia.
  - rewrite expiryLoop_cons in H. cbn [List.length].
    destruct ((orZero (vip_until r0) =? 0) || (LIFETIME_UNTIL <=? orZero (vip_until r0))
              || (Z.of_N (clock (tick w)) <? orZero (vip_until r0)));
      [apply IH in H; lia|].
    destruct (Assoc.lookup k0 (members guild)) as [mi|]; [|apply IH in H; lia].
    destruct (removeVipIfHas guild (mkMember k0 mi) (set_tick (S (tick w)) w))
      as [[u|e] w1]; [|discriminate].
    apply IH in H. lia.
Qed.

End Counts.

(** X13: what the summary of a completed pass counts.  [lifetimeEnsured] is the
    number of roster identifiers that are approved and found on the platform,
    [lifetimeDowngraded] the number of stored-lifetime identifiers that are not
    approved and are found on the platform, [totalSheet] the size of the eligibility
    map; [expiredRemoved] is at most the number of stored rows. *)
Theorem pass_summary_counts clock guild rows w s w' elig :
  syncFromSheetOptimised clock guild rows w = (Ok (Done s), w') ->
  getEligibilityMap rows = Ok elig ->
  lifetimeEnsured s = List.length (filter (toEnsure guild) elig) /\
  lifetimeDowngraded s
  = List.length (filter (toDowngrade guild elig) (lifetimeInDb_of (store w))) /\
  totalSheet s = List.length elig /\
  (lifetimeEnsured s <= totalSheet s)%nat /\
  (expiredRemoved s <= List.length (store w))%nat.
Proof.
  intros Hsync Helig.
  destruct (sync_done_inv _ _ _ _ _ _ Hsync)
    as (elig' & n1 & w1 & n2 & w2 & n3 & w3 & _ & _ & Helig' & Hg & Hd & He
        & -> & -> & -> & -> & _).
  rewrite Helig in Helig'. injection Helig' as <-.
  apply grantLoop_count in Hg. apply downgradeLoop_count in Hd.
  apply expiryLoop_count in He. cbn in Hg, Hd.
  assert (Hfilter : (List.length (filter (toEnsure guild) elig) <= List.length elig)%nat)
    by apply filter_length_le.
  unfold toEnsure in *. repeat split; try assumption; lia.
Qed.

Lemma pass_summary_counts_witness :
  let s := mkSummary 2 0 1 0 2 in
  lifetimeEnsured s = 2%nat /\ lifetimeDowngraded s = 0%nat /\ totalSheet s = 2%nat /\
  (lifetimeEnsured s <= totalSheet s)%nat /\ (expiredRemoved s <= 1)%nat.
Proof.
  cbv zeta.
  apply (pass_summary_counts Scenario.clock Scenario.guild Scenario.rosterBoth
           (Scenario.world_of (Scenario.now - Scenario.day) 0 true)
           (mkSummary 2 0 1 0 2)
           (snd (syncFromSheetOptimised Scenario.clock Scenario.guild Scenario.rosterBoth
                   (Scenario.world_of (Scenario.now - Scenario.day) 0 true)))
           [("123", true); ("456", true)]).
  - vm_compute. reflexivity.
  - reflexivity.
Defined.

(** ** What a completed pass does to one member *)

Section MemberOutcomes.

Variable clock : nat -> N.
Variable guild : Guild.

Lemma setVipLifetime_fresh member w u w' j :
  setVipLifetime clock guild member w = (Ok u, w') ->
  Assoc.lookup (member_id member) (store w) = None ->
  joinedTimestamp (info member) = Some j -> 0 < j ->
  Assoc.lookup (member_id member) (store w')
  = Some (mkRow (Some LIFETIME_UNTIL) (Some (j + ONE_MONTH))).
Proof.
  intros H Hl Hj Hpos.
  assert (Htruthy : truthy (Some j) = true).
  { unfold truthy. destruct (Z.eqb_spec j 0); [lia|reflexivity]. }
  assert (Hnz : (j + ONE_MONTH =? 0) = false)
    by (apply Z.eqb_neq; unfold ONE_MONTH; lia).
  unfold_all. rewrite Hj, Htruthy in H. cbn in H.
  destruct (vipRole guild); [|discriminate]. cbn in H.
  destruct (rejectsAdd (info member)); [discriminate|]. cbn in H.
  rewrite Hl in H. cbn in H. change (orZero (Some j)) with j in H.
  rewrite Hnz in H. cbn in H. injection H as _ <-. cbn.
  apply lookup_replace_eq.
Qed.

Lemma setVipLifetime_again member w u w' t :
  setVipLifetime clock guild member w = (Ok u, w') ->
  Assoc.lookup (member_id member) (store w) = Some (mkRow (Some LIFETIME_UNTIL) (Some t)) ->
  t <> 0 ->
  Assoc.lookup (member_id member) (store w') = Some (mkRow (Some LIFETIME_UNTIL) (Some t)).
Proof.
  intros H Hl Hnz.
  destruct (setVipLifetime_ok _ _ _ _ _ _ H) as (_ & _ & _ & [t' Ht'] & _).
  assert (Htrial : storedTrialUntil (member_id member) w = t)
    by (unfold storedTrialUntil; now rewrite Hl).
  pose proof (setVipLifetime_keeps_trial _ _ _ _ _ _ H) as Hkeep.
  rewrite Htrial in Hkeep. specialize (Hkeep Hnz).
  unfold storedTrialUntil in Hkeep. rewrite Ht' in Hkeep. cbn in Hkeep.
  change (orZero (Some t')) with t' in Hkeep. now rewrite Ht', Hkeep.
Qed.

Lemma grantLoop_fresh entries k mi j : forall n w n' w',
  Assoc.lookup k (members guild) = Some mi ->
  joinedTimestamp mi = Some j -> 0 < j ->
  grantLoop clock guild entries n w = (Ok n', w') ->
  Assoc.lookup k (store w) = Some (mkRow (Some LIFETIME_UNTIL) (Some (j + ONE_MONTH))) \/
  (Assoc.lookup k (store w) = None /\ In (k, true) entries) ->
  Assoc.lookup k (store w') = Some (mkRow (Some LIFETIME_UNTIL) (Some (j + ONE_MONTH))).
Proof.
  intros n w n' w' Hm Hj Hpos. revert n w n' w'.
  induction entries as [|[k0 a] rest IH]; intros n w n' w' H Hk.
  - injection H as _ <-. destruct Hk as [Hk|[_ []]]. exact Hk.
  - rewrite grantLoop_cons in H.
    destruct a.
    2:{ apply (IH _ _ _ _ H). destruct Hk as [Hk|[Hk [Hin|Hin]]]; auto; discriminate. }
    destruct (Assoc.lookup k0 (members guild)) as [mi0|] eqn:Em.
    2:{ apply (IH _ _ _ _ H). destruct Hk as [Hk|[Hk [Hin|Hin]]]; auto.
        injection Hin as ->. congruence. }
    destruct (setVipLifetime clock guild (mkMember k0 mi0) w) as [[u|e] w1] eqn:Es;
      [|discriminate].
    apply (IH _ _ _ _ H).
    destruct (String.eqb_spec k k0) as [->|Hne].
    + left. rewrite Hm in Em. injection Em as <-.
      destruct Hk as [Hk|[Hk _]].
      * apply (setVipLifetime_again (mkMember k0 mi) _ _ _ _ Es Hk).
        unfold ONE_MONTH. lia.
      * exact (setVipLifetime_fresh (mkMember k0 mi) _ _ _ _ Es Hk Hj Hpos).
    + destruct (setVipLifetime_frame _ _ _ _ _ _ k Es Hne) as [E1 _]. rewrite E1.
      destruct Hk as [Hk|[Hk [Hin|Hin]]]; [now left|congruence|right; auto].
Qed.

Lemma setVipToTrial_over member w x w' r0 t :
  setVipToTrialRemainingOrRemove clock guild member w = (Ok x, w') ->
  Assoc.lookup (member_id member) (store w) = Some r0 ->
  trial_until r0 = Some t -> t <> 0 ->
  readings clock w w' (fun now => t <= now) ->
  Assoc.lookup (member_id member) (store w') = Some (mkRow (Some 0) (Some t)) /\
  (rejectsRemove (info member) = false \/ hasRole (member_id member) w = false ->
   hasRole (member_id member) w' = false).
Proof.
  intros H Hl Ht Hnz Hpast.
  unfold setVipToTrialRemainingOrRemove in H.
  apply bind_ok_inv in H. destruct H as (u & w0 & Hrole & H).
  assert (w0 = w) as -> by (unfold_all; run_ops; reflexivity).
  apply bind_ok_inv in H. destruct H as (e & w1 & He & H).
  pose proof (ensureTrial_tick _ _ _ _ _ He) as Ht1.
  assert (Ht2 : (S (tick w1) <= tick w')%nat) by (clear He; unfold_all; run_ops; lia).
  assert (Hge : t <= Z.of_N (clock (tick w1))) by (apply Hpast; lia).
  assert (Htruthy : truthy (trial_until r0) = true).
  { rewrite Ht. unfold truthy. destruct (Z.eqb_spec t 0); [contradiction|reflexivity]. }
  destruct (ensureTrial_existing _ _ _ _ _ _ He Hl Htruthy) as [Hres Hstore].
  destruct (ensureTrial_frame _ _ _ _ _ He) as (e' & _ & Hroles & _).
  injection Hres as ->. clear He Hpast Ht1 Ht2.
  cbn in H. rewrite Ht in H. cbn in H.
  change (orZero (Some t)) with t in H.
  assert (Hltb : (Z.of_N (clock (tick w1)) <? t) = false) by (apply Z.ltb_ge; lia).
  rewrite Hltb in H.
  assert (Hrw : forall k, hasRole k w1 = hasRole k w)
    by (intros k; unfold hasRole; now rewrite Hroles).
  unfold_all. run_ops.
  all: rewrite ?lookup_replace_eq; role_simpl; rewrite ?String.eqb_refl; cbn.
  all: split; [reflexivity|]; intros [Hr|Hr]; try reflexivity; try congruence.
  all: try (rewrite <- Hrw; assumption).
  all: try (rewrite Hrw in *; congruence).
  all: match goal with Hc : hasRole _ (set_tick _ _) = false |- _ => exact Hc end.
Qed.

Lemma downgradeLoop_over elig ids t : forall n w n' w' k mi,
  t <> 0 -> readings clock w w' (fun now => t <= now) ->
  Assoc.lookup k (members guild) = Some mi -> rejectsRemove mi = false ->
  downgradeLoop clock guild elig ids n w = (Ok n', w') ->
  (hasRole k w = false /\
   Assoc.lookup k (store w) = Some (mkRow (Some 0) (Some t))) \/
  ((exists r0, Assoc.lookup k (store w) = Some r0 /\ trial_until r0 = Some t) /\
   In k ids /\ ~ approved elig k) ->
  hasRole k w' = false /\
  Assoc.lookup k (store w') = Some (mkRow (Some 0) (Some t)).
Proof.
  unfold approved.
  induction ids as [|k0 rest IH]; intros n w n' w' k mi Hnz Hpast Hm Hrej H Hk.
  - injection H as <- <-. destruct Hk as [Hk|(_ & [] & _)]. exact Hk.
  - rewrite downgradeLoop_cons in H.
    assert (Hskip :
              Assoc.lookup k0 elig = Some true \/ Assoc.lookup k0 (members guild) = None ->
              downgradeLoop clock guild elig rest n w = (Ok n', w') ->
              hasRole k w' = false /\
              Assoc.lookup k (store w') = Some (mkRow (Some 0) (Some t))).
    { intros Hs H1. apply (IH _ _ _ _ k mi Hnz Hpast Hm Hrej H1).
      destruct Hk as [Hk|(Hr & [Hin|Hin] & Ha)]; [now left| |right; auto].
      subst k0. destruct Hs; [contradiction|congruence]. }
    assert (Hstep : forall mi0 u w1,
              Assoc.lookup k0 (members guild) = Some mi0 ->
              setVipToTrialRemainingOrRemove clock guild (mkMember k0 mi0) w = (Ok u, w1) ->
              downgradeLoop clock guild elig rest (S n) w1 = (Ok n', w') ->
              hasRole k w' = false /\
              Assoc.lookup k (store w') = Some (mkRow (Some 0) (Some t))).
    { intros mi0 u w1 Em Es H1.
      pose proof (setVipToTrial_tick _ _ _ _ _ _ Es) as T1.
      pose proof (downgradeLoop_tick _ _ _ _ _ _ _ _ H1) as T2.
      apply (IH _ _ _ _ k mi Hnz (readings_mono _ _ _ _ _ _ T1 (le_n _) Hpast) Hm Hrej H1).
      destruct (String.eqb_spec k k0) as [->|Hne].
      - left. rewrite Hm in Em. injection Em as <-.
        assert (Hrec : exists r0, Assoc.lookup k0 (store w) = Some r0
                                  /\ trial_until r0 = Some t).
        { destruct Hk as [[_ Hk]|(Hr & _)]; [eauto|exact Hr]. }
        destruct Hrec as (r0 & Hl & Ht).
        destruct (setVipToTrial_over (mkMember k0 mi) _ _ _ _ _ Es Hl Ht Hnz
                    (readings_mono _ _ _ _ _ _ (le_n _) T2 Hpast)) as [Hrec Hrole].
        split; [|exact Hrec]. apply Hrole. now left.
      - destruct (setVipToTrial_frame _ _ _ _ _ _ k Es Hne) as [E1 E2].
        rewrite E1, E2.
        destruct Hk as [Hk|(Hr & [Hin|Hin] & Ha)];
          [now left|congruence|right; auto]. }
    destruct (Assoc.lookup k0 elig) as [[|]|] eqn:Ea; [auto| |].
    all: destruct (Assoc.lookup k0 (members guild)) as [mi0|] eqn:Em; [|auto].
    all: destruct (setVipToTrialRemainingOrRemove clock guild (mkMember k0 mi0) w)
      as [[u|e] w1] eqn:Es; [eauto|discriminate].
Qed.

(** The expiry loop leaves the role of a member alone when every snapshot row of
    that member is skipped: no expiry, the sentinel, or an expiry after every clock
    reading of the loop. *)
Lemma expiryLoop_skips rows : forall n w r w' k,
  expiryLoop clock guild rows n w = (r, w') ->
  (forall r0, In (k, r0) rows ->
     orZero (vip_until r0) = 0 \/ LIFETIME_UNTIL <= orZero (vip_until r0)
     \/ readings clock w w' (fun now => now < orZero (vip_until r0))) ->
  hasRole k w' = hasRole k w.
Proof.
  induction rows as [|[k0 r0] rest IH]; intros n w r w' k H Hk.
  - now injection H as <- <-.
  - rewrite expiryLoop_cons in H.
    assert (Hrest : forall w1, (tick w <= tick w1)%nat -> forall r1, In (k, r1) rest ->
              orZero (vip_until r1) = 0 \/ LIFETIME_UNTIL <= orZero (vip_until r1)
              \/ readings clock w1 w' (fun now => now < orZero (vip_until r1))).
    { intros w1 Hw1 r1 Hin. destruct (Hk r1 (or_intror Hin)) as [Hz|[Hl|Hf]]; auto.
      right. right. exact (readings_mono _ _ _ _ _ _ Hw1 (le_n _) Hf). }
    destruct ((orZero (vip_until r0) =? 0) || (LIFETIME_UNTIL <=? orZero (vip_until r0)))
      eqn:Eskip; cbn [orb] in H.
    { exact (IH _ _ _ _ k H (Hrest w (le_n _))). }
    destruct (Z.of_N (clock (tick w)) <? orZero (vip_until r0)) eqn:Enow.
    { rewrite (IH _ _ _ _ k H (Hrest (set_tick (S (tick w)) w) ltac:(cbn; lia))). reflexivity. }
    assert (Hne : k <> k0).
    { intros ->. destruct (Hk r0 (or_introl eq_refl)) as [Hz|[Hl|Hf]].
      - apply Z.eqb_eq in Hz. rewrite Hz in Eskip. discriminate.
      - apply Z.leb_le in Hl. rewrite Hl, orb_true_r in Eskip. discriminate.
      - apply Z.ltb_ge in Enow.
        assert (Htick : (tick w < tick w')%nat).
        { destruct (Assoc.lookup k0 (members guild)) as [mi|].
          - destruct (removeVipIfHas guild (mkMember k0 mi) (set_tick (S (tick w)) w))
              as [[u|e] w1] eqn:Er; apply removeVipIfHas_tick in Er; cbn in Er.
            + apply expiryLoop_tick in H. lia.
            + injection H as _ <-. lia.
          - apply expiryLoop_tick in H. cbn in H. lia. }
        assert (Z.of_N (clock (tick w)) < orZero (vip_until r0)) by (apply Hf; lia).
        lia. }
    destruct (Assoc.lookup k0 (members guild)) as [mi|].
    2:{ rewrite (IH _ _ _ _ k H (Hrest (set_tick (S (tick w)) w) ltac:(cbn; lia))). reflexivity. }
    destruct (removeVipIfHas guild (mkMember k0 mi) (set_tick (S (tick w)) w))
      as [[u|e] w1] eqn:Er.
    + pose proof (removeVipIfHas_tick _ _ _ _ _ Er) as T1. cbn in T1.
      rewrite (IH _ _ _ _ k H (Hrest w1 ltac:(lia))).
      exact (removeVipIfHas_frame _ _ _ _ _ k Er Hne).
    + injection H as _ <-. exact (removeVipIfHas_frame _ _ _ _ _ k Er Hne).
Qed.

Lemma statusQuery_lifetime k w :
  storedVipUntil k w = LIFETIME_UNTIL ->
  statusQuery clock k w = (Ok LifetimeAccess, w).
Proof.
  unfold storedVipUntil, statusQuery, bind, dbGet, ret.
  destruct (Assoc.lookup k (store w)) as [r|]; [|discriminate].
  intros Hv. unfold truthy. destruct (vip_until r) as [v|]; [|discriminate].
  change (orZero (Some v)) with v in Hv. subst v. reflexivity.
Qed.

Lemma statusQuery_expired k w r0 :
  Assoc.lookup k (store w) = Some r0 ->
  orZero (vip_until r0) <> 0 -> orZero (vip_until r0) < LIFETIME_UNTIL ->
  orZero (vip_until r0) <= Z.of_N (clock (tick w)) ->
  fst (statusQuery clock k w) = Ok Expired.
Proof.
  intros Hl Hnz Hlt Hpast. unfold statusQuery, bind, dbGet, Date_now, ret.
  rewrite Hl. unfold truthy. destruct (vip_until r0) as [v|]; [|now elim Hnz].
  change (orZero (Some v)) with v in *.
  destruct (Z.eqb_spec v 0); [contradiction|]. cbn [negb].
  destruct (Z.leb_spec LIFETIME_UNTIL v); [lia|].
  destruct (Z.ltb_spec (Z.of_N (clock (tick w))) v); [lia|reflexivity].
Qed.

End MemberOutcomes.

(** X14: first approval.  An approved member found on the platform, with a known
    join time after the epoch and no record yet, comes out of a completed pass
    holding the role, with [vip_until] at the sentinel and [trial_until] backfilled
    to the join time plus [ONE_MONTH]. *)
Theorem first_approval clock guild rows w s w' elig k mi j :
  syncFromSheetOptimised clock guild rows w = (Ok (Done s), w') ->
  getEligibilityMap rows = Ok elig ->
  approved elig k ->
  Assoc.lookup k (members guild) = Some mi ->
  joinedTimestamp mi = Some j -> 0 < j ->
  Assoc.lookup k (store w) = None ->
  hasRole k w' = true /\
  Assoc.lookup k (store w') = Some (mkRow (Some LIFETIME_UNTIL) (Some (j + ONE_MONTH))).
Proof.
  intros Hsync Helig Ha Hm Hj Hpos Hnone.
  destruct (sync_done_inv _ _ _ _ _ _ Hsync)
    as (elig' & n1 & w1 & n2 & w2 & n3 & w3 & _ & _ & Helig' & Hg & Hd & He
        & _ & _ & _ & _ & Hs' & Hr' & _).
  rewrite Helig in Helig'. injection Helig' as <-.
  assert (Hin : In (k, true) elig) by now apply lookup_In.
  assert (Hpres : Assoc.lookup k (members guild) <> None) by congruence.
  destruct (grantLoop_hit _ _ _ _ _ _ _ k Hg (or_intror (conj Hin Hpres))) as [_ Hr1].
  pose proof (grantLoop_fresh _ _ _ _ _ _ _ _ _ _ Hm Hj Hpos Hg
                (or_intror (conj Hnone Hin))) as Hrec1.
  destruct (downgradeLoop_frame _ _ _ _ _ _ _ _ k Hd (or_intror (or_introl Ha)))
    as [E2 R2].
  rewrite (hasRole_roleHolders k _ _ Hr'), Hs'.
  rewrite (expiryLoop_store _ _ _ _ _ _ _ He). split; [|congruence].
  rewrite (expiryLoop_frame _ _ _ _ _ _ _ k He); [congruence|].
  intros r1 Hin1. exfalso. exact (lookup_None_In _ _ _ Hnone Hin1).
Qed.

Lemma first_approval_witness :
  let w' := snd (syncFromSheetOptimised Scenario.clock Scenario.guild Scenario.roster123
                   Scenario.emptyWorld) in
  hasRole "123" w' = true /\
  Assoc.lookup "123" (store w')
  = Some (mkRow (Some LIFETIME_UNTIL) (Some (1690000000000 + ONE_MONTH))).
Proof.
  cbv zeta.
  eapply (first_approval Scenario.clock Scenario.guild Scenario.roster123
            Scenario.emptyWorld _ _ _ "123" Scenario.regular).
  - vm_compute. reflexivity.
  - vm_compute. reflexivity.
  - vm_compute. reflexivity.
  - vm_compute. reflexivity.
  - reflexivity.
  - reflexivity.
  - reflexivity.
Defined.

(** X15: revocation after the trial.  A member found on the platform whose stored
    [vip_until] is at least the sentinel, who is not approved, whose non-zero
    [trial_until] is not after any clock reading of the pass, and whose role removal
    the platform accepts, comes out of a completed pass without the role, with
    [vip_until] 0 and [trial_until] kept. *)
Theorem revocation_after_trial clock guild rows w s w' elig k mi r0 t :
  syncFromSheetOptimised clock guild rows w = (Ok (Done s), w') ->
  getEligibilityMap rows = Ok elig ->
  ~ approved elig k ->
  Assoc.lookup k (members guild) = Some mi ->
  rejectsRemove mi = false ->
  Assoc.lookup k (store w) = Some r0 ->
  LIFETIME_UNTIL <= orZero (vip_until r0) ->
  trial_until r0 = Some t -> t <> 0 ->
  readings clock w w' (fun now => t <= now) ->
  hasRole k w' = false /\
  Assoc.lookup k (store w') = Some (mkRow (Some 0) (Some t)).
Proof.
  intros Hsync Helig Hna Hm Hrej Hl Hv Ht Hnz Hpast.
  destruct (sync_done_inv _ _ _ _ _ _ Hsync)
    as (elig' & n1 & w1 & n2 & w2 & n3 & w3 & _ & _ & Helig' & Hg & Hd & He
        & _ & _ & _ & _ & Hs' & Hr' & _ & Ht').
  rewrite Helig in Helig'. injection Helig' as <-.
  destruct (sync_ticks _ _ _ _ _ _ _ _ _ _ _ Hg Hd He Ht') as (T1 & T2 & T3 & T4).
  assert (Hpast2 : readings clock w1 w2 (fun now => t <= now))
    by (apply (readings_mono clock _ w w'); [lia|lia|exact Hpast]).
  pose proof (getEligibilityMap_NoDup _ _ Helig) as Hnd.
  assert (Hframe : ~ In (k, true) elig \/ Assoc.lookup k (members guild) = None)
    by (left; now rewrite approved_In).
  destruct (grantLoop_frame _ _ _ _ _ _ _ k Hg Hframe) as [E1 _].
  change (store (passStart w)) with (store w) in E1.
  assert (Hover : hasRole k w2 = false /\
                  Assoc.lookup k (store w2) = Some (mkRow (Some 0) (Some t))).
  { apply (downgradeLoop_over _ _ _ _ _ _ _ _ _ k mi Hnz Hpast2 Hm Hrej Hd). right.
    repeat split.
    - exists r0. split; [congruence|assumption].
    - eapply lifetimeInDb_of_lookup; eassumption.
    - exact Hna. }
  destruct Hover as [Hrole Hrec].
  rewrite (hasRole_roleHolders k _ _ Hr'), Hs'.
  rewrite (expiryLoop_store _ _ _ _ _ _ _ He). split; [|exact Hrec].
  exact (expiryLoop_no_grant _ _ _ _ _ _ _ k He Hrole).
Qed.

Lemma revocation_after_trial_witness :
  let t := Scenario.now - Scenario.day in
  let w' := snd (syncFromSheetOptimised Scenario.clock Scenario.guild Scenario.rosterOther
                   (Scenario.world_of LIFETIME_UNTIL t true)) in
  hasRole "123" w' = false /\
  Assoc.lookup "123" (store w') = Some (mkRow (Some 0) (Some t)).
Proof.
  cbv zeta.
  eapply (revocation_after_trial Scenario.clock Scenario.guild Scenario.rosterOther
            (Scenario.world_of LIFETIME_UNTIL (Scenario.now - Scenario.day) true)
            _ _ _ "123" Scenario.regular).
  - vm_compute. reflexivity.
  - vm_compute. reflexivity.
  - vm_compute. discriminate.
  - vm_compute. reflexivity.
  - reflexivity.
  - vm_compute. reflexivity.
  - vm_compute. discriminate.
  - vm_compute. reflexivity.
  - vm_compute. discriminate.
  - intros i _. vm_compute. discriminate.
Defined.

(** X16: expiry.  A member found on the platform who is not approved and whose
    stored [vip_until] is non-zero, below the sentinel and not after any clock
    reading of the pass comes out of a completed pass without the role (the platform
    accepting the removal) and with the record untouched; a status query made then,
    with the expiry still not after its clock reading, answers "expired". *)
Theorem expiry_enforced clock guild rows w s w' elig k mi r0 :
  keys_ok (store w) ->
  syncFromSheetOptimised clock guild rows w = (Ok (Done s), w') ->
  getEligibilityMap rows = Ok elig ->
  ~ approved elig k ->
  Assoc.lookup k (members guild) = Some mi ->
  rejectsRemove mi = false ->
  Assoc.lookup k (store w) = Some r0 ->
  orZero (vip_until r0) <> 0 ->
  orZero (vip_until r0) < LIFETIME_UNTIL ->
  readings clock w w' (fun now => orZero (vip_until r0) <= now) ->
  orZero (vip_until r0) <= Z.of_N (clock (tick w')) ->
  hasRole k w' = false /\
  Assoc.lookup k (store w') = Some r0 /\
  fst (statusQuery clock k w') = Ok Expired.
Proof.
  intros Hk Hsync Helig Hna Hm Hrej Hl Hv0 Hvl Hpast Hnext.
  destruct (sync_done_inv _ _ _ _ _ _ Hsync)
    as (elig' & n1 & w1 & n2 & w2 & n3 & w3 & _ & _ & Helig' & Hg & Hd & He
        & _ & _ & _ & _ & Hs' & Hr' & _ & Ht').
  rewrite Helig in Helig'. injection Helig' as <-.
  destruct (sync_ticks _ _ _ _ _ _ _ _ _ _ _ Hg Hd He Ht') as (T1 & T2 & T3 & T4).
  assert (Hpast3 : readings clock w2 w3 (fun now => orZero (vip_until r0) <= now))
    by (apply (readings_mono clock _ w w'); [lia|lia|exact Hpast]).
  pose proof (getEligibilityMap_NoDup _ _ Helig) as Hnd.
  assert (Hframe : ~ In (k, true) elig \/ Assoc.lookup k (members guild) = None)
    by (left; now rewrite approved_In).
  destruct (grantLoop_frame _ _ _ _ _ _ _ k Hg Hframe) as [E1 _].
  change (store (passStart w)) with (store w) in E1.
  assert (Hnotin : ~ In k (lifetimeInDb_of (store w))).
  { intros Hin. apply lifetimeInDb_of_In in Hin. destruct Hin as (r1 & Hin & Hge).
    apply (In_lookup _ _ _ Hk) in Hin. rewrite Hl in Hin. injection Hin as <-. lia. }
  destruct (downgradeLoop_frame _ _ _ _ _ _ _ _ k Hd (or_introl Hnotin)) as [E2 _].
  assert (Hrec : Assoc.lookup k (store w') = Some r0).
  { rewrite Hs', (expiryLoop_store _ _ _ _ _ _ _ He). congruence. }
  split; [|split; [exact Hrec|]].
  - rewrite (hasRole_roleHolders k _ _ Hr').
    apply (expiryLoop_hit _ _ _ _ _ _ _ _ k mi Hv0 Hvl Hpast3 Hm Hrej He).
    right. exists r0. split; [now apply lookup_In|reflexivity].
  - exact (statusQuery_expired _ _ _ _ Hrec Hv0 Hvl Hnext).
Qed.

Lemma expiry_enforced_witness :
  let w := Scenario.world_of (Scenario.now - Scenario.day) (Scenario.now - Scenario.day)
             true in
  let w' := snd (syncFromSheetOptimised Scenario.clock Scenario.guild Scenario.rosterOther
                   w) in
  hasRole "123" w' = false /\
  Assoc.lookup "123" (store w') = Assoc.lookup "123" (store w) /\
  fst (statusQuery Scenario.clock "123" w') = Ok Expired.
Proof.
  cbv zeta.
  eapply (expiry_enforced Scenario.clock Scenario.guild Scenario.rosterOther
            (Scenario.world_of (Scenario.now - Scenario.day)
               (Scenario.now - Scenario.day) true)
            _ _ _ "123" Scenario.regular).
  - repeat constructor. cbn. tauto.
  - vm_compute. reflexivity.
  - vm_compute. reflexivity.
  - vm_compute. discriminate.
  - vm_compute. reflexivity.
  - reflexivity.
  - vm_compute. reflexivity.
  - vm_compute. discriminate.
  - vm_compute. reflexivity.
  - intros i _. vm_compute. discriminate.
  - vm_compute. discriminate.
Defined.

(** X17: a running trial is left alone.  A member who is not approved and whose
    stored [vip_until] is below the sentinel and after every clock reading of the
    pass has the same record and the same role state after a completed pass,
    whether or not the platform knows the member. *)
Theorem running_trial_untouched clock guild rows w s w' elig k r0 :
  keys_ok (store w) ->
  syncFromSheetOptimised clock guild rows w = (Ok (Done s), w') ->
  getEligibilityMap rows = Ok elig ->
  ~ approved elig k ->
  Assoc.lookup k (store w) = Some r0 ->
  orZero (vip_until r0) < LIFETIME_UNTIL ->
  readings clock w w' (fun now => now < orZero (vip_until r0)) ->
  Assoc.lookup k (store w') = Some r0 /\ hasRole k w' = hasRole k w.
Proof.
  intros Hk Hsync Helig Hna Hl Hvl Hfut.
  destruct (sync_done_inv _ _ _ _ _ _ Hsync)
    as (elig' & n1 & w1 & n2 & w2 & n3 & w3 & _ & _ & Helig' & Hg & Hd & He
        & _ & _ & _ & _ & Hs' & Hr' & _ & Ht').
  rewrite Helig in Helig'. injection Helig' as <-.
  destruct (sync_ticks _ _ _ _ _ _ _ _ _ _ _ Hg Hd He Ht') as (T1 & T2 & T3 & T4).
  assert (Hfut3 : readings clock w2 w3 (fun now => now < orZero (vip_until r0)))
    by (apply (readings_mono clock _ w w'); [lia|lia|exact Hfut]).
  pose proof (getEligibilityMap_NoDup _ _ Helig) as Hnd.
  assert (Hframe : ~ In (k, true) elig \/ Assoc.lookup k (members guild) = None)
    by (left; now rewrite approved_In).
  destruct (grantLoop_frame _ _ _ _ _ _ _ k Hg Hframe) as [E1 R1].
  change (store (passStart w)) with (store w) in E1.
  change (hasRole k (passStart w)) with (hasRole k w) in R1.
  assert (Hnotin : ~ In k (lifetimeInDb_of (store w))).
  { intros Hin. apply lifetimeInDb_of_In in Hin. destruct Hin as (r1 & Hin & Hge).
    apply (In_lookup _ _ _ Hk) in Hin. rewrite Hl in Hin. injection Hin as <-. lia. }
  destruct (downgradeLoop_frame _ _ _ _ _ _ _ _ k Hd (or_introl Hnotin)) as [E2 R2].
  split.
  - rewrite Hs', (expiryLoop_store _ _ _ _ _ _ _ He). congruence.
  - rewrite (hasRole_roleHolders k _ _ Hr').
    rewrite (expiryLoop_skips _ _ _ _ _ _ _ k He); [congruence|].
    intros r1 Hin. apply (In_lookup _ _ _ Hk) in Hin. rewrite Hl in Hin.
    injection Hin as <-. auto.
Qed.

Lemma running_trial_untouched_witness :
  let w := Scenario.world_of (Scenario.now + Scenario.day) (Scenario.now + Scenario.day)
             true in
  let w' := snd (syncFromSheetOptimised Scenario.clock Scenario.guild Scenario.rosterOther
                   w) in
  Assoc.lookup "123" (store w') = Assoc.lookup "123" (store w) /\
  hasRole "123" w' = hasRole "123" w.
Proof.
  cbv zeta.
  eapply (running_trial_untouched Scenario.clock Scenario.guild Scenario.rosterOther
            (Scenario.world_of (Scenario.now + Scenario.day)
               (Scenario.now + Scenario.day) true)
            _ _ _ "123").
  - repeat constructor. cbn. tauto.
  - vm_compute. reflexivity.
  - vm_compute. reflexivity.
  - vm_compute. discriminate.
  - vm_compute. reflexivity.
  - vm_compute. reflexivity.
  - intros i _. vm_compute. reflexivity.
Defined.

(** X18: after a completed pass, every approved member found on the platform has
    [vip_until] exactly at the sentinel and is told "lifetime access" by the status
    query, which changes nothing. *)
Theorem approved_status_is_lifetime clock guild rows w s w' elig k mi :
  syncFromSheetOptimised clock guild rows w = (Ok (Done s), w') ->
  getEligibilityMap rows = Ok elig ->
  approved elig k ->
  Assoc.lookup k (members guild) = Some mi ->
  storedVipUntil k w' = LIFETIME_UNTIL /\
  statusQuery clock k w' = (Ok LifetimeAccess, w').
Proof.
  intros Hsync Helig Ha Hm.
  destruct (sync_done_inv _ _ _ _ _ _ Hsync)
    as (elig' & n1 & w1 & n2 & w2 & n3 & w3 & _ & _ & Helig' & Hg & Hd & He
        & _ & _ & _ & _ & Hs' & _).
  rewrite Helig in Helig'. injection Helig' as <-.
  assert (Hin : In (k, true) elig) by now apply lookup_In.
  assert (Hpres : Assoc.lookup k (members guild) <> None) by congruence.
  destruct (grantLoop_hit _ _ _ _ _ _ _ k Hg (or_intror (conj Hin Hpres))) as [Hv1 _].
  destruct (downgradeLoop_frame _ _ _ _ _ _ _ _ k Hd (or_intror (or_introl Ha)))
    as [E2 _].
  assert (Hv : storedVipUntil k w' = LIFETIME_UNTIL).
  { rewrite (storedVipUntil_store k _ _ Hs').
    rewrite (storedVipUntil_store k _ _ (expiryLoop_store _ _ _ _ _ _ _ He)).
    now rewrite (storedVipUntil_lookup _ _ _ E2). }
  split; [exact Hv|]. now apply statusQuery_lifetime.
Qed.

Lemma approved_status_is_lifetime_witness :
  let w' := snd (syncFromSheetOptimised Scenario.clock Scenario.guild Scenario.roster123
                   (Scenario.world_of (Scenario.now - Scenario.day) 0 false)) in
  storedVipUntil "123" w' = LIFETIME_UNTIL /\
  statusQuery Scenario.clock "123" w' = (Ok LifetimeAccess, w').
Proof.
  cbv zeta.
  eapply (approved_status_is_lifetime Scenario.clock Scenario.guild Scenario.roster123
            (Scenario.world_of (Scenario.now - Scenario.day) 0 false)
            _ _ _ "123" Scenario.regular).
  - vm_compute. reflexivity.
  - vm_compute. reflexivity.
  - vm_compute. reflexivity.
  - vm_compute. reflexivity.
Defined.

(** ** The handlers and the schedules *)

Lemma hourlyCleanup_world clock guild w :
  snd (hourlyCleanup clock guild w)
  = if guildOk guild then snd (expiryLoop clock guild (store w) 0 w) else w.
Proof.
  unfold hourlyCleanup, catch_ignore.
  unfold bind at 1, fetchGuild.
  destruct (guildOk guild); cbn [ret throw]; [|reflexivity].
  unfold bind at 1, dbAllVip.
  pose proof (cleanupLoop_expiryLoop clock guild (store w) 0%nat w) as Heq.
  destruct (cleanupLoop clock guild _ w) as [r w1]. exact Heq.
Qed.

Lemma statusQuery_world clock k w :
  exists n, snd (statusQuery clock k w) = set_tick n w.
Proof.
  unfold statusQuery, bind, dbGet, Date_now, ret.
  destruct (Assoc.lookup k (store w)) as [row|]; cbn.
  2:{ exists (tick w). now destruct w. }
  destruct (truthy (vip_until row)); cbn.
  2:{ exists (tick w). now destruct w. }
  destruct (LIFETIME_UNTIL <=? orZero (vip_until row)).
  { exists (tick w). now destruct w. }
  destruct (Z.of_N (clock (tick w)) <? orZero (vip_until row)); eexists; reflexivity.
Qed.

Lemma grantTrialOnJoin_frame clock guild member w r w' k :
  grantTrialOnJoin clock guild member w = (r, w') ->
  k <> member_id member ->
  Assoc.lookup k (store w') = Assoc.lookup k (store w).
Proof.
  intros H Hne. unfold_all. run_ops; try reflexivity.
  all: now rewrite lookup_replace_neq.
Qed.

Lemma grantTrialOnJoin_syncRunning clock guild member w r w' :
  grantTrialOnJoin clock guild member w = (r, w') -> syncRunning w' = syncRunning w.
Proof.
  intros H. unfold_all. run_ops; reflexivity.
Qed.

Section RunRelations.

Variable clock : nat -> N.
Variable guild : Guild.

(** A relation that holds of a clock reading, of every pass, of every expiry loop
    and of the join-time grant of the members in [joins] holds of every run whose
    joins are of such members. *)
Variable P : World -> World -> Prop.
Variable joins : Member -> Prop.
Hypothesis P_refl : forall w, P w w.
Hypothesis P_trans : forall x y z, P x y -> P y z -> P x z.
Hypothesis P_tick : forall w n, P w (set_tick n w).
Hypothesis P_sync : forall rows w r w',
  syncFromSheetOptimised clock guild rows w = (r, w') -> P w w'.
Hypothesis P_expiry : forall rows n w r w',
  expiryLoop clock guild rows n w = (r, w') -> P w w'.
Hypothesis P_join : forall member w r w',
  joins member -> grantTrialOnJoin clock guild member w = (r, w') -> P w w'.

Lemma handle_rel e w :
  (forall logChannel member, e = MemberAdd logChannel member -> joins member) ->
  P w (handle clock guild e w).
Proof.
  intros Hj. destruct e as [registered rows|lc member|i u rows|rows|]; cbn [handle].
  - unfold ready. destruct registered; [|apply P_refl].
    apply (P_sync rows w (fst (syncFromSheetOptimised clock guild rows w))).
    apply surjective_pairing.
  - unfold guildMemberAdd.
    destruct (grantTrialOnJoin clock guild member w) as [[until|e] w1] eqn:E;
      cbn [snd]; exact (P_join _ _ _ _ (Hj _ _ eq_refl) E).
  - unfold interactionCreate. destruct i as [|c]; [apply P_refl|].
    destruct (Assoc.lookup u (members guild)); [|apply P_refl].
    destruct (c =? "form")%string; [apply P_refl|].
    destruct (c =? "status")%string.
    { destruct (statusQuery_world clock u w) as [n Hn].
      destruct (statusQuery clock u w) as [[r|e] w1]; cbn [snd] in *; subst w1;
        apply P_tick. }
    destruct (c =? "reactivate")%string; [|apply P_refl].
    destruct (syncFromSheetOptimised clock guild rows w) as [[[|s]|e] w1] eqn:E;
      cbn [snd]; exact (P_sync _ _ _ _ E).
  - unfold syncCron.
    apply (P_sync rows w (fst (syncFromSheetOptimised clock guild rows w))).
    apply surjective_pairing.
  - unfold cleanupCron. rewrite hourlyCleanup_world.
    destruct (guildOk guild); [|apply P_refl].
    apply (P_expiry (store w) 0%nat w (fst (expiryLoop clock guild (store w) 0 w))).
    apply surjective_pairing.
Qed.

Lemma run_rel events : forall w,
  (forall logChannel member, In (MemberAdd logChannel member) events -> joins member) ->
  P w (run clock guild events w).
Proof.
  induction events as [|e rest IH]; intros w Hj; [apply P_refl|].
  change (run clock guild (e :: rest) w)
    with (run clock guild rest (handle clock guild e w)).
  apply (P_trans w (handle clock guild e w)).
  - apply handle_rel. intros lc m ->. apply (Hj lc m). now left.
  - apply IH. intros lc m Hin. apply (Hj lc m). now right.
Qed.

End RunRelations.

Lemma handle_flag clock guild e w :
  syncRunning w = false -> syncRunning (handle clock guild e w) = false.
Proof.
  intros Hf. destruct e as [registered rows|lc member|i u rows|rows|]; cbn [handle].
  - unfold ready. destruct registered; [|exact Hf].
    exact (proj2 (sync_runs _ _ _ _ _ _ Hf (surjective_pairing _))).
  - unfold guildMemberAdd.
    destruct (grantTrialOnJoin clock guild member w) as [[until|e] w1] eqn:E;
      cbn [snd]; now rewrite (grantTrialOnJoin_syncRunning _ _ _ _ _ _ E).
  - unfold interactionCreate. destruct i as [|c]; [exact Hf|].
    destruct (Assoc.lookup u (members guild)); [|exact Hf].
    destruct (c =? "form")%string; [exact Hf|].
    destruct (c =? "status")%string.
    { destruct (statusQuery_world clock u w) as [n Hn].
      destruct (statusQuery clock u w) as [[r|e] w1]; cbn [snd] in *; subst w1;
        exact Hf. }
    destruct (c =? "reactivate")%string; [|exact Hf].
    destruct (syncFromSheetOptimised clock guild rows w) as [[[|s]|e] w1] eqn:E;
      cbn [snd]; exact (proj2 (sync_runs _ _ _ _ _ _ Hf E)).
  - unfold syncCron. exact (proj2 (sync_runs _ _ _ _ _ _ Hf (surjective_pairing _))).
  - unfold cleanupCron. rewrite hourlyCleanup_world.
    destruct (guildOk guild); [|exact Hf].
    now rewrite (expiryLoop_syncRunning _ _ _ _ _ _ _ (surjective_pairing _)).
Qed.

(** X19: what the hourly cleanup does to one member with a record (identifiers
    being unique in the table).  If the guild and the role resolve, the member is
    found, the platform accepts the removal and the stored [vip_until] is non-zero,
    below the sentinel and not after any clock reading of the cleanup, the member
    does not hold the role afterwards.  If the stored [vip_until] is 0, at least the
    sentinel, or after every clock reading of the cleanup, the member's role state
    is unchanged. *)
Theorem cleanupCron_outcome clock guild w k r0 :
  keys_ok (store w) ->
  Assoc.lookup k (store w) = Some r0 ->
  (guildOk guild = true -> vipRole guild = true ->
   forall mi, Assoc.lookup k (members guild) = Some mi -> rejectsRemove mi = false ->
   orZero (vip_until r0) <> 0 -> orZero (vip_until r0) < LIFETIME_UNTIL ->
   readings clock w (cleanupCron clock guild w)
     (fun now => orZero (vip_until r0) <= now) ->
   hasRole k (cleanupCron clock guild w) = false) /\
  (orZero (vip_until r0) = 0 \/ LIFETIME_UNTIL <= orZero (vip_until r0) \/
   readings clock w (cleanupCron clock guild w)
     (fun now => now < orZero (vip_until r0)) ->
   hasRole k (cleanupCron clock guild w) = hasRole k w).
Proof.
  intros Hk Hl. unfold cleanupCron. rewrite hourlyCleanup_world. split.
  - intros Hg Hrole mi Hm Hrej Hv0 Hvl. rewrite Hg. intros Hpast.
    destruct (expiryLoop_isolated clock guild (store w) Hrole 0%nat w) as (n' & w' & E).
    rewrite E in *. cbn [snd] in *.
    apply (expiryLoop_hit _ _ _ _ _ _ _ _ k mi Hv0 Hvl Hpast Hm Hrej E).
    right. exists r0. split; [now apply lookup_In|reflexivity].
  - destruct (guildOk guild); [|reflexivity]. intros Hcase.
    apply (expiryLoop_skips clock guild (store w) 0%nat w
             (fst (expiryLoop clock guild (store w) 0 w))).
    + apply surjective_pairing.
    + intros r1 Hin. apply (In_lookup _ _ _ Hk) in Hin. rewrite Hl in Hin.
      injection Hin as <-. exact Hcase.
Qed.

Lemma cleanupCron_outcome_witness :
  let t := Scenario.now - Scenario.day in
  let w := Scenario.world_of t t true in
  hasRole "123" (cleanupCron Scenario.clock Scenario.guild w) = false.
Proof.
  cbv zeta.
  assert (Hk : keys_ok (store (Scenario.world_of (Scenario.now - Scenario.day)
                                 (Scenario.now - Scenario.day) true)))
    by (repeat constructor; cbn; tauto).
  apply (proj1 (cleanupCron_outcome Scenario.clock Scenario.guild
                  (Scenario.world_of (Scenario.now - Scenario.day)
                     (Scenario.now - Scenario.day) true) "123"
                  (mkRow (Some (Scenario.now - Scenario.day))
                     (Some (Scenario.now - Scenario.day))) Hk eq_refl)
           eq_refl eq_refl Scenario.regular eq_refl eq_refl).
  - vm_compute. discriminate.
  - vm_compute. reflexivity.
  - intros i _. vm_compute. discriminate.
Defined.

(** X20: [removeVipIfHas] swallows a rejected removal.  Once the VIP role
    resolves it returns normally whatever the platform answers; it leaves the
    store, the flag and every other member's role as they are, and afterwards the
    member holds the role exactly if the member held it and the platform rejected
    the removal.  When the role does not resolve it throws and changes nothing. *)
Theorem removeVipIfHas_swallows_rejection guild member w :
  (vipRole guild = true ->
   exists w', removeVipIfHas guild member w = (Ok tt, w') /\
     store w' = store w /\ syncRunning w' = syncRunning w /\
     hasRole (member_id member) w'
     = hasRole (member_id member) w && rejectsRemove (info member) /\
     forall k, k <> member_id member -> hasRole k w' = hasRole k w) /\
  (vipRole guild = false -> removeVipIfHas guild member w = (Err RoleNotFound, w)).
Proof.
  split; intros Hrole.
  - destruct (removeVipIfHas_isolated guild member w Hrole) as [w' E].
    exists w'. split; [exact E|].
    split; [exact (removeVipIfHas_store _ _ _ _ _ E)|].
    split; [exact (removeVipIfHas_syncRunning _ _ _ _ _ E)|].
    split; [|intros k Hne; exact (removeVipIfHas_frame _ _ _ _ _ k E Hne)].
    destruct (rejectsRemove (info member)) eqn:Hrej.
    + rewrite andb_true_r. revert E.
      unfold removeVipIfHas, getVipRole, roles_cache_has, catch_ignore, roles_remove,
        bind, ret.
      rewrite Hrole, Hrej. cbn.
      destruct (hasRole (member_id member) w) eqn:Hh; intros E; now injection E as <-.
    + rewrite andb_false_r. exact (removeVipIfHas_ok _ _ _ _ _ E Hrej).
  - unfold removeVipIfHas, getVipRole, bind, throw. now rewrite Hrole.
Qed.

Lemma removeVipIfHas_swallows_rejection_witness :
  exists w',
    removeVipIfHas Scenario.guild
      (mkMember "123" (mkMemberInfo (Some 1690000000000) false true))
      (Scenario.world_of 5 5 true) = (Ok tt, w') /\
    hasRole "123" w' = true.
Proof.
  destruct (proj1 (removeVipIfHas_swallows_rejection Scenario.guild
                     (mkMember "123" (mkMemberInfo (Some 1690000000000) false true))
                     (Scenario.world_of 5 5 true)) eq_refl)
    as (w' & E & _ & _ & Hh & _).
  exists w'. split; [exact E|]. exact Hh.
Defined.

(** X21: the interaction handler is read-only outside [reactivate].  For an
    interaction that is not the [reactivate] command the store, the role holders
    and the running flag are the same afterwards.  A chat command of a user the
    member fetch does not find leaves the handler at the fetch, before any reply,
    with nothing changed -- also for [form], which does not use the member. *)
Theorem interaction_read_only clock guild interaction userId sheetRows w :
  (interaction <> ChatInput "reactivate" ->
   let w' := snd (interactionCreate clock guild interaction userId sheetRows w) in
   store w' = store w /\ roleHolders w' = roleHolders w /\
   syncRunning w' = syncRunning w) /\
  (forall c, interaction = ChatInput c -> Assoc.lookup userId (members guild) = None ->
   interactionCreate clock guild interaction userId sheetRows w = (Unhandled, w)).
Proof.
  split.
  - intros Hne. cbv zeta. unfold interactionCreate.
    destruct interaction as [|c]; [auto|].
    destruct (Assoc.lookup userId (members guild)); [|auto].
    destruct (c =? "form")%string; [auto|].
    destruct (c =? "status")%string.
    { destruct (statusQuery_world clock userId w) as [n Hn].
      destruct (statusQuery clock userId w) as [[r|e] w1]; cbn [snd] in *; subst w1;
        auto. }
    destruct (String.eqb_spec c "reactivate") as [->|_]; [now elim Hne|auto].
  - intros c -> Hnone. unfold interactionCreate. now rewrite Hnone.
Qed.

Lemma interaction_read_only_witness :
  let w := Scenario.world_of (Scenario.now + Scenario.day) (Scenario.now + Scenario.day)
             true in
  store (snd (interactionCreate Scenario.clock Scenario.guild (ChatInput "status") "123"
                Scenario.roster123 w)) = store w.
Proof.
  cbv zeta.
  apply (proj1 (interaction_read_only Scenario.clock Scenario.guild (ChatInput "status")
                  "123" Scenario.roster123 _)).
  discriminate.
Defined.

(** X22: the replies of [reactivate] for a user the member fetch finds.  The
    handler always replies; the reply is "sync already running" exactly when the
    running flag was set, and then nothing is changed; it is "synced" exactly when
    the pass completed, and the text of the error otherwise; when the flag was
    clear it is clear again afterwards. *)
Theorem reactivate_reply clock guild userId sheetRows w mi :
  Assoc.lookup userId (members guild) = Some mi ->
  let p := interactionCreate clock guild (ChatInput "reactivate") userId sheetRows w in
  let q := syncFromSheetOptimised clock guild sheetRows w in
  (fst p = Replied SyncSkipped <-> syncRunning w = true) /\
  (syncRunning w = true -> snd p = w) /\
  (syncRunning w = false -> syncRunning (snd p) = false) /\
  (fst p = Replied SyncOk <-> exists s, fst q = Ok (Done s)) /\
  (forall e, fst p = Replied (SyncFailed e) <-> fst q = Err e) /\
  snd p = snd q.
Proof.
  intros Hm. cbv zeta. unfold interactionCreate. rewrite Hm. cbn [String.eqb Ascii.eqb
    Bool.eqb].
  change ("reactivate" =? "form")%string with false.
  change ("reactivate" =? "status")%string with false.
  change ("reactivate" =? "reactivate")%string with true. cbv iota.
  destruct (syncRunning w) eqn:Hf.
  - assert (E : syncFromSheetOptimised clock guild sheetRows w = (Ok Skipped, w))
      by (unfold syncFromSheetOptimised; now rewrite Hf).
    rewrite E. cbn [fst snd].
    repeat split; try discriminate; try reflexivity; auto.
    + intros [s Hs]. discriminate.
  - destruct (syncFromSheetOptimised clock guild sheetRows w) as [r w1] eqn:E.
    destruct (sync_runs _ _ _ _ _ _ Hf E) as [Hns Hf1].
    destruct r as [[|s]|e]; [now elim Hns| |]; cbn [fst snd].
    + repeat split; try discriminate; try assumption; eauto.
    + repeat split; try discriminate; try assumption; try congruence.
      intros [s Hs]. discriminate.
Qed.

Lemma reactivate_reply_witness :
  fst (interactionCreate Scenario.clock Scenario.guild (ChatInput "reactivate") "123"
         Scenario.roster123 Scenario.emptyWorld) = Replied SyncOk.
Proof.
  apply (proj1 (proj2 (proj2 (proj2
           (reactivate_reply Scenario.clock Scenario.guild "123" Scenario.roster123
              Scenario.emptyWorld Scenario.regular eq_refl))))).
  eexists. vm_compute. reflexivity.
Defined.

(** X23: invariants of the process.  Along every run of callbacks handled one
    after the other -- initial sync, joins, interactions, five-minute syncs and
    hourly cleanups, whatever each of them meets -- identifiers stay unique in the
    table, every stored [vip_until] keeps reading as 0, the sentinel or the row's
    own [trial_until], the running flag is clear again, and no record disappears. *)
Theorem run_invariants clock guild events w :
  (keys_ok (store w) -> keys_ok (store (run clock guild events w))) /\
  (shape_ok (store w) -> shape_ok (store (run clock guild events w))) /\
  (syncRunning w = false -> syncRunning (run clock guild events w) = false) /\
  (forall k, Assoc.lookup k (store w) <> None ->
             Assoc.lookup k (store (run clock guild events w)) <> None).
Proof.
  split; [|split; [|split]].
  - apply (run_rel clock guild (fun x y => keys_ok (store x) -> keys_ok (store y))
             (fun _ => True)); auto.
    + intros rows x r y.
      apply (sync_rel clock guild
               (fun x y => keys_ok (store x) -> keys_ok (store y))); auto.
      * intros k0 mi r0 a b _ Hs. exact (setVipLifetime_keys_ok _ _ _ _ _ _ Hs).
      * intros k0 mi r0 a b _ Hs. exact (setVipToTrial_keys_ok _ _ _ _ _ _ Hs).
      * intros k0 mi r0 a b _ Hs. now rewrite (removeVipIfHas_store _ _ _ _ _ Hs).
    + intros rows n x r y H. now rewrite (expiryLoop_store _ _ _ _ _ _ _ H).
    + intros member x r y _ H. unfold_all.
      run_ops; intros Hk; first [assumption | now apply replace_keys_ok].
  - apply (run_rel clock guild (fun x y => shape_ok (store x) -> shape_ok (store y))
             (fun _ => True)); auto.
    + intros rows x r y.
      apply (sync_rel clock guild
               (fun x y => shape_ok (store x) -> shape_ok (store y))); auto.
      * intros k0 mi r0 a b _ Hs. exact (setVipLifetime_shape _ _ _ _ _ _ Hs).
      * intros k0 mi r0 a b _ Hs. exact (setVipToTrial_shape _ _ _ _ _ _ Hs).
      * intros k0 mi r0 a b _ Hs. now rewrite (removeVipIfHas_store _ _ _ _ _ Hs).
    + intros rows n x r y H. now rewrite (expiryLoop_store _ _ _ _ _ _ _ H).
    + intros member x r y _ H. unfold_all.
      run_ops; intros Hs;
        first [assumption
              | apply shape_ok_replace; [assumption|right; right; reflexivity]].
  - revert w. induction events as [|e rest IH]; intros w Hf; [exact Hf|].
    change (run clock guild (e :: rest) w)
      with (run clock guild rest (handle clock guild e w)).
    apply IH. now apply handle_flag.
  - intros k.
    apply (run_rel clock guild
             (fun x y => Assoc.lookup k (store x) <> None ->
                         Assoc.lookup k (store y) <> None)
             (fun _ => True)); auto.
    + intros rows x r y.
      apply (sync_rel clock guild
               (fun x y => Assoc.lookup k (store x) <> None ->
                           Assoc.lookup k (store y) <> None)); auto.
      * intros k0 mi r0 a b _ Hs. exact (setVipLifetime_keeps_keys _ _ _ _ _ _ k Hs).
      * intros k0 mi r0 a b _ Hs. exact (setVipToTrial_keeps_keys _ _ _ _ _ _ k Hs).
      * intros k0 mi r0 a b _ Hs. now rewrite (removeVipIfHas_store _ _ _ _ _ Hs).
    + intros rows n x r y H. now rewrite (expiryLoop_store _ _ _ _ _ _ _ H).
    + intros member x r y _ H. unfold_all.
      run_ops; intros Hs; first [assumption | now apply lookup_replace_keeps].
Qed.

Lemma run_invariants_witness :
  let events := [Ready true Scenario.roster123;
                 MemberAdd true (mkMember "123" Scenario.regular);
                 SyncCron Scenario.rosterOther;
                 CleanupCron;
                 InteractionCreate (ChatInput "reactivate") "123" Scenario.rosterHeaderOnly]
  in
  let w := run Scenario.clock Scenario.guild events Scenario.emptyWorld in
  keys_ok (store w) /\ shape_ok (store w) /\ syncRunning w = false.
Proof.
  cbv zeta.
  match goal with
  | |- keys_ok (store (run _ _ ?es _)) /\ _ =>
      pose proof (run_invariants Scenario.clock Scenario.guild es Scenario.emptyWorld)
        as (Hk & Hs & Hf & _)
  end.
  split; [apply Hk; constructor|].
  split; [apply Hs; intros k r H; discriminate H|].
  apply Hf. reflexivity.
Defined.

(** X24: only a join touches a trial that is set.  Along every run of callbacks
    in which the member [k] does not join, a non-zero stored [trial_until] of [k]
    stays the same. *)
Theorem run_keeps_trial clock guild events k w :
  (forall logChannel member,
     In (MemberAdd logChannel member) events -> member_id member <> k) ->
  storedTrialUntil k w <> 0 ->
  storedTrialUntil k (run clock guild events w) = storedTrialUntil k w.
Proof.
  intros Hj.
  apply (run_rel clock guild (keeps_trial k) (fun m => member_id m <> k)).
  - intros x. now apply keeps_trial_store.
  - apply keeps_trial_trans.
  - intros x n. now apply keeps_trial_store.
  - intros rows x r y H. exact (sync_keeps_trial _ _ _ k _ _ _ H).
  - intros rows n x r y H. apply keeps_trial_store.
    exact (expiryLoop_store _ _ _ _ _ _ _ H).
  - intros member x r y Hne H _. unfold storedTrialUntil.
    rewrite (grantTrialOnJoin_frame _ _ _ _ _ _ k H); [reflexivity|congruence].
  - exact Hj.
Qed.

Lemma run_keeps_trial_witness :
  let t := Scenario.now - Scenario.day in
  let events := [SyncCron Scenario.roster123; CleanupCron; SyncCron Scenario.rosterOther;
                 MemberAdd false (mkMember "456" Scenario.regular)] in
  storedTrialUntil "123"
    (run Scenario.clock Scenario.guild events (Scenario.world_of t t true)) = t.
Proof.
  cbv zeta.
  rewrite (run_keeps_trial Scenario.clock Scenario.guild).
  - reflexivity.
  - intros lc m [H|[H|[H|[H|[]]]]]; try discriminate H.
    injection H as _ <-. discriminate.
  - vm_compute. discriminate.
Defined.

(** * The member cache and overlapping invocations *)

(** ** The pass with a member cache of its own *)

Ltac unfold_cache :=
  unfold ClientCache.setVipToTrialRemainingOrRemove, ClientCache.removeVipIfHas,
    ClientCache.roles_cache_has, ensureTrialRecordFor, getVipRole, roles_add,
    roles_remove, catch_ignore, bind, dbGet, Date_now, dbReplace, dbUpdateTrial,
    ret, throw in *.

(** The engine of the first part is the case in which every member's cached copy is
    refreshed before it is read. *)
Lemma cache_refreshed_is_engine clock guild shown rows w :
  ClientCache.syncFromSheetOptimised clock guild shown (fun _ => true) rows w
  = syncFromSheetOptimised clock guild rows w.
Proof. reflexivity. Qed.

Section CacheFacts.

Variable clock : nat -> N.
Variable guild : Guild.
Variable shown : list string.
Variable refreshed : string -> bool.

Lemma cache_removeVipIfHas_frame member w r w' :
  ClientCache.removeVipIfHas guild shown refreshed member w = (r, w') ->
  store w' = store w /\ (tick w <= tick w')%nat /\
  (forall k, k <> member_id member -> hasRole k w' = hasRole k w) /\
  (forall k, hasRole k w = false -> hasRole k w' = false).
Proof.
  intros H. unfold_cache. run_ops.
  all: repeat split; try reflexivity; try lia; intros k Hk; role_simpl; try assumption.
  all: try (destruct (String.eqb_spec k (member_id member)); [congruence|reflexivity]).
  all: rewrite Hk; apply andb_false_r.
Qed.

Lemma cache_removeVipIfHas_shown member w u w' :
  ClientCache.removeVipIfHas guild shown refreshed member w = (Ok u, w') ->
  rejectsRemove (info member) = false ->
  refreshed (member_id member) || existsb (String.eqb (member_id member)) shown = true ->
  hasRole (member_id member) w' = false.
Proof.
  intros H Hrej Hshow. unfold_cache. rewrite Hrej in H.
  destruct (refreshed (member_id member)); cbn [orb] in Hshow.
  - run_ops; role_simpl; [now rewrite String.eqb_refl|assumption].
  - rewrite Hshow in H. run_ops. role_simpl. now rewrite String.eqb_refl.
Qed.

Lemma cache_removeVipIfHas_hidden member w r w' :
  ClientCache.removeVipIfHas guild shown refreshed member w = (r, w') ->
  refreshed (member_id member) || existsb (String.eqb (member_id member)) shown = false ->
  w' = w.
Proof.
  intros H Hshow. apply orb_false_elim in Hshow. destruct Hshow as [Hr Hs].
  unfold_cache. rewrite Hr, Hs in H. run_ops; reflexivity.
Qed.

Lemma cache_setVipToTrial_frame member w r w' k :
  ClientCache.setVipToTrialRemainingOrRemove clock guild shown refreshed member w = (r, w') ->
  (tick w <= tick w')%nat /\
  (k <> member_id member ->
   Assoc.lookup k (store w') = Assoc.lookup k (store w) /\ hasRole k w' = hasRole k w).
Proof.
  intros H. unfold_cache. run_ops.
  all: split; [lia|intros Hk].
  all: role_simpl;
    rewrite ?lookup_replace_neq, ?lookup_update_neq by assumption.
  all: try (destruct (String.eqb_spec k (member_id member)); [congruence|]).
  all: split; reflexivity.
Qed.

Lemma cache_downgradeLoop_cons elig k rest n w :
  ClientCache.downgradeLoop clock guild shown refreshed elig (k :: rest) n w =
  match Assoc.lookup k elig with
  | Some true => ClientCache.downgradeLoop clock guild shown refreshed elig rest n w
  | _ =>
      match Assoc.lookup k (members guild) with
      | None => ClientCache.downgradeLoop clock guild shown refreshed elig rest n w
      | Some mi =>
          match ClientCache.setVipToTrialRemainingOrRemove clock guild shown refreshed
                  (mkMember k mi) w with
          | (Ok _, w1) =>
              ClientCache.downgradeLoop clock guild shown refreshed elig rest (S n) w1
          | (Err e, w1) => (Err e, w1)
          end
      end
  end.
Proof.
  cbn [ClientCache.downgradeLoop].
  destruct (Assoc.lookup k elig) as [[|]|]; [reflexivity| |].
  all: unfold bind at 1, fetchMemberSafe, ret.
  all: destruct (Assoc.lookup k (members guild)); reflexivity.
Qed.

Lemma cache_expiryLoop_cons k r rest n w :
  ClientCache.expiryLoop clock guild shown refreshed ((k, r) :: rest) n w =
  if (orZero (vip_until r) =? 0) || (LIFETIME_UNTIL <=? orZero (vip_until r))
     || (Z.of_N (clock (tick w)) <? orZero (vip_until r))
  then ClientCache.expiryLoop clock guild shown refreshed rest n
         (if (orZero (vip_until r) =? 0) || (LIFETIME_UNTIL <=? orZero (vip_until r))
          then w else set_tick (S (tick w)) w)
  else
    match Assoc.lookup k (members guild) with
    | None => ClientCache.expiryLoop clock guild shown refreshed rest n
                (set_tick (S (tick w)) w)
    | Some mi =>
        match ClientCache.removeVipIfHas guild shown refreshed (mkMember k mi)
                (set_tick (S (tick w)) w) with
        | (Ok _, w1) => ClientCache.expiryLoop clock guild shown refreshed rest (S n) w1
        | (Err e, w1) => (Err e, w1)
        end
    end.
Proof.
  cbn [ClientCache.expiryLoop].
  destruct (orZero (vip_until r) =? 0); [reflexivity|].
  destruct (LIFETIME_UNTIL <=? orZero (vip_until r)); [reflexivity|].
  cbn [orb]. unfold bind at 1, Date_now.
  destruct (Z.of_N (clock (tick w)) <? orZero (vip_until r)); [reflexivity|].
  unfold bind at 1, fetchMemberSafe, ret.
  destruct (Assoc.lookup k (members guild)); reflexivity.
Qed.

Lemma cache_downgradeLoop_frame elig ids : forall n w r w' k,
  ClientCache.downgradeLoop clock guild shown refreshed elig ids n w = (r, w') ->
  (tick w <= tick w')%nat /\
  (approved elig k ->
   Assoc.lookup k (store w') = Assoc.lookup k (store w) /\ hasRole k w' = hasRole k w).
Proof.
  unfold approved.
  induction ids as [|k0 rest IH]; intros n w r w' k H.
  - injection H as <- <-. auto.
  - rewrite cache_downgradeLoop_cons in H.
    destruct (Assoc.lookup k0 elig) as [[|]|] eqn:Ea; [eauto| |].
    all: destruct (Assoc.lookup k0 (members guild)) as [mi|] eqn:Em; [|eauto].
    all: destruct (ClientCache.setVipToTrialRemainingOrRemove clock guild shown refreshed
                     (mkMember k0 mi) w) as [[u|e] w1] eqn:Es.
    all: destruct (cache_setVipToTrial_frame _ _ _ _ k Es) as [T1 F1].
    all: try (injection H as <- <-; split; [exact T1|];
              intros Ha; apply F1; cbn; intros ->; congruence).
    all: destruct (IH _ _ _ _ k H) as [T2 F2]; split; [lia|].
    all: intros Ha; destruct (F2 Ha) as [A1 A2];
      destruct F1 as [B1 B2]; [cbn; intros ->; congruence|split; congruence].
Qed.

Lemma cache_expiryLoop_frame rows : forall n w r w',
  ClientCache.expiryLoop clock guild shown refreshed rows n w = (r, w') ->
  store w' = store w /\ (tick w <= tick w')%nat /\
  (forall k, hasRole k w = false -> hasRole k w' = false) /\
  (forall k, refreshed k || existsb (String.eqb k) shown = false ->
             hasRole k w' = hasRole k w).
Proof.
  induction rows as [|[k0 r0] rest IH]; intros n w r w' H.
  - injection H as <- <-. auto.
  - rewrite cache_expiryLoop_cons in H.
    destruct ((orZero (vip_until r0) =? 0) || (LIFETIME_UNTIL <=? orZero (vip_until r0))
              || (Z.of_N (clock (tick w)) <? orZero (vip_until r0))).
    + destruct (IH _ _ _ _ H) as (S1 & T1 & N1 & H1).
      destruct ((orZero (vip_until r0) =? 0)
                || (LIFETIME_UNTIL <=? orZero (vip_until r0))); cbn in *.
      * auto.
      * repeat split; auto; lia.
    + destruct (Assoc.lookup k0 (members guild)) as [mi|].
      2:{ destruct (IH _ _ _ _ H) as (S1 & T1 & N1 & H1). cbn in *.
          repeat split; auto; lia. }
      destruct (ClientCache.removeVipIfHas guild shown refreshed (mkMember k0 mi)
                  (set_tick (S (tick w)) w)) as [[u|e] w1] eqn:Er.
      all: destruct (cache_removeVipIfHas_frame _ _ _ _ Er) as (S0 & T0 & F0 & N0).
      all: cbn in S0, T0.
      all: assert (Hhid : forall k, refreshed k || existsb (String.eqb k) shown = false ->
                                    hasRole k w1 = hasRole k w).
      all: try (intros k Hk; destruct (String.eqb_spec k k0) as [->|Hne];
                [now rewrite (cache_removeVipIfHas_hidden _ _ _ _ Er Hk)
                |exact (F0 k Hne)]).
      * destruct (IH _ _ _ _ H) as (S1 & T1 & N1 & H1).
        repeat split; [congruence|lia| |].
        -- intros k Hk. apply N1. apply N0. exact Hk.
        -- intros k Hk. rewrite (H1 k Hk). exact (Hhid k Hk).
      * injection H as <- <-. repeat split; [exact S0|lia| |exact Hhid].
        intros k Hk. apply N0. exact Hk.
Qed.

Lemma cache_expiryLoop_hit rows v : forall n w n' w' k mi,
  v <> 0 -> v < LIFETIME_UNTIL -> readings clock w w' (fun now => v <= now) ->
  Assoc.lookup k (members guild) = Some mi -> rejectsRemove mi = false ->
  refreshed k || existsb (String.eqb k) shown = true ->
  ClientCache.expiryLoop clock guild shown refreshed rows n w = (Ok n', w') ->
  hasRole k w = false \/ (exists r0, In (k, r0) rows /\ orZero (vip_until r0) = v) ->
  hasRole k w' = false.
Proof.
  induction rows as [|[k0 r0] rest IH];
    intros n w n' w' k mi Hv0 Hvl Hpast Hp Hrej Hshow H Hk.
  - injection H as <- <-. destruct Hk as [Hk|(r0 & [] & _)]. exact Hk.
  - rewrite cache_expiryLoop_cons in H.
    destruct ((orZero (vip_until r0) =? 0) || (LIFETIME_UNTIL <=? orZero (vip_until r0)))
      eqn:Eskip; cbn [orb] in H.
    { apply (IH _ _ _ _ k mi Hv0 Hvl Hpast Hp Hrej Hshow H).
      destruct Hk as [Hk|(r1 & [Heq|Hin] & Hr1)]; [now left| |right; eauto].
      injection Heq as -> ->. exfalso.
      apply orb_prop in Eskip. destruct Eskip as [Eskip|Eskip].
      - apply Z.eqb_eq in Eskip. lia.
      - apply Z.leb_le in Eskip. lia. }
    assert (Hrest : forall w1, (S (tick w) <= tick w1)%nat ->
              readings clock w1 w' (fun now => v <= now))
      by (intros w1 E1; apply (readings_mono clock _ w w' w1 w'); [lia|lia|exact Hpast]).
    destruct (Z.of_N (clock (tick w)) <? orZero (vip_until r0)) eqn:Enow.
    { apply (IH _ _ _ _ k mi Hv0 Hvl
               (Hrest (set_tick (S (tick w)) w) ltac:(cbn; lia)) Hp Hrej Hshow H).
      change (hasRole k (set_tick (S (tick w)) w)) with (hasRole k w).
      destruct Hk as [Hk|(r1 & [Heq|Hin] & Hr1)]; [now left| |right; eauto].
      injection Heq as -> ->. exfalso.
      apply Z.ltb_lt in Enow.
      destruct (cache_expiryLoop_frame _ _ _ _ _ H) as (_ & T & _). cbn in T.
      assert (v <= Z.of_N (clock (tick w))) by (apply Hpast; lia).
      lia. }
    destruct (Assoc.lookup k0 (members guild)) as [mi0|] eqn:Em.
    2:{ apply (IH _ _ _ _ k mi Hv0 Hvl
                 (Hrest (set_tick (S (tick w)) w) ltac:(cbn; lia)) Hp Hrej Hshow H).
        change (hasRole k (set_tick (S (tick w)) w)) with (hasRole k w).
        destruct Hk as [Hk|(r1 & [Heq|Hin] & Hr1)]; [now left| |right; eauto].
        injection Heq as -> ->. congruence. }
    destruct (ClientCache.removeVipIfHas guild shown refreshed (mkMember k0 mi0)
                (set_tick (S (tick w)) w)) as [[u|e] w1] eqn:Er; [|discriminate].
    destruct (cache_removeVipIfHas_frame _ _ _ _ Er) as (S0 & T0 & F0 & N0).
    cbn in T0.
    apply (IH _ _ _ _ k mi Hv0 Hvl (Hrest w1 ltac:(lia)) Hp Hrej Hshow H).
    destruct Hk as [Hk|(r1 & [Heq|Hin] & Hr1)].
    + left. apply N0. exact Hk.
    + injection Heq as -> ->. left.
      assert (mi0 = mi) by congruence. subst mi0.
      exact (cache_removeVipIfHas_shown _ _ _ _ Er Hrej Hshow).
    + right. eauto.
Qed.

Lemma cache_sync_done_inv rows w s w' :
  ClientCache.syncFromSheetOptimised clock guild shown refreshed rows w
  = (Ok (Done s), w') ->
  exists elig n1 w1 n2 w2 n3 w3,
    getEligibilityMap rows = Ok elig /\
    grantLoop clock guild elig 0 (passStart w) = (Ok n1, w1) /\
    ClientCache.downgradeLoop clock guild shown refreshed elig
      (lifetimeInDb_of (store w)) 0 w1 = (Ok n2, w2) /\
    ClientCache.expiryLoop clock guild shown refreshed (store w) 0 w2 = (Ok n3, w3) /\
    expiredRemoved s = n3 /\
    store w' = store w3 /\ roleHolders w' = roleHolders w3 /\ tick w' = S (tick w3).
Proof.
  unfold ClientCache.syncFromSheetOptimised.
  destruct (syncRunning w) eqn:Erun; [discriminate|].
  intros H. apply bind_ok_inv in H. destruct H as (started & w0 & Hnow & H).
  unfold Date_now in Hnow. injection Hnow as <- <-. fold (passStart w) in H.
  unfold try_finally in H.
  destruct (ClientCache.syncPass clock guild shown refreshed rows _ (passStart w))
    as [r w4] eqn:E.
  injection H as -> <-. unfold ClientCache.syncPass in E.
  apply bind_ok_inv in E. destruct E as (u & wa & Hguild & E).
  unfold fetchGuild in Hguild.
  destruct (guildOk guild); [|discriminate]. injection Hguild as _ <-.
  apply bind_ok_inv in E. destruct E as (elig & wb & Helig & E).
  unfold lift in Helig. injection Helig as Helig <-.
  apply bind_ok_inv in E. destruct E as (dbRows & wc & Hall & E).
  unfold dbAll in Hall. injection Hall as <- <-.
  change (store (passStart w)) with (store w) in E.
  apply bind_ok_inv in E. destruct E as (n1 & w1 & Hg & E).
  apply bind_ok_inv in E. destruct E as (n2 & w2 & Hd & E).
  apply bind_ok_inv in E. destruct E as (n3 & w3 & He & E).
  cbn in E. injection E as <- <-.
  exists elig, n1, w1, n2, w2, n3, w3. cbn. repeat split; assumption.
Qed.

End CacheFacts.

(** C9, as stated, fails when the client's cached member does not show the grant:
    the member of the claim (approved, found, stored vipUntil in the past) who did
    not hold the role before the pass and whose member update has not reached the
    client is granted the role, is visited by the expiry phase, and keeps the role,
    because [member.roles.cache.has] still answers false.  The pass completes with
    the record at LIFETIME and the role held. *)
Lemma C9_counterexample :
  let w := Scenario.world_of (Scenario.now - Scenario.day) (Scenario.now - Scenario.day)
             false in
  exists s w',
    ClientCache.syncFromSheetOptimised Scenario.clock Scenario.guild [] (fun _ => false)
      Scenario.roster123 w = (Ok (Done s), w') /\
    lifetimeEnsured s = 1%nat /\ expiredRemoved s = 1%nat /\
    storedVipUntil "123" w' = LIFETIME_UNTIL /\
    hasRole "123" w' = true.
Proof. cbv zeta. do 2 eexists. repeat split; vm_compute; reflexivity. Qed.

(** C9, amended: an approved member found on the platform whose stored vipUntil is
    non-zero, below LIFETIME and in the past at every clock reading of the pass is
    granted the role and set to LIFETIME by the grant phase and keeps the role through
    the downgrade phase; the expiry phase, which walks the store snapshot read before
    the grant, then removes the role (the platform accepting the removal) exactly if
    the client's cached member shows it, that is, if the member update has reached
    the client or the cached member showed the role before the pass.  The completed
    pass ends with the record at LIFETIME, and with the role absent in that case and
    held otherwise. *)
Theorem expired_then_approved_role_follows_cache
    clock guild shown refreshed rows w s w' elig k mi r0 :
  ClientCache.syncFromSheetOptimised clock guild shown refreshed rows w
  = (Ok (Done s), w') ->
  getEligibilityMap rows = Ok elig ->
  approved elig k ->
  Assoc.lookup k (members guild) = Some mi ->
  rejectsRemove mi = false ->
  Assoc.lookup k (store w) = Some r0 ->
  orZero (vip_until r0) <> 0 ->
  orZero (vip_until r0) < LIFETIME_UNTIL ->
  readings clock w w' (fun now => orZero (vip_until r0) <= now) ->
  exists n1 w1 n2 w2 n3 w3,
    grantLoop clock guild elig 0 (passStart w) = (Ok n1, w1) /\
    hasRole k w1 = true /\ storedVipUntil k w1 = LIFETIME_UNTIL /\
    ClientCache.downgradeLoop clock guild shown refreshed elig
      (lifetimeInDb_of (store w)) 0 w1 = (Ok n2, w2) /\
    hasRole k w2 = true /\
    ClientCache.expiryLoop clock guild shown refreshed (store w) 0 w2 = (Ok n3, w3) /\
    hasRole k w3 = negb (refreshed k || existsb (String.eqb k) shown) /\
    hasRole k w' = negb (refreshed k || existsb (String.eqb k) shown) /\
    storedVipUntil k w' = LIFETIME_UNTIL.
Proof.
  intros Hsync Helig Ha Hp Hrej Hl Hv0 Hvl Hpast.
  destruct (cache_sync_done_inv _ _ _ _ _ _ _ _ Hsync)
    as (elig' & n1 & w1 & n2 & w2 & n3 & w3 & Helig' & Hg & Hd & He & _ & Hs' & Hr' & Ht').
  rewrite Helig in Helig'. injection Helig' as <-.
  pose proof (grantLoop_tick _ _ _ _ _ _ _ Hg) as T1. cbn in T1.
  destruct (cache_downgradeLoop_frame _ _ _ _ _ _ _ _ _ _ k Hd) as [T2 F2].
  destruct (F2 Ha) as [E2 R2].
  destruct (cache_expiryLoop_frame _ _ _ _ _ _ _ _ _ He) as (S3 & T3 & N3 & H3).
  assert (Hpast3 : readings clock w2 w3 (fun now => orZero (vip_until r0) <= now))
    by (apply (readings_mono clock _ w w'); [lia|lia|exact Hpast]).
  exists n1, w1, n2, w2, n3, w3.
  assert (Hin : In (k, true) elig) by now apply lookup_In.
  assert (Hpres : Assoc.lookup k (members guild) <> None) by congruence.
  destruct (grantLoop_hit _ _ _ _ _ _ _ k Hg (or_intror (conj Hin Hpres))) as [Hv1 Hr1].
  assert (Hr3 : hasRole k w3 = negb (refreshed k || existsb (String.eqb k) shown)).
  { destruct (refreshed k || existsb (String.eqb k) shown) eqn:Hshow; cbn [negb].
    - apply (cache_expiryLoop_hit _ _ _ _ _ _ _ _ _ _ k mi Hv0 Hvl Hpast3 Hp Hrej Hshow He).
      right. exists r0. split; [now apply lookup_In|reflexivity].
    - rewrite (H3 k Hshow). congruence. }
  repeat split; try assumption.
  - congruence.
  - now rewrite (hasRole_roleHolders k _ _ Hr').
  - rewrite (storedVipUntil_store k _ _ Hs'), (storedVipUntil_store k _ _ S3).
    now rewrite (storedVipUntil_lookup _ _ _ E2).
Qed.

Lemma expired_then_approved_role_follows_cache_witness :
  let w := Scenario.world_of (Scenario.now - Scenario.day) (Scenario.now - Scenario.day)
             true in
  let w' := snd (ClientCache.syncFromSheetOptimised Scenario.clock Scenario.guild ["123"]
                   (fun _ => false) Scenario.roster123 w) in
  hasRole "123" w' = false /\ storedVipUntil "123" w' = LIFETIME_UNTIL.
Proof.
  cbv zeta.
  destruct (expired_then_approved_role_follows_cache Scenario.clock Scenario.guild
              ["123"] (fun _ => false) Scenario.roster123
              (Scenario.world_of (Scenario.now - Scenario.day)
                 (Scenario.now - Scenario.day) true)
              (mkSummary 1 0 1 0 1)
              (snd (ClientCache.syncFromSheetOptimised Scenario.clock Scenario.guild
                      ["123"] (fun _ => false) Scenario.roster123
                      (Scenario.world_of (Scenario.now - Scenario.day)
                         (Scenario.now - Scenario.day) true)))
              [("123", true)] "123" Scenario.regular
              (mkRow (Some (Scenario.now - Scenario.day))
                 (Some (Scenario.now - Scenario.day))))
    as (n1 & w1 & n2 & w2 & n3 & w3 & _ & _ & _ & _ & _ & _ & _ & Hrole & Hvip).
  - vm_compute. reflexivity.
  - vm_compute. reflexivity.
  - vm_compute. reflexivity.
  - vm_compute. reflexivity.
  - reflexivity.
  - vm_compute. reflexivity.
  - vm_compute. discriminate.
  - vm_compute. reflexivity.
  - intros i _. vm_compute. discriminate.
  - split; [exact Hrole|exact Hvip].
Defined.

(** ** Calls *)

Lemma Call_induction {A} (P : Async.Call A -> Prop) :
  (forall r, P (Async.Settled r)) ->
  (forall resume, (forall w, P (fst (resume w))) -> P (Async.Awaiting resume)) ->
  forall x, P x.
Proof.
  intros HS HA. fix IH 1. intros [r|resume]; [apply HS|].
  apply HA. intros w. apply IH.
Qed.

Lemma bind_ext {A B} (m1 m2 : M A) (f1 f2 : A -> M B) w :
  (forall w0, m1 w0 = m2 w0) -> (forall a w0, f1 a w0 = f2 a w0) ->
  bind m1 f1 w = bind m2 f2 w.
Proof.
  intros Hm Hf. unfold bind. rewrite Hm.
  destruct (m2 w) as [[a|e] w1]; [apply Hf|reflexivity].
Qed.

(** *** A call left alone is the sequential code *)

Lemma run_andThen {A B} (k : A -> Async.T B) : forall (x : Async.Call A) w,
  Async.run (Async.andThen x k) w
  = bind (Async.uninterrupted x) (fun a => Async.run (k a)) w.
Proof.
  intros x. induction x as [[a|e]|resume IH] using Call_induction; intros w.
  - reflexivity.
  - reflexivity.
  - unfold Async.run, bind. cbn [Async.andThen Async.uninterrupted].
    specialize (IH w). destruct (resume w) as [x' w1]. cbn [fst] in IH.
    exact (IH w1).
Qed.

Lemma run_bind {A B} (t : Async.T A) (k : A -> Async.T B) w :
  Async.run (Async.bind t k) w = bind (Async.run t) (fun a => Async.run (k a)) w.
Proof.
  unfold Async.bind. unfold Async.run at 1 2, bind.
  destruct (t w) as [x w1].
  pose proof (run_andThen k x w1) as H. unfold Async.run at 1, bind in H. exact H.
Qed.

Lemma run_ret {A} (a : A) w : Async.run (Async.ret a) w = ret a w.
Proof. reflexivity. Qed.

Lemma run_sync {A} (m : M A) w : Async.run (Async.sync m) w = m w.
Proof. unfold Async.run, Async.sync. now destruct (m w). Qed.

Lemma run_await {A} (m : M A) w : Async.run (Async.await m) w = m w.
Proof. unfold Async.run, Async.await. cbn. now destruct (m w). Qed.

Lemma run_settle {A} (cleanup : World -> World) : forall (x : Async.Call A) w,
  Async.run (Async.settle x cleanup) w
  = (let (r, w1) := Async.uninterrupted x w in (r, cleanup w1)).
Proof.
  intros x. induction x as [r|resume IH] using Call_induction; intros w.
  - reflexivity.
  - unfold Async.run. cbn [Async.settle Async.uninterrupted].
    specialize (IH w). destruct (resume w) as [x' w1]. cbn [fst] in IH.
    exact (IH w1).
Qed.

Lemma run_try_finally {A} (t : Async.T A) cleanup w :
  Async.run (Async.try_finally t cleanup) w = try_finally (Async.run t) cleanup w.
Proof.
  unfold Async.try_finally, try_finally. unfold Async.run at 1 2.
  destruct (t w) as [x w1].
  pose proof (run_settle cleanup x w1) as H. unfold Async.run in H. exact H.
Qed.

Section CallFacts.

Variable clock : nat -> N.
Variable guild : Guild.

Lemma run_grantLoop entries : forall n w,
  Async.run (Async.grantLoop clock guild entries n) w = grantLoop clock guild entries n w.
Proof.
  induction entries as [|[k a] rest IH]; intros n w; [reflexivity|].
  cbn [Async.grantLoop grantLoop]. destruct (negb a); [apply IH|].
  rewrite run_bind. apply bind_ext; [apply run_await|].
  intros [member|] w0; [|apply IH].
  rewrite run_bind. apply bind_ext; [apply run_await|]. intros _ w1. apply IH.
Qed.

Lemma run_downgradeLoop elig ids : forall n w,
  Async.run (Async.downgradeLoop clock guild elig ids n) w
  = downgradeLoop clock guild elig ids n w.
Proof.
  induction ids as [|k rest IH]; intros n w; [reflexivity|].
  cbn [Async.downgradeLoop downgradeLoop].
  destruct (match Assoc.lookup k elig with Some true => true | _ => false end);
    [apply IH|].
  rewrite run_bind. apply bind_ext; [apply run_await|].
  intros [member|] w0; [|apply IH].
  rewrite run_bind. apply bind_ext; [apply run_await|]. intros _ w1. apply IH.
Qed.

Lemma run_expiryLoop rows : forall n w,
  Async.run (Async.expiryLoop clock guild rows n) w = expiryLoop clock guild rows n w.
Proof.
  induction rows as [|[k r] rest IH]; intros n w; [reflexivity|].
  cbn [Async.expiryLoop expiryLoop].
  destruct (orZero (vip_until r) =? 0); [apply IH|].
  destruct (LIFETIME_UNTIL <=? orZero (vip_until r)); [apply IH|].
  rewrite run_bind. apply bind_ext; [apply run_sync|].
  intros now w0. destruct (now <? orZero (vip_until r)); [apply IH|].
  rewrite run_bind. apply bind_ext; [apply run_await|].
  intros [member|] w1; [|apply IH].
  rewrite run_bind. apply bind_ext; [apply run_await|]. intros _ w2. apply IH.
Qed.

Lemma run_syncPass rows started w :
  Async.run (Async.syncPass clock guild rows started) w
  = syncPass clock guild rows started w.
Proof.
  unfold Async.syncPass, syncPass.
  rewrite run_bind. apply bind_ext; [apply run_await|]. intros _ w1.
  rewrite run_bind. apply bind_ext; [apply run_await|]. intros elig w2.
  rewrite run_bind. apply bind_ext; [apply run_await|]. intros dbRows w3.
  rewrite run_bind. apply bind_ext; [apply run_grantLoop|]. intros n1 w4.
  rewrite run_bind. apply bind_ext; [apply run_downgradeLoop|]. intros n2 w5.
  rewrite run_bind. apply bind_ext; [apply run_expiryLoop|]. intros n3 w6.
  rewrite run_bind. apply bind_ext; [apply run_sync|]. intros finished w7.
  reflexivity.
Qed.

(** A call of the pass that nothing interrupts does what the sequential pass
    does. *)
Lemma run_syncFromSheetOptimised rows w :
  Async.run (Async.syncFromSheetOptimised clock guild rows) w
  = syncFromSheetOptimised clock guild rows w.
Proof.
  unfold syncFromSheetOptimised.
  assert (H : forall w0,
    Async.run (Async.bind (Async.sync (Date_now clock))
                 (fun started =>
                    Async.try_finally (Async.syncPass clock guild rows started)
                      (set_syncRunning false))) w0
    = bind (Date_now clock)
        (fun started => try_finally (syncPass clock guild rows started)
                          (set_syncRunning false)) w0).
  { intros w0. rewrite run_bind. apply bind_ext; [apply run_sync|].
    intros started w1. rewrite run_try_finally. unfold try_finally.
    now rewrite run_syncPass. }
  specialize (H (set_syncRunning true w)).
  unfold Async.run, Async.syncFromSheetOptimised in *.
  destruct (syncRunning w); [reflexivity|exact H].
Qed.

(** *** The running flag along a call *)

Lemma keeps_ret {A} (Q : Result A -> Prop) (a : A) w :
  Q (Ok a) ->
  syncRunning (snd (Async.ret a w)) = syncRunning w /\
  Async.keepsFlag Q (fst (Async.ret a w)).
Proof. intros H. split; [reflexivity|exact H]. Qed.

Lemma keeps_sync {A} (Q : Result A -> Prop) (m : M A) w :
  (forall w0 r w1, m w0 = (r, w1) -> syncRunning w1 = syncRunning w0 /\ Q r) ->
  syncRunning (snd (Async.sync m w)) = syncRunning w /\
  Async.keepsFlag Q (fst (Async.sync m w)).
Proof.
  intros H. unfold Async.sync. destruct (m w) as [r w1] eqn:E.
  exact (H _ _ _ E).
Qed.

Lemma keeps_await {A} (Q : Result A -> Prop) (m : M A) w :
  (forall w0 r w1, m w0 = (r, w1) -> syncRunning w1 = syncRunning w0 /\ Q r) ->
  syncRunning (snd (Async.await m w)) = syncRunning w /\
  Async.keepsFlag Q (fst (Async.await m w)).
Proof.
  intros H. split; [reflexivity|]. cbn. intros w0.
  destruct (m w0) as [r w1] eqn:E. exact (H _ _ _ E).
Qed.

Lemma keeps_andThen {A B} (QA : Result A -> Prop) (QB : Result B -> Prop)
    (k : A -> Async.T B) :
  (forall e, QB (Err e)) ->
  (forall a w, syncRunning (snd (k a w)) = syncRunning w /\
               Async.keepsFlag QB (fst (k a w))) ->
  forall x w, Async.keepsFlag QA x ->
    syncRunning (snd (Async.andThen x k w)) = syncRunning w /\
    Async.keepsFlag QB (fst (Async.andThen x k w)).
Proof.
  intros He Hk x.
  induction x as [[a|e]|resume IH] using Call_induction; intros w Hx.
  - apply Hk.
  - split; [reflexivity|apply He].
  - split; [reflexivity|]. cbn. intros w0. cbn in Hx. specialize (Hx w0).
    specialize (IH w0). destruct (resume w0) as [x' w1]. cbn [fst] in IH.
    destruct Hx as [Hf Hx']. destruct (IH w1 Hx') as [Hf' Hk'].
    destruct (Async.andThen x' k w1) as [y w2]. cbn [fst snd] in *.
    split; [congruence|exact Hk'].
Qed.

Lemma keeps_bind {A B} (QA : Result A -> Prop) (QB : Result B -> Prop)
    (t : Async.T A) (k : A -> Async.T B) w :
  (forall w0, syncRunning (snd (t w0)) = syncRunning w0 /\
              Async.keepsFlag QA (fst (t w0))) ->
  (forall e, QB (Err e)) ->
  (forall a w0, syncRunning (snd (k a w0)) = syncRunning w0 /\
                Async.keepsFlag QB (fst (k a w0))) ->
  syncRunning (snd (Async.bind t k w)) = syncRunning w /\
  Async.keepsFlag QB (fst (Async.bind t k w)).
Proof.
  intros Ht He Hk. unfold Async.bind. specialize (Ht w).
  destruct (t w) as [x w1]. cbn [fst snd] in Ht. destruct Ht as [Hf Hx].
  destruct (keeps_andThen QA QB k He Hk x w1 Hx) as [Hf' Hk'].
  split; [congruence|exact Hk'].
Qed.

Lemma fetchMemberSafe_flag userId w r w' :
  fetchMemberSafe guild userId w = (r, w') -> syncRunning w' = syncRunning w /\ True.
Proof. intros H. injection H as _ <-. auto. Qed.

Lemma setVipLifetime_flag member w r w' :
  setVipLifetime clock guild member w = (r, w') -> syncRunning w' = syncRunning w /\ True.
Proof. intros H. unfold_all. run_ops; auto. Qed.

Lemma setVipToTrial_flag member w r w' :
  setVipToTrialRemainingOrRemove clock guild member w = (r, w') ->
  syncRunning w' = syncRunning w /\ True.
Proof. intros H. unfold_all. run_ops; auto. Qed.

Lemma removeVipIfHas_flag member w r w' :
  removeVipIfHas guild member w = (r, w') -> syncRunning w' = syncRunning w /\ True.
Proof. intros H. split; [exact (removeVipIfHas_syncRunning _ _ _ _ _ H)|exact I]. Qed.

Lemma Date_now_flag w r w' :
  Date_now clock w = (r, w') -> syncRunning w' = syncRunning w /\ True.
Proof. intros H. injection H as _ <-. auto. Qed.

Lemma keeps_grantLoop entries : forall n w,
  syncRunning (snd (Async.grantLoop clock guild entries n w)) = syncRunning w /\
  Async.keepsFlag (fun _ => True) (fst (Async.grantLoop clock guild entries n w)).
Proof.
  induction entries as [|[k a] rest IH]; intros n w; [now apply keeps_ret|].
  cbn [Async.grantLoop]. destruct (negb a); [apply IH|].
  apply (keeps_bind (fun _ => True)); [|auto|].
  - intros w0. apply keeps_await. apply fetchMemberSafe_flag.
  - intros [member|] w0; [|apply IH].
    apply (keeps_bind (fun _ => True)); [|auto|intros _ w1; apply IH].
    intros w1. apply keeps_await. apply setVipLifetime_flag.
Qed.

Lemma keeps_downgradeLoop elig ids : forall n w,
  syncRunning (snd (Async.downgradeLoop clock guild elig ids n w)) = syncRunning w /\
  Async.keepsFlag (fun _ => True) (fst (Async.downgradeLoop clock guild elig ids n w)).
Proof.
  induction ids as [|k rest IH]; intros n w; [now apply keeps_ret|].
  cbn [Async.downgradeLoop].
  destruct (match Assoc.lookup k elig with Some true => true | _ => false end);
    [apply IH|].
  apply (keeps_bind (fun _ => True)); [|auto|].
  - intros w0. apply keeps_await. apply fetchMemberSafe_flag.
  - intros [member|] w0; [|apply IH].
    apply (keeps_bind (fun _ => True)); [|auto|intros _ w1; apply IH].
    intros w1. apply keeps_await. apply setVipToTrial_flag.
Qed.

Lemma keeps_expiryLoop rows : forall n w,
  syncRunning (snd (Async.expiryLoop clock guild rows n w)) = syncRunning w /\
  Async.keepsFlag (fun _ => True) (fst (Async.expiryLoop clock guild rows n w)).
Proof.
  induction rows as [|[k r] rest IH]; intros n w; [now apply keeps_ret|].
  cbn [Async.expiryLoop].
  destruct (orZero (vip_until r) =? 0); [apply IH|].
  destruct (LIFETIME_UNTIL <=? orZero (vip_until r)); [apply IH|].
  apply (keeps_bind (fun _ => True)); [|auto|].
  { intros w0. apply keeps_sync. apply Date_now_flag. }
  intros now w0. destruct (now <? orZero (vip_until r)); [apply IH|].
  apply (keeps_bind (fun _ => True)); [|auto|].
  - intros w1. apply keeps_await. apply fetchMemberSafe_flag.
  - intros [member|] w1; [|apply IH].
    apply (keeps_bind (fun _ => True)); [|auto|intros _ w2; apply IH].
    intros w2. apply keeps_await. apply removeVipIfHas_flag.
Qed.

Lemma keeps_syncPass rows started w :
  syncRunning (snd (Async.syncPass clock guild rows started w)) = syncRunning w /\
  Async.keepsFlag (fun r => r <> Ok Skipped)
    (fst (Async.syncPass clock guild rows started w)).
Proof.
  unfold Async.syncPass.
  apply (keeps_bind (fun _ => True)); [|discriminate|].
  { intros w0. apply keeps_await. intros w1 r w2 H. unfold fetchGuild in H.
    destruct (guildOk guild); injection H as _ <-; auto. }
  intros _ w1. apply (keeps_bind (fun _ => True)); [|discriminate|].
  { intros w0. apply keeps_await. intros w2 r w3 H. injection H as _ <-. auto. }
  intros elig w2. apply (keeps_bind (fun _ => True)); [|discriminate|].
  { intros w0. apply keeps_await. intros w3 r w4 H. injection H as _ <-. auto. }
  intros dbRows w3. apply (keeps_bind (fun _ => True)); [|discriminate|].
  { intros w0. apply keeps_grantLoop. }
  intros n1 w4. apply (keeps_bind (fun _ => True)); [|discriminate|].
  { intros w0. apply keeps_downgradeLoop. }
  intros n2 w5. apply (keeps_bind (fun _ => True)); [|discriminate|].
  { intros w0. apply keeps_expiryLoop. }
  intros n3 w6. apply (keeps_bind (fun _ => True)); [|discriminate|].
  { intros w0. apply keeps_sync. apply Date_now_flag. }
  intros finished w7. apply keeps_ret. discriminate.
Qed.

Lemma settle_holds : forall (x : Async.Call SyncResult) w,
  Async.keepsFlag (fun r => r <> Ok Skipped) x ->
  syncRunning w = true ->
  Async.holdsFlag (fst (Async.settle x (set_syncRunning false) w)) /\
  match fst (Async.settle x (set_syncRunning false) w) with
  | Async.Settled r =>
      r <> Ok Skipped /\
      syncRunning (snd (Async.settle x (set_syncRunning false) w)) = false
  | Async.Awaiting _ =>
      syncRunning (snd (Async.settle x (set_syncRunning false) w)) = true
  end.
Proof.
  intros x. induction x as [r|resume IH] using Call_induction; intros w Hx Hw.
  - cbn. auto.
  - cbn [Async.settle fst snd]. split; [|exact Hw].
    cbn [Async.holdsFlag]. intros w0 Hw0. cbn in Hx. specialize (Hx w0).
    specialize (IH w0). destruct (resume w0) as [x' w1]. cbn [fst] in IH.
    destruct Hx as [Hf Hx'].
    assert (Hw1 : syncRunning w1 = true) by congruence.
    specialize (IH w1 Hx' Hw1).
    destruct (Async.settle x' (set_syncRunning false) w1) as [y w2].
    exact IH.
Qed.

Lemma handle_flag_set e w :
  syncRunning w = true -> syncRunning (handle clock guild e w) = true.
Proof.
  intros Hf.
  assert (Hskip : forall rows, syncFromSheetOptimised clock guild rows w = (Ok Skipped, w))
    by (intros rows; unfold syncFromSheetOptimised; now rewrite Hf).
  destruct e as [registered rows|lc member|i u rows|rows|]; cbn [handle].
  - unfold ready. destruct registered; [|exact Hf]. now rewrite Hskip.
  - unfold guildMemberAdd.
    destruct (grantTrialOnJoin clock guild member w) as [[until|e] w1] eqn:E;
      cbn [snd]; now rewrite (grantTrialOnJoin_syncRunning _ _ _ _ _ _ E).
  - unfold interactionCreate. destruct i as [|c]; [exact Hf|].
    destruct (Assoc.lookup u (members guild)); [|exact Hf].
    destruct (c =? "form")%string; [exact Hf|].
    destruct (c =? "status")%string.
    { destruct (statusQuery_world clock u w) as [n Hn].
      destruct (statusQuery clock u w) as [[r|e] w1]; cbn [snd] in *; subst w1;
        exact Hf. }
    destruct (c =? "reactivate")%string; [|exact Hf].
    now rewrite Hskip.
  - unfold syncCron. now rewrite Hskip.
  - unfold cleanupCron. rewrite hourlyCleanup_world.
    destruct (guildOk guild); [|exact Hf].
    now rewrite (expiryLoop_syncRunning _ _ _ _ _ _ _ (surjective_pairing _)).
Qed.

Lemma call_holds rows w0 x w :
  syncRunning w0 = false ->
  Async.syncFromSheetOptimised clock guild rows w0 = (x, w) ->
  Async.holdsFlag x /\
  match x with
  | Async.Settled r => r <> Ok Skipped /\ syncRunning w = false
  | Async.Awaiting _ => syncRunning w = true
  end.
Proof.
  intros Hf. unfold Async.syncFromSheetOptimised. rewrite Hf.
  unfold Async.bind, Async.sync, Date_now. cbn [Async.andThen].
  unfold Async.try_finally.
  match goal with
  | |- context [Async.syncPass clock guild rows ?st ?w1] =>
      pose proof (keeps_syncPass rows st w1) as [Hk1 Hk2];
      destruct (Async.syncPass clock guild rows st w1) as [y w2]
  end.
  cbn [fst snd] in Hk1, Hk2. cbn in Hk1.
  intros H.
  pose proof (settle_holds y w2 Hk2 Hk1) as Hs. rewrite H in Hs. exact Hs.
Qed.

Lemma reaches_holds rows w0 x w :
  syncRunning w0 = false ->
  Async.reaches clock guild rows w0 x w ->
  Async.holdsFlag x /\
  match x with
  | Async.Settled r => r <> Ok Skipped /\ syncRunning w = false
  | Async.Awaiting _ => syncRunning w = true
  end.
Proof.
  intros Hf Hr. induction Hr as [x w Hcall|resume w x w' Hr IH Hres|x w e Hr IH].
  - exact (call_holds _ _ _ _ Hf Hcall).
  - destruct IH as [Hh Hw]. cbn [Async.holdsFlag] in Hh.
    specialize (Hh w Hw). rewrite Hres in Hh. exact Hh.
  - destruct IH as [Hh Hw]. split; [exact Hh|].
    destruct x as [r|resume].
    + destruct Hw as [Hr' Hw]. split; [exact Hr'|]. now apply handle_flag.
    + now apply handle_flag_set.
Qed.

End CallFacts.

(** C7: a call of the pass that finds the flag set settles at once with the skipped
    result and changes nothing.  A call that finds it clear is suspended with the
    flag set: wherever that call has come to, however often it has been resumed and
    whatever other callbacks were handled in between, while it is awaiting the flag
    is set and every further call settles at once as skipped, with no store write
    and no role change; once it has settled, with a result or an error, the result
    is not the skipped one, the flag is clear, and no further call is skipped.  Left
    alone, the call ends as the sequential pass does. *)
Theorem single_flight clock guild rows w0 :
  (syncRunning w0 = true ->
     Async.syncFromSheetOptimised clock guild rows w0
     = (Async.Settled (Ok Skipped), w0)) /\
  (syncRunning w0 = false ->
     forall x w, Async.reaches clock guild rows w0 x w ->
       match x with
       | Async.Awaiting _ =>
           syncRunning w = true /\
           forall rows', Async.syncFromSheetOptimised clock guild rows' w
                         = (Async.Settled (Ok Skipped), w)
       | Async.Settled r =>
           r <> Ok Skipped /\ syncRunning w = false /\
           forall rows', fst (Async.syncFromSheetOptimised clock guild rows' w)
                         <> Async.Settled (Ok Skipped)
       end) /\
  Async.run (Async.syncFromSheetOptimised clock guild rows) w0
  = syncFromSheetOptimised clock guild rows w0.
Proof.
  split; [|split].
  - intros Hf. unfold Async.syncFromSheetOptimised. now rewrite Hf.
  - intros Hf x w Hr.
    destruct (reaches_holds clock guild rows w0 x w Hf Hr) as [_ Hw].
    destruct x as [r|resume].
    + destruct Hw as [Hr' Hw]. repeat split; try assumption.
      intros rows'.
      destruct (Async.syncFromSheetOptimised clock guild rows' w) as [x' w'] eqn:E.
      destruct (call_holds clock guild rows' w x' w' Hw E) as [_ Hx'].
      cbn [fst]. intros ->. destruct Hx' as [Hx' _]. now apply Hx'.
    + split; [exact Hw|]. intros rows'.
      unfold Async.syncFromSheetOptimised. now rewrite Hw.
  - apply run_syncFromSheetOptimised.
Qed.

Lemma single_flight_witness :
  let p := Async.syncFromSheetOptimised Scenario.clock Scenario.guild Scenario.roster123
             Scenario.emptyWorld in
  (exists resume, fst p = Async.Awaiting resume) /\
  syncRunning (snd p) = true /\
  Async.syncFromSheetOptimised Scenario.clock Scenario.guild Scenario.rosterOther (snd p)
  = (Async.Settled (Ok Skipped), snd p).
Proof.
  cbv zeta.
  pose proof (proj1 (proj2 (single_flight Scenario.clock Scenario.guild
                              Scenario.roster123 Scenario.emptyWorld))
                eq_refl _ _
                (Async.reach_call Scenario.clock Scenario.guild Scenario.roster123
                   Scenario.emptyWorld _ _ (surjective_pairing _))) as H.
  split; [eexists; reflexivity|].
  assert (H' : syncRunning
                 (snd (Async.syncFromSheetOptimised Scenario.clock Scenario.guild
                         Scenario.roster123 Scenario.emptyWorld)) = true /\
               forall rows',
                 Async.syncFromSheetOptimised Scenario.clock Scenario.guild rows'
                   (snd (Async.syncFromSheetOptimised Scenario.clock Scenario.guild
                           Scenario.roster123 Scenario.emptyWorld))
                 = (Async.Settled (Ok Skipped),
                    snd (Async.syncFromSheetOptimised Scenario.clock Scenario.guild
                           Scenario.roster123 Scenario.emptyWorld)))
    by exact H.
  destruct H' as [Hf Hskip]. split; [exact Hf|apply Hskip].
Defined.
